(** * scrape.py: extraction and validation of the Bot API schema

    A shallow embedding of [scrape.py].  The program walks the children of
    the documentation's content node, builds a registry of types and
    methods, checks it, and hands it to [json.dump].

    Conventions of the embedding.
    - A Python [str] is a [string], a sequence of code points.  The
      character classes of [isspace], [isupper], [\s] and [\w] are those
      of the Unicode database, given as tables of ranges; matching under
      [re.IGNORECASE] is given for the ASCII characters of the program's
      patterns.
    - A dictionary that is iterated, the two categories of the registry,
      is an association list in insertion order.  An entity, whose keys
      are fixed, is a record with optional members.
    - [exit] and an uncaught exception end the run: every function that
      can reach one returns a [Result]. *)

From Stdlib Require Import List Bool Arith NArith Lia.
From Stdlib Require Strings.Byte.
Import ListNotations.

(** ** Python strings *)

(** A character is a code point. *)
Definition char : Set := N.

#[warnings="-register-all"]
Inductive string : Set :=
| EmptyString
| String (c : char) (s : string).

(** A literal stands for the code points of its text, which the file
    holds as UTF-8: one to four bytes a code point. *)
Definition continuation (b : N) : N := N.land b 0x3F.

Fixpoint decode (l : list N) : string :=
  match l with
  | [] => EmptyString
  | b0 :: r0 =>
      if b0 <? 0x80 then String b0 (decode r0)
      else
        match r0 with
        | [] => EmptyString
        | b1 :: r1 =>
            if b0 <? 0xE0
            then String (N.land b0 0x1F * 0x40 + continuation b1) (decode r1)
            else
              match r1 with
              | [] => EmptyString
              | b2 :: r2 =>
                  if b0 <? 0xF0
                  then String (N.land b0 0x0F * 0x1000 + continuation b1 * 0x40
                               + continuation b2) (decode r2)
                  else
                    match r2 with
                    | [] => EmptyString
                    | b3 :: r3 =>
                        String (N.land b0 0x07 * 0x40000 + continuation b1 * 0x1000
                                + continuation b2 * 0x40 + continuation b3) (decode r3)
                    end
              end
        end
  end%N.

Definition encode_char (c : char) : list N :=
  (if c <? 0x80 then [c]
   else if c <? 0x800 then [0xC0 + c / 0x40; 0x80 + c mod 0x40]
   else if c <? 0x10000
   then [0xE0 + c / 0x1000; 0x80 + (c / 0x40) mod 0x40; 0x80 + c mod 0x40]
   else [0xF0 + c / 0x40000; 0x80 + (c / 0x1000) mod 0x40;
         0x80 + (c / 0x40) mod 0x40; 0x80 + c mod 0x40])%N.

Fixpoint encode (s : string) : list N :=
  match s with
  | EmptyString => []
  | String c s' => encode_char c ++ encode s'
  end.

Definition string_of_bytes (l : list Byte.byte) : string :=
  decode (map (fun b => N.of_nat (Strings.Byte.to_nat b)) l).

Definition bytes_of_string (s : string) : option (list Byte.byte) :=
  fold_right (fun b acc => match Strings.Byte.of_nat (N.to_nat b), acc with
                           | Some x, Some r => Some (x :: r)
                           | _, _ => None
                           end) (Some []) (encode s).

Declare Scope string_scope.
Delimit Scope string_scope with string.
Bind Scope string_scope with string.
String Notation string string_of_bytes bytes_of_string : string_scope.
Open Scope string_scope.

Definition SPACE : char := 0x20%N.
Definition FULL_STOP : char := 0x2E%N.

Fixpoint append (s1 s2 : string) : string :=
  match s1 with
  | EmptyString => s2
  | String c s1' => String c (append s1' s2)
  end.

Notation "x ++ y" := (append x y) (right associativity, at level 60) : string_scope.

(** [len(s)] *)
Fixpoint len (s : string) : nat :=
  match s with
  | EmptyString => 0
  | String _ s' => S (len s')
  end.

(** [s1 == s2] *)
Fixpoint str_eqb (s1 s2 : string) : bool :=
  match s1, s2 with
  | EmptyString, EmptyString => true
  | String c1 s1', String c2 s2' => N.eqb c1 c2 && str_eqb s1' s2'
  | _, _ => false
  end.

Infix "=?" := str_eqb : string_scope.

(** A code point is in one of the ranges of a table. *)
Definition in_ranges (table : list (N * N)) (c : char) : bool :=
  existsb (fun r => N.leb (fst r) c && N.leb c (snd r)) table.

(** The characters of [str.isspace], which are those of [\s] in a pattern
    and those that [strip()] and [split()] take for blanks. *)
Definition WHITESPACE : list (N * N) :=
  [(0x9, 0xD); (0x1C, 0x20); (0x85, 0x85); (0xA0, 0xA0); (0x1680, 0x1680);
   (0x2000, 0x200A); (0x2028, 0x2029); (0x202F, 0x202F); (0x205F, 0x205F);
   (0x3000, 0x3000)]%N.

(** The characters of [str.isupper]: the ranges of code points with the
    property Uppercase in the Unicode database, version 14.0.0, the one
    of CPython 3.11. *)
Definition UPPERCASE : list (N * N) :=
  [(0x41, 0x5A); (0xC0, 0xD6); (0xD8, 0xDE); (0x100, 0x100); (0x102, 0x102);
   (0x104, 0x104); (0x106, 0x106); (0x108, 0x108); (0x10A, 0x10A);
   (0x10C, 0x10C); (0x10E, 0x10E); (0x110, 0x110); (0x112, 0x112);
   (0x114, 0x114); (0x116, 0x116); (0x118, 0x118); (0x11A, 0x11A);
   (0x11C, 0x11C); (0x11E, 0x11E); (0x120, 0x120); (0x122, 0x122);
   (0x124, 0x124); (0x126, 0x126); (0x128, 0x128); (0x12A, 0x12A);
   (0x12C, 0x12C); (0x12E, 0x12E); (0x130, 0x130); (0x132, 0x132);
   (0x134, 0x134); (0x136, 0x136); (0x139, 0x139); (0x13B, 0x13B);
   (0x13D, 0x13D); (0x13F, 0x13F); (0x141, 0x141); (0x143, 0x143);
   (0x145, 0x145); (0x147, 0x147); (0x14A, 0x14A); (0x14C, 0x14C);
   (0x14E, 0x14E); (0x150, 0x150); (0x152, 0x152); (0x154, 0x154);
   (0x156, 0x156); (0x158, 0x158); (0x15A, 0x15A); (0x15C, 0x15C);
   (0x15E, 0x15E); (0x160, 0x160); (0x162, 0x162); (0x164, 0x164);
   (0x166, 0x166); (0x168, 0x168); (0x16A, 0x16A); (0x16C, 0x16C);
   (0x16E, 0x16E); (0x170, 0x170); (0x172, 0x172); (0x174, 0x174);
   (0x176, 0x176); (0x178, 0x179); (0x17B, 0x17B); (0x17D, 0x17D);
   (0x181, 0x182); (0x184, 0x184); (0x186, 0x187); (0x189, 0x18B);
   (0x18E, 0x191); (0x193, 0x194); (0x196, 0x198); (0x19C, 0x19D);
   (0x19F, 0x1A0); (0x1A2, 0x1A2); (0x1A4, 0x1A4); (0x1A6, 0x1A7);
   (0x1A9, 0x1A9); (0x1AC, 0x1AC); (0x1AE, 0x1AF); (0x1B1, 0x1B3);
   (0x1B5, 0x1B5); (0x1B7, 0x1B8); (0x1BC, 0x1BC); (0x1C4, 0x1C4);
   (0x1C7, 0x1C7); (0x1CA, 0x1CA); (0x1CD, 0x1CD); (0x1CF, 0x1CF);
   (0x1D1, 0x1D1); (0x1D3, 0x1D3); (0x1D5, 0x1D5); (0x1D7, 0x1D7);
   (0x1D9, 0x1D9); (0x1DB, 0x1DB); (0x1DE, 0x1DE); (0x1E0, 0x1E0);
   (0x1E2, 0x1E2); (0x1E4, 0x1E4); (0x1E6, 0x1E6); (0x1E8, 0x1E8);
   (0x1EA, 0x1EA); (0x1EC, 0x1EC); (0x1EE, 0x1EE); (0x1F1, 0x1F1);
   (0x1F4, 0x1F4); (0x1F6, 0x1F8); (0x1FA, 0x1FA); (0x1FC, 0x1FC);
   (0x1FE, 0x1FE); (0x200, 0x200); (0x202, 0x202); (0x204, 0x204);
   (0x206, 0x206); (0x208, 0x208); (0x20A, 0x20A); (0x20C, 0x20C);
   (0x20E, 0x20E); (0x210, 0x210); (0x212, 0x212); (0x214, 0x214);
   (0x216, 0x216); (0x218, 0x218); (0x21A, 0x21A); (0x21C, 0x21C);
   (0x21E, 0x21E); (0x220, 0x220); (0x222, 0x222); (0x224, 0x224);
   (0x226, 0x226); (0x228, 0x228); (0x22A, 0x22A); (0x22C, 0x22C);
   (0x22E, 0x22E); (0x230, 0x230); (0x232, 0x232); (0x23A, 0x23B);
   (0x23D, 0x23E); (0x241, 0x241); (0x243, 0x246); (0x248, 0x248);
   (0x24A, 0x24A); (0x24C, 0x24C); (0x24E, 0x24E); (0x370, 0x370);
   (0x372, 0x372); (0x376, 0x376); (0x37F, 0x37F); (0x386, 0x386);
   (0x388, 0x38A); (0x38C, 0x38C); (0x38E, 0x38F); (0x391, 0x3A1);
   (0x3A3, 0x3AB); (0x3CF, 0x3CF); (0x3D2, 0x3D4); (0x3D8, 0x3D8);
   (0x3DA, 0x3DA); (0x3DC, 0x3DC); (0x3DE, 0x3DE); (0x3E0, 0x3E0);
   (0x3E2, 0x3E2); (0x3E4, 0x3E4); (0x3E6, 0x3E6); (0x3E8, 0x3E8);
   (0x3EA, 0x3EA); (0x3EC, 0x3EC); (0x3EE, 0x3EE); (0x3F4, 0x3F4);
   (0x3F7, 0x3F7); (0x3F9, 0x3FA); (0x3FD, 0x42F); (0x460, 0x460);
   (0x462, 0x462); (0x464, 0x464); (0x466, 0x466); (0x468, 0x468);
   (0x46A, 0x46A); (0x46C, 0x46C); (0x46E, 0x46E); (0x470, 0x470);
   (0x472, 0x472); (0x474, 0x474); (0x476, 0x476); (0x478, 0x478);
   (0x47A, 0x47A); (0x47C, 0x47C); (0x47E, 0x47E); (0x480, 0x480);
   (0x48A, 0x48A); (0x48C, 0x48C); (0x48E, 0x48E); (0x490, 0x490);
   (0x492, 0x492); (0x494, 0x494); (0x496, 0x496); (0x498, 0x498);
   (0x49A, 0x49A); (0x49C, 0x49C); (0x49E, 0x49E); (0x4A0, 0x4A0);
   (0x4A2, 0x4A2); (0x4A4, 0x4A4); (0x4A6, 0x4A6); (0x4A8, 0x4A8);
   (0x4AA, 0x4AA); (0x4AC, 0x4AC); (0x4AE, 0x4AE); (0x4B0, 0x4B0);
   (0x4B2, 0x4B2); (0x4B4, 0x4B4); (0x4B6, 0x4B6); (0x4B8, 0x4B8);
   (0x4BA, 0x4BA); (0x4BC, 0x4BC); (0x4BE, 0x4BE); (0x4C0, 0x4C1);
   (0x4C3, 0x4C3); (0x4C5, 0x4C5); (0x4C7, 0x4C7); (0x4C9, 0x4C9);
   (0x4CB, 0x4CB); (0x4CD, 0x4CD); (0x4D0, 0x4D0); (0x4D2, 0x4D2);
   (0x4D4, 0x4D4); (0x4D6, 0x4D6); (0x4D8, 0x4D8); (0x4DA, 0x4DA);
   (0x4DC, 0x4DC); (0x4DE, 0x4DE); (0x4E0, 0x4E0); (0x4E2, 0x4E2);
   (0x4E4, 0x4E4); (0x4E6, 0x4E6); (0x4E8, 0x4E8); (0x4EA, 0x4EA);
   (0x4EC, 0x4EC); (0x4EE, 0x4EE); (0x4F0, 0x4F0); (0x4F2, 0x4F2);
   (0x4F4, 0x4F4); (0x4F6, 0x4F6); (0x4F8, 0x4F8); (0x4FA, 0x4FA);
   (0x4FC, 0x4FC); (0x4FE, 0x4FE); (0x500, 0x500); (0x502, 0x502);
   (0x504, 0x504); (0x506, 0x506); (0x508, 0x508); (0x50A, 0x50A);
   (0x50C, 0x50C); (0x50E, 0x50E); (0x510, 0x510); (0x512, 0x512);
   (0x514, 0x514); (0x516, 0x516); (0x518, 0x518); (0x51A, 0x51A);
   (0x51C, 0x51C); (0x51E, 0x51E); (0x520, 0x520); (0x522, 0x522);
   (0x524, 0x524); (0x526, 0x526); (0x528, 0x528); (0x52A, 0x52A);
   (0x52C, 0x52C); (0x52E, 0x52E); (0x531, 0x556); (0x10A0, 0x10C5);
   (0x10C7, 0x10C7); (0x10CD, 0x10CD); (0x13A0, 0x13F5); (0x1C90, 0x1CBA);
   (0x1CBD, 0x1CBF); (0x1E00, 0x1E00); (0x1E02, 0x1E02); (0x1E04, 0x1E04);
   (0x1E06, 0x1E06); (0x1E08, 0x1E08); (0x1E0A, 0x1E0A); (0x1E0C, 0x1E0C);
   (0x1E0E, 0x1E0E); (0x1E10, 0x1E10); (0x1E12, 0x1E12); (0x1E14, 0x1E14);
   (0x1E16, 0x1E16); (0x1E18, 0x1E18); (0x1E1A, 0x1E1A); (0x1E1C, 0x1E1C);
   (0x1E1E, 0x1E1E); (0x1E20, 0x1E20); (0x1E22, 0x1E22); (0x1E24, 0x1E24);
   (0x1E26, 0x1E26); (0x1E28, 0x1E28); (0x1E2A, 0x1E2A); (0x1E2C, 0x1E2C);
   (0x1E2E, 0x1E2E); (0x1E30, 0x1E30); (0x1E32, 0x1E32); (0x1E34, 0x1E34);
   (0x1E36, 0x1E36); (0x1E38, 0x1E38); (0x1E3A, 0x1E3A); (0x1E3C, 0x1E3C);
   (0x1E3E, 0x1E3E); (0x1E40, 0x1E40); (0x1E42, 0x1E42); (0x1E44, 0x1E44);
   (0x1E46, 0x1E46); (0x1E48, 0x1E48); (0x1E4A, 0x1E4A); (0x1E4C, 0x1E4C);
   (0x1E4E, 0x1E4E); (0x1E50, 0x1E50); (0x1E52, 0x1E52); (0x1E54, 0x1E54);
   (0x1E56, 0x1E56); (0x1E58, 0x1E58); (0x1E5A, 0x1E5A); (0x1E5C, 0x1E5C);
   (0x1E5E, 0x1E5E); (0x1E60, 0x1E60); (0x1E62, 0x1E62); (0x1E64, 0x1E64);
   (0x1E66, 0x1E66); (0x1E68, 0x1E68); (0x1E6A, 0x1E6A); (0x1E6C, 0x1E6C);
   (0x1E6E, 0x1E6E); (0x1E70, 0x1E70); (0x1E72, 0x1E72); (0x1E74, 0x1E74);
   (0x1E76, 0x1E76); (0x1E78, 0x1E78); (0x1E7A, 0x1E7A); (0x1E7C, 0x1E7C);
   (0x1E7E, 0x1E7E); (0x1E80, 0x1E80); (0x1E82, 0x1E82); (0x1E84, 0x1E84);
   (0x1E86, 0x1E86); (0x1E88, 0x1E88); (0x1E8A, 0x1E8A); (0x1E8C, 0x1E8C);
   (0x1E8E, 0x1E8E); (0x1E90, 0x1E90); (0x1E92, 0x1E92); (0x1E94, 0x1E94);
   (0x1E9E, 0x1E9E); (0x1EA0, 0x1EA0); (0x1EA2, 0x1EA2); (0x1EA4, 0x1EA4);
   (0x1EA6, 0x1EA6); (0x1EA8, 0x1EA8); (0x1EAA, 0x1EAA); (0x1EAC, 0x1EAC);
   (0x1EAE, 0x1EAE); (0x1EB0, 0x1EB0); (0x1EB2, 0x1EB2); (0x1EB4, 0x1EB4);
   (0x1EB6, 0x1EB6); (0x1EB8, 0x1EB8); (0x1EBA, 0x1EBA); (0x1EBC, 0x1EBC);
   (0x1EBE, 0x1EBE); (0x1EC0, 0x1EC0); (0x1EC2, 0x1EC2); (0x1EC4, 0x1EC4);
   (0x1EC6, 0x1EC6); (0x1EC8, 0x1EC8); (0x1ECA, 0x1ECA); (0x1ECC, 0x1ECC);
   (0x1ECE, 0x1ECE); (0x1ED0, 0x1ED0); (0x1ED2, 0x1ED2); (0x1ED4, 0x1ED4);
   (0x1ED6, 0x1ED6); (0x1ED8, 0x1ED8); (0x1EDA, 0x1EDA); (0x1EDC, 0x1EDC);
   (0x1EDE, 0x1EDE); (0x1EE0, 0x1EE0); (0x1EE2, 0x1EE2); (0x1EE4, 0x1EE4);
   (0x1EE6, 0x1EE6); (0x1EE8, 0x1EE8); (0x1EEA, 0x1EEA); (0x1EEC, 0x1EEC);
   (0x1EEE, 0x1EEE); (0x1EF0, 0x1EF0); (0x1EF2, 0x1EF2); (0x1EF4, 0x1EF4);
   (0x1EF6, 0x1EF6); (0x1EF8, 0x1EF8); (0x1EFA, 0x1EFA); (0x1EFC, 0x1EFC);
   (0x1EFE, 0x1EFE); (0x1F08, 0x1F0F); (0x1F18, 0x1F1D); (0x1F28, 0x1F2F);
   (0x1F38, 0x1F3F); (0x1F48, 0x1F4D); (0x1F59, 0x1F59); (0x1F5B, 0x1F5B);
   (0x1F5D, 0x1F5D); (0x1F5F, 0x1F5F); (0x1F68, 0x1F6F); (0x1FB8, 0x1FBB);
   (0x1FC8, 0x1FCB); (0x1FD8, 0x1FDB); (0x1FE8, 0x1FEC); (0x1FF8, 0x1FFB);
   (0x2102, 0x2102); (0x2107, 0x2107); (0x210B, 0x210D); (0x2110, 0x2112);
   (0x2115, 0x2115); (0x2119, 0x211D); (0x2124, 0x2124); (0x2126, 0x2126);
   (0x2128, 0x2128); (0x212A, 0x212D); (0x2130, 0x2133); (0x213E, 0x213F);
   (0x2145, 0x2145); (0x2160, 0x216F); (0x2183, 0x2183); (0x24B6, 0x24CF);
   (0x2C00, 0x2C2F); (0x2C60, 0x2C60); (0x2C62, 0x2C64); (0x2C67, 0x2C67);
   (0x2C69, 0x2C69); (0x2C6B, 0x2C6B); (0x2C6D, 0x2C70); (0x2C72, 0x2C72);
   (0x2C75, 0x2C75); (0x2C7E, 0x2C80); (0x2C82, 0x2C82); (0x2C84, 0x2C84);
   (0x2C86, 0x2C86); (0x2C88, 0x2C88); (0x2C8A, 0x2C8A); (0x2C8C, 0x2C8C);
   (0x2C8E, 0x2C8E); (0x2C90, 0x2C90); (0x2C92, 0x2C92); (0x2C94, 0x2C94);
   (0x2C96, 0x2C96); (0x2C98, 0x2C98); (0x2C9A, 0x2C9A); (0x2C9C, 0x2C9C);
   (0x2C9E, 0x2C9E); (0x2CA0, 0x2CA0); (0x2CA2, 0x2CA2); (0x2CA4, 0x2CA4);
   (0x2CA6, 0x2CA6); (0x2CA8, 0x2CA8); (0x2CAA, 0x2CAA); (0x2CAC, 0x2CAC);
   (0x2CAE, 0x2CAE); (0x2CB0, 0x2CB0); (0x2CB2, 0x2CB2); (0x2CB4, 0x2CB4);
   (0x2CB6, 0x2CB6); (0x2CB8, 0x2CB8); (0x2CBA, 0x2CBA); (0x2CBC, 0x2CBC);
   (0x2CBE, 0x2CBE); (0x2CC0, 0x2CC0); (0x2CC2, 0x2CC2); (0x2CC4, 0x2CC4);
   (0x2CC6, 0x2CC6); (0x2CC8, 0x2CC8); (0x2CCA, 0x2CCA); (0x2CCC, 0x2CCC);
   (0x2CCE, 0x2CCE); (0x2CD0, 0x2CD0); (0x2CD2, 0x2CD2); (0x2CD4, 0x2CD4);
   (0x2CD6, 0x2CD6); (0x2CD8, 0x2CD8); (0x2CDA, 0x2CDA); (0x2CDC, 0x2CDC);
   (0x2CDE, 0x2CDE); (0x2CE0, 0x2CE0); (0x2CE2, 0x2CE2); (0x2CEB, 0x2CEB);
   (0x2CED, 0x2CED); (0x2CF2, 0x2CF2); (0xA640, 0xA640); (0xA642, 0xA642);
   (0xA644, 0xA644); (0xA646, 0xA646); (0xA648, 0xA648); (0xA64A, 0xA64A);
   (0xA64C, 0xA64C); (0xA64E, 0xA64E); (0xA650, 0xA650); (0xA652, 0xA652);
   (0xA654, 0xA654); (0xA656, 0xA656); (0xA658, 0xA658); (0xA65A, 0xA65A);
   (0xA65C, 0xA65C); (0xA65E, 0xA65E); (0xA660, 0xA660); (0xA662, 0xA662);
   (0xA664, 0xA664); (0xA666, 0xA666); (0xA668, 0xA668); (0xA66A, 0xA66A);
   (0xA66C, 0xA66C); (0xA680, 0xA680); (0xA682, 0xA682); (0xA684, 0xA684);
   (0xA686, 0xA686); (0xA688, 0xA688); (0xA68A, 0xA68A); (0xA68C, 0xA68C);
   (0xA68E, 0xA68E); (0xA690, 0xA690); (0xA692, 0xA692); (0xA694, 0xA694);
   (0xA696, 0xA696); (0xA698, 0xA698); (0xA69A, 0xA69A); (0xA722, 0xA722);
   (0xA724, 0xA724); (0xA726, 0xA726); (0xA728, 0xA728); (0xA72A, 0xA72A);
   (0xA72C, 0xA72C); (0xA72E, 0xA72E); (0xA732, 0xA732); (0xA734, 0xA734);
   (0xA736, 0xA736); (0xA738, 0xA738); (0xA73A, 0xA73A); (0xA73C, 0xA73C);
   (0xA73E, 0xA73E); (0xA740, 0xA740); (0xA742, 0xA742); (0xA744, 0xA744);
   (0xA746, 0xA746); (0xA748, 0xA748); (0xA74A, 0xA74A); (0xA74C, 0xA74C);
   (0xA74E, 0xA74E); (0xA750, 0xA750); (0xA752, 0xA752); (0xA754, 0xA754);
   (0xA756, 0xA756); (0xA758, 0xA758); (0xA75A, 0xA75A); (0xA75C, 0xA75C);
   (0xA75E, 0xA75E); (0xA760, 0xA760); (0xA762, 0xA762); (0xA764, 0xA764);
   (0xA766, 0xA766); (0xA768, 0xA768); (0xA76A, 0xA76A); (0xA76C, 0xA76C);
   (0xA76E, 0xA76E); (0xA779, 0xA779); (0xA77B, 0xA77B); (0xA77D, 0xA77E);
   (0xA780, 0xA780); (0xA782, 0xA782); (0xA784, 0xA784); (0xA786, 0xA786);
   (0xA78B, 0xA78B); (0xA78D, 0xA78D); (0xA790, 0xA790); (0xA792, 0xA792);
   (0xA796, 0xA796); (0xA798, 0xA798); (0xA79A, 0xA79A); (0xA79C, 0xA79C);
   (0xA79E, 0xA79E); (0xA7A0, 0xA7A0); (0xA7A2, 0xA7A2); (0xA7A4, 0xA7A4);
   (0xA7A6, 0xA7A6); (0xA7A8, 0xA7A8); (0xA7AA, 0xA7AE); (0xA7B0, 0xA7B4);
   (0xA7B6, 0xA7B6); (0xA7B8, 0xA7B8); (0xA7BA, 0xA7BA); (0xA7BC, 0xA7BC);
   (0xA7BE, 0xA7BE); (0xA7C0, 0xA7C0); (0xA7C2, 0xA7C2); (0xA7C4, 0xA7C7);
   (0xA7C9, 0xA7C9); (0xA7D0, 0xA7D0); (0xA7D6, 0xA7D6); (0xA7D8, 0xA7D8);
   (0xA7F5, 0xA7F5); (0xFF21, 0xFF3A); (0x10400, 0x10427);
   (0x104B0, 0x104D3); (0x10570, 0x1057A); (0x1057C, 0x1058A);
   (0x1058C, 0x10592); (0x10594, 0x10595); (0x10C80, 0x10CB2);
   (0x118A0, 0x118BF); (0x16E40, 0x16E5F); (0x1D400, 0x1D419);
   (0x1D434, 0x1D44D); (0x1D468, 0x1D481); (0x1D49C, 0x1D49C);
   (0x1D49E, 0x1D49F); (0x1D4A2, 0x1D4A2); (0x1D4A5, 0x1D4A6);
   (0x1D4A9, 0x1D4AC); (0x1D4AE, 0x1D4B5); (0x1D4D0, 0x1D4E9);
   (0x1D504, 0x1D505); (0x1D507, 0x1D50A); (0x1D50D, 0x1D514);
   (0x1D516, 0x1D51C); (0x1D538, 0x1D539); (0x1D53B, 0x1D53E);
   (0x1D540, 0x1D544); (0x1D546, 0x1D546); (0x1D54A, 0x1D550);
   (0x1D56C, 0x1D585); (0x1D5A0, 0x1D5B9); (0x1D5D4, 0x1D5ED);
   (0x1D608, 0x1D621); (0x1D63C, 0x1D655); (0x1D670, 0x1D689);
   (0x1D6A8, 0x1D6C0); (0x1D6E2, 0x1D6FA); (0x1D71C, 0x1D734);
   (0x1D756, 0x1D76E); (0x1D790, 0x1D7A8); (0x1D7CA, 0x1D7CA);
   (0x1E900, 0x1E921); (0x1F130, 0x1F149); (0x1F150, 0x1F169);
   (0x1F170, 0x1F189)]%N.

(** The characters of [\w] in a pattern for text: the alphanumeric
    ones and the underscore, as ranges of code points of the same
    database. *)
Definition WORD : list (N * N) :=
  [(0x30, 0x39); (0x41, 0x5A); (0x5F, 0x5F); (0x61, 0x7A); (0xAA, 0xAA);
   (0xB2, 0xB3); (0xB5, 0xB5); (0xB9, 0xBA); (0xBC, 0xBE); (0xC0, 0xD6);
   (0xD8, 0xF6); (0xF8, 0x2C1); (0x2C6, 0x2D1); (0x2E0, 0x2E4);
   (0x2EC, 0x2EC); (0x2EE, 0x2EE); (0x370, 0x374); (0x376, 0x377);
   (0x37A, 0x37D); (0x37F, 0x37F); (0x386, 0x386); (0x388, 0x38A);
   (0x38C, 0x38C); (0x38E, 0x3A1); (0x3A3, 0x3F5); (0x3F7, 0x481);
   (0x48A, 0x52F); (0x531, 0x556); (0x559, 0x559); (0x560, 0x588);
   (0x5D0, 0x5EA); (0x5EF, 0x5F2); (0x620, 0x64A); (0x660, 0x669);
   (0x66E, 0x66F); (0x671, 0x6D3); (0x6D5, 0x6D5); (0x6E5, 0x6E6);
   (0x6EE, 0x6FC); (0x6FF, 0x6FF); (0x710, 0x710); (0x712, 0x72F);
   (0x74D, 0x7A5); (0x7B1, 0x7B1); (0x7C0, 0x7EA); (0x7F4, 0x7F5);
   (0x7FA, 0x7FA); (0x800, 0x815); (0x81A, 0x81A); (0x824, 0x824);
   (0x828, 0x828); (0x840, 0x858); (0x860, 0x86A); (0x870, 0x887);
   (0x889, 0x88E); (0x8A0, 0x8C9); (0x904, 0x939); (0x93D, 0x93D);
   (0x950, 0x950); (0x958, 0x961); (0x966, 0x96F); (0x971, 0x980);
   (0x985, 0x98C); (0x98F, 0x990); (0x993, 0x9A8); (0x9AA, 0x9B0);
   (0x9B2, 0x9B2); (0x9B6, 0x9B9); (0x9BD, 0x9BD); (0x9CE, 0x9CE);
   (0x9DC, 0x9DD); (0x9DF, 0x9E1); (0x9E6, 0x9F1); (0x9F4, 0x9F9);
   (0x9FC, 0x9FC); (0xA05, 0xA0A); (0xA0F, 0xA10); (0xA13, 0xA28);
   (0xA2A, 0xA30); (0xA32, 0xA33); (0xA35, 0xA36); (0xA38, 0xA39);
   (0xA59, 0xA5C); (0xA5E, 0xA5E); (0xA66, 0xA6F); (0xA72, 0xA74);
   (0xA85, 0xA8D); (0xA8F, 0xA91); (0xA93, 0xAA8); (0xAAA, 0xAB0);
   (0xAB2, 0xAB3); (0xAB5, 0xAB9); (0xABD, 0xABD); (0xAD0, 0xAD0);
   (0xAE0, 0xAE1); (0xAE6, 0xAEF); (0xAF9, 0xAF9); (0xB05, 0xB0C);
   (0xB0F, 0xB10); (0xB13, 0xB28); (0xB2A, 0xB30); (0xB32, 0xB33);
   (0xB35, 0xB39); (0xB3D, 0xB3D); (0xB5C, 0xB5D); (0xB5F, 0xB61);
   (0xB66, 0xB6F); (0xB71, 0xB77); (0xB83, 0xB83); (0xB85, 0xB8A);
   (0xB8E, 0xB90); (0xB92, 0xB95); (0xB99, 0xB9A); (0xB9C, 0xB9C);
   (0xB9E, 0xB9F); (0xBA3, 0xBA4); (0xBA8, 0xBAA); (0xBAE, 0xBB9);
   (0xBD0, 0xBD0); (0xBE6, 0xBF2); (0xC05, 0xC0C); (0xC0E, 0xC10);
   (0xC12, 0xC28); (0xC2A, 0xC39); (0xC3D, 0xC3D); (0xC58, 0xC5A);
   (0xC5D, 0xC5D); (0xC60, 0xC61); (0xC66, 0xC6F); (0xC78, 0xC7E);
   (0xC80, 0xC80); (0xC85, 0xC8C); (0xC8E, 0xC90); (0xC92, 0xCA8);
   (0xCAA, 0xCB3); (0xCB5, 0xCB9); (0xCBD, 0xCBD); (0xCDD, 0xCDE);
   (0xCE0, 0xCE1); (0xCE6, 0xCEF); (0xCF1, 0xCF2); (0xD04, 0xD0C);
   (0xD0E, 0xD10); (0xD12, 0xD3A); (0xD3D, 0xD3D); (0xD4E, 0xD4E);
   (0xD54, 0xD56); (0xD58, 0xD61); (0xD66, 0xD78); (0xD7A, 0xD7F);
   (0xD85, 0xD96); (0xD9A, 0xDB1); (0xDB3, 0xDBB); (0xDBD, 0xDBD);
   (0xDC0, 0xDC6); (0xDE6, 0xDEF); (0xE01, 0xE30); (0xE32, 0xE33);
   (0xE40, 0xE46); (0xE50, 0xE59); (0xE81, 0xE82); (0xE84, 0xE84);
   (0xE86, 0xE8A); (0xE8C, 0xEA3); (0xEA5, 0xEA5); (0xEA7, 0xEB0);
   (0xEB2, 0xEB3); (0xEBD, 0xEBD); (0xEC0, 0xEC4); (0xEC6, 0xEC6);
   (0xED0, 0xED9); (0xEDC, 0xEDF); (0xF00, 0xF00); (0xF20, 0xF33);
   (0xF40, 0xF47); (0xF49, 0xF6C); (0xF88, 0xF8C); (0x1000, 0x102A);
   (0x103F, 0x1049); (0x1050, 0x1055); (0x105A, 0x105D); (0x1061, 0x1061);
   (0x1065, 0x1066); (0x106E, 0x1070); (0x1075, 0x1081); (0x108E, 0x108E);
   (0x1090, 0x1099); (0x10A0, 0x10C5); (0x10C7, 0x10C7); (0x10CD, 0x10CD);
   (0x10D0, 0x10FA); (0x10FC, 0x1248); (0x124A, 0x124D); (0x1250, 0x1256);
   (0x1258, 0x1258); (0x125A, 0x125D); (0x1260, 0x1288); (0x128A, 0x128D);
   (0x1290, 0x12B0); (0x12B2, 0x12B5); (0x12B8, 0x12BE); (0x12C0, 0x12C0);
   (0x12C2, 0x12C5); (0x12C8, 0x12D6); (0x12D8, 0x1310); (0x1312, 0x1315);
   (0x1318, 0x135A); (0x1369, 0x137C); (0x1380, 0x138F); (0x13A0, 0x13F5);
   (0x13F8, 0x13FD); (0x1401, 0x166C); (0x166F, 0x167F); (0x1681, 0x169A);
   (0x16A0, 0x16EA); (0x16EE, 0x16F8); (0x1700, 0x1711); (0x171F, 0x1731);
   (0x1740, 0x1751); (0x1760, 0x176C); (0x176E, 0x1770); (0x1780, 0x17B3);
   (0x17D7, 0x17D7); (0x17DC, 0x17DC); (0x17E0, 0x17E9); (0x17F0, 0x17F9);
   (0x1810, 0x1819); (0x1820, 0x1878); (0x1880, 0x1884); (0x1887, 0x18A8);
   (0x18AA, 0x18AA); (0x18B0, 0x18F5); (0x1900, 0x191E); (0x1946, 0x196D);
   (0x1970, 0x1974); (0x1980, 0x19AB); (0x19B0, 0x19C9); (0x19D0, 0x19DA);
   (0x1A00, 0x1A16); (0x1A20, 0x1A54); (0x1A80, 0x1A89); (0x1A90, 0x1A99);
   (0x1AA7, 0x1AA7); (0x1B05, 0x1B33); (0x1B45, 0x1B4C); (0x1B50, 0x1B59);
   (0x1B83, 0x1BA0); (0x1BAE, 0x1BE5); (0x1C00, 0x1C23); (0x1C40, 0x1C49);
   (0x1C4D, 0x1C7D); (0x1C80, 0x1C88); (0x1C90, 0x1CBA); (0x1CBD, 0x1CBF);
   (0x1CE9, 0x1CEC); (0x1CEE, 0x1CF3); (0x1CF5, 0x1CF6); (0x1CFA, 0x1CFA);
   (0x1D00, 0x1DBF); (0x1E00, 0x1F15); (0x1F18, 0x1F1D); (0x1F20, 0x1F45);
   (0x1F48, 0x1F4D); (0x1F50, 0x1F57); (0x1F59, 0x1F59); (0x1F5B, 0x1F5B);
   (0x1F5D, 0x1F5D); (0x1F5F, 0x1F7D); (0x1F80, 0x1FB4); (0x1FB6, 0x1FBC);
   (0x1FBE, 0x1FBE); (0x1FC2, 0x1FC4); (0x1FC6, 0x1FCC); (0x1FD0, 0x1FD3);
   (0x1FD6, 0x1FDB); (0x1FE0, 0x1FEC); (0x1FF2, 0x1FF4); (0x1FF6, 0x1FFC);
   (0x2070, 0x2071); (0x2074, 0x2079); (0x207F, 0x2089); (0x2090, 0x209C);
   (0x2102, 0x2102); (0x2107, 0x2107); (0x210A, 0x2113); (0x2115, 0x2115);
   (0x2119, 0x211D); (0x2124, 0x2124); (0x2126, 0x2126); (0x2128, 0x2128);
   (0x212A, 0x212D); (0x212F, 0x2139); (0x213C, 0x213F); (0x2145, 0x2149);
   (0x214E, 0x214E); (0x2150, 0x2189); (0x2460, 0x249B); (0x24EA, 0x24FF);
   (0x2776, 0x2793); (0x2C00, 0x2CE4); (0x2CEB, 0x2CEE); (0x2CF2, 0x2CF3);
   (0x2CFD, 0x2CFD); (0x2D00, 0x2D25); (0x2D27, 0x2D27); (0x2D2D, 0x2D2D);
   (0x2D30, 0x2D67); (0x2D6F, 0x2D6F); (0x2D80, 0x2D96); (0x2DA0, 0x2DA6);
   (0x2DA8, 0x2DAE); (0x2DB0, 0x2DB6); (0x2DB8, 0x2DBE); (0x2DC0, 0x2DC6);
   (0x2DC8, 0x2DCE); (0x2DD0, 0x2DD6); (0x2DD8, 0x2DDE); (0x2E2F, 0x2E2F);
   (0x3005, 0x3007); (0x3021, 0x3029); (0x3031, 0x3035); (0x3038, 0x303C);
   (0x3041, 0x3096); (0x309D, 0x309F); (0x30A1, 0x30FA); (0x30FC, 0x30FF);
   (0x3105, 0x312F); (0x3131, 0x318E); (0x3192, 0x3195); (0x31A0, 0x31BF);
   (0x31F0, 0x31FF); (0x3220, 0x3229); (0x3248, 0x324F); (0x3251, 0x325F);
   (0x3280, 0x3289); (0x32B1, 0x32BF); (0x3400, 0x4DBF); (0x4E00, 0xA48C);
   (0xA4D0, 0xA4FD); (0xA500, 0xA60C); (0xA610, 0xA62B); (0xA640, 0xA66E);
   (0xA67F, 0xA69D); (0xA6A0, 0xA6EF); (0xA717, 0xA71F); (0xA722, 0xA788);
   (0xA78B, 0xA7CA); (0xA7D0, 0xA7D1); (0xA7D3, 0xA7D3); (0xA7D5, 0xA7D9);
   (0xA7F2, 0xA801); (0xA803, 0xA805); (0xA807, 0xA80A); (0xA80C, 0xA822);
   (0xA830, 0xA835); (0xA840, 0xA873); (0xA882, 0xA8B3); (0xA8D0, 0xA8D9);
   (0xA8F2, 0xA8F7); (0xA8FB, 0xA8FB); (0xA8FD, 0xA8FE); (0xA900, 0xA925);
   (0xA930, 0xA946); (0xA960, 0xA97C); (0xA984, 0xA9B2); (0xA9CF, 0xA9D9);
   (0xA9E0, 0xA9E4); (0xA9E6, 0xA9FE); (0xAA00, 0xAA28); (0xAA40, 0xAA42);
   (0xAA44, 0xAA4B); (0xAA50, 0xAA59); (0xAA60, 0xAA76); (0xAA7A, 0xAA7A);
   (0xAA7E, 0xAAAF); (0xAAB1, 0xAAB1); (0xAAB5, 0xAAB6); (0xAAB9, 0xAABD);
   (0xAAC0, 0xAAC0); (0xAAC2, 0xAAC2); (0xAADB, 0xAADD); (0xAAE0, 0xAAEA);
   (0xAAF2, 0xAAF4); (0xAB01, 0xAB06); (0xAB09, 0xAB0E); (0xAB11, 0xAB16);
   (0xAB20, 0xAB26); (0xAB28, 0xAB2E); (0xAB30, 0xAB5A); (0xAB5C, 0xAB69);
   (0xAB70, 0xABE2); (0xABF0, 0xABF9); (0xAC00, 0xD7A3); (0xD7B0, 0xD7C6);
   (0xD7CB, 0xD7FB); (0xF900, 0xFA6D); (0xFA70, 0xFAD9); (0xFB00, 0xFB06);
   (0xFB13, 0xFB17); (0xFB1D, 0xFB1D); (0xFB1F, 0xFB28); (0xFB2A, 0xFB36);
   (0xFB38, 0xFB3C); (0xFB3E, 0xFB3E); (0xFB40, 0xFB41); (0xFB43, 0xFB44);
   (0xFB46, 0xFBB1); (0xFBD3, 0xFD3D); (0xFD50, 0xFD8F); (0xFD92, 0xFDC7);
   (0xFDF0, 0xFDFB); (0xFE70, 0xFE74); (0xFE76, 0xFEFC); (0xFF10, 0xFF19);
   (0xFF21, 0xFF3A); (0xFF41, 0xFF5A); (0xFF66, 0xFFBE); (0xFFC2, 0xFFC7);
   (0xFFCA, 0xFFCF); (0xFFD2, 0xFFD7); (0xFFDA, 0xFFDC); (0x10000, 0x1000B);
   (0x1000D, 0x10026); (0x10028, 0x1003A); (0x1003C, 0x1003D);
   (0x1003F, 0x1004D); (0x10050, 0x1005D); (0x10080, 0x100FA);
   (0x10107, 0x10133); (0x10140, 0x10178); (0x1018A, 0x1018B);
   (0x10280, 0x1029C); (0x102A0, 0x102D0); (0x102E1, 0x102FB);
   (0x10300, 0x10323); (0x1032D, 0x1034A); (0x10350, 0x10375);
   (0x10380, 0x1039D); (0x103A0, 0x103C3); (0x103C8, 0x103CF);
   (0x103D1, 0x103D5); (0x10400, 0x1049D); (0x104A0, 0x104A9);
   (0x104B0, 0x104D3); (0x104D8, 0x104FB); (0x10500, 0x10527);
   (0x10530, 0x10563); (0x10570, 0x1057A); (0x1057C, 0x1058A);
   (0x1058C, 0x10592); (0x10594, 0x10595); (0x10597, 0x105A1);
   (0x105A3, 0x105B1); (0x105B3, 0x105B9); (0x105BB, 0x105BC);
   (0x10600, 0x10736); (0x10740, 0x10755); (0x10760, 0x10767);
   (0x10780, 0x10785); (0x10787, 0x107B0); (0x107B2, 0x107BA);
   (0x10800, 0x10805); (0x10808, 0x10808); (0x1080A, 0x10835);
   (0x10837, 0x10838); (0x1083C, 0x1083C); (0x1083F, 0x10855);
   (0x10858, 0x10876); (0x10879, 0x1089E); (0x108A7, 0x108AF);
   (0x108E0, 0x108F2); (0x108F4, 0x108F5); (0x108FB, 0x1091B);
   (0x10920, 0x10939); (0x10980, 0x109B7); (0x109BC, 0x109CF);
   (0x109D2, 0x10A00); (0x10A10, 0x10A13); (0x10A15, 0x10A17);
   (0x10A19, 0x10A35); (0x10A40, 0x10A48); (0x10A60, 0x10A7E);
   (0x10A80, 0x10A9F); (0x10AC0, 0x10AC7); (0x10AC9, 0x10AE4);
   (0x10AEB, 0x10AEF); (0x10B00, 0x10B35); (0x10B40, 0x10B55);
   (0x10B58, 0x10B72); (0x10B78, 0x10B91); (0x10BA9, 0x10BAF);
   (0x10C00, 0x10C48); (0x10C80, 0x10CB2); (0x10CC0, 0x10CF2);
   (0x10CFA, 0x10D23); (0x10D30, 0x10D39); (0x10E60, 0x10E7E);
   (0x10E80, 0x10EA9); (0x10EB0, 0x10EB1); (0x10F00, 0x10F27);
   (0x10F30, 0x10F45); (0x10F51, 0x10F54); (0x10F70, 0x10F81);
   (0x10FB0, 0x10FCB); (0x10FE0, 0x10FF6); (0x11003, 0x11037);
   (0x11052, 0x1106F); (0x11071, 0x11072); (0x11075, 0x11075);
   (0x11083, 0x110AF); (0x110D0, 0x110E8); (0x110F0, 0x110F9);
   (0x11103, 0x11126); (0x11136, 0x1113F); (0x11144, 0x11144);
   (0x11147, 0x11147); (0x11150, 0x11172); (0x11176, 0x11176);
   (0x11183, 0x111B2); (0x111C1, 0x111C4); (0x111D0, 0x111DA);
   (0x111DC, 0x111DC); (0x111E1, 0x111F4); (0x11200, 0x11211);
   (0x11213, 0x1122B); (0x11280, 0x11286); (0x11288, 0x11288);
   (0x1128A, 0x1128D); (0x1128F, 0x1129D); (0x1129F, 0x112A8);
   (0x112B0, 0x112DE); (0x112F0, 0x112F9); (0x11305, 0x1130C);
   (0x1130F, 0x11310); (0x11313, 0x11328); (0x1132A, 0x11330);
   (0x11332, 0x11333); (0x11335, 0x11339); (0x1133D, 0x1133D);
   (0x11350, 0x11350); (0x1135D, 0x11361); (0x11400, 0x11434);
   (0x11447, 0x1144A); (0x11450, 0x11459); (0x1145F, 0x11461);
   (0x11480, 0x114AF); (0x114C4, 0x114C5); (0x114C7, 0x114C7);
   (0x114D0, 0x114D9); (0x11580, 0x115AE); (0x115D8, 0x115DB);
   (0x11600, 0x1162F); (0x11644, 0x11644); (0x11650, 0x11659);
   (0x11680, 0x116AA); (0x116B8, 0x116B8); (0x116C0, 0x116C9);
   (0x11700, 0x1171A); (0x11730, 0x1173B); (0x11740, 0x11746);
   (0x11800, 0x1182B); (0x118A0, 0x118F2); (0x118FF, 0x11906);
   (0x11909, 0x11909); (0x1190C, 0x11913); (0x11915, 0x11916);
   (0x11918, 0x1192F); (0x1193F, 0x1193F); (0x11941, 0x11941);
   (0x11950, 0x11959); (0x119A0, 0x119A7); (0x119AA, 0x119D0);
   (0x119E1, 0x119E1); (0x119E3, 0x119E3); (0x11A00, 0x11A00);
   (0x11A0B, 0x11A32); (0x11A3A, 0x11A3A); (0x11A50, 0x11A50);
   (0x11A5C, 0x11A89); (0x11A9D, 0x11A9D); (0x11AB0, 0x11AF8);
   (0x11C00, 0x11C08); (0x11C0A, 0x11C2E); (0x11C40, 0x11C40);
   (0x11C50, 0x11C6C); (0x11C72, 0x11C8F); (0x11D00, 0x11D06);
   (0x11D08, 0x11D09); (0x11D0B, 0x11D30); (0x11D46, 0x11D46);
   (0x11D50, 0x11D59); (0x11D60, 0x11D65); (0x11D67, 0x11D68);
   (0x11D6A, 0x11D89); (0x11D98, 0x11D98); (0x11DA0, 0x11DA9);
   (0x11EE0, 0x11EF2); (0x11FB0, 0x11FB0); (0x11FC0, 0x11FD4);
   (0x12000, 0x12399); (0x12400, 0x1246E); (0x12480, 0x12543);
   (0x12F90, 0x12FF0); (0x13000, 0x1342E); (0x14400, 0x14646);
   (0x16800, 0x16A38); (0x16A40, 0x16A5E); (0x16A60, 0x16A69);
   (0x16A70, 0x16ABE); (0x16AC0, 0x16AC9); (0x16AD0, 0x16AED);
   (0x16B00, 0x16B2F); (0x16B40, 0x16B43); (0x16B50, 0x16B59);
   (0x16B5B, 0x16B61); (0x16B63, 0x16B77); (0x16B7D, 0x16B8F);
   (0x16E40, 0x16E96); (0x16F00, 0x16F4A); (0x16F50, 0x16F50);
   (0x16F93, 0x16F9F); (0x16FE0, 0x16FE1); (0x16FE3, 0x16FE3);
   (0x17000, 0x187F7); (0x18800, 0x18CD5); (0x18D00, 0x18D08);
   (0x1AFF0, 0x1AFF3); (0x1AFF5, 0x1AFFB); (0x1AFFD, 0x1AFFE);
   (0x1B000, 0x1B122); (0x1B150, 0x1B152); (0x1B164, 0x1B167);
   (0x1B170, 0x1B2FB); (0x1BC00, 0x1BC6A); (0x1BC70, 0x1BC7C);
   (0x1BC80, 0x1BC88); (0x1BC90, 0x1BC99); (0x1D2E0, 0x1D2F3);
   (0x1D360, 0x1D378); (0x1D400, 0x1D454); (0x1D456, 0x1D49C);
   (0x1D49E, 0x1D49F); (0x1D4A2, 0x1D4A2); (0x1D4A5, 0x1D4A6);
   (0x1D4A9, 0x1D4AC); (0x1D4AE, 0x1D4B9); (0x1D4BB, 0x1D4BB);
   (0x1D4BD, 0x1D4C3); (0x1D4C5, 0x1D505); (0x1D507, 0x1D50A);
   (0x1D50D, 0x1D514); (0x1D516, 0x1D51C); (0x1D51E, 0x1D539);
   (0x1D53B, 0x1D53E); (0x1D540, 0x1D544); (0x1D546, 0x1D546);
   (0x1D54A, 0x1D550); (0x1D552, 0x1D6A5); (0x1D6A8, 0x1D6C0);
   (0x1D6C2, 0x1D6DA); (0x1D6DC, 0x1D6FA); (0x1D6FC, 0x1D714);
   (0x1D716, 0x1D734); (0x1D736, 0x1D74E); (0x1D750, 0x1D76E);
   (0x1D770, 0x1D788); (0x1D78A, 0x1D7A8); (0x1D7AA, 0x1D7C2);
   (0x1D7C4, 0x1D7CB); (0x1D7CE, 0x1D7FF); (0x1DF00, 0x1DF1E);
   (0x1E100, 0x1E12C); (0x1E137, 0x1E13D); (0x1E140, 0x1E149);
   (0x1E14E, 0x1E14E); (0x1E290, 0x1E2AD); (0x1E2C0, 0x1E2EB);
   (0x1E2F0, 0x1E2F9); (0x1E7E0, 0x1E7E6); (0x1E7E8, 0x1E7EB);
   (0x1E7ED, 0x1E7EE); (0x1E7F0, 0x1E7FE); (0x1E800, 0x1E8C4);
   (0x1E8C7, 0x1E8CF); (0x1E900, 0x1E943); (0x1E94B, 0x1E94B);
   (0x1E950, 0x1E959); (0x1EC71, 0x1ECAB); (0x1ECAD, 0x1ECAF);
   (0x1ECB1, 0x1ECB4); (0x1ED01, 0x1ED2D); (0x1ED2F, 0x1ED3D);
   (0x1EE00, 0x1EE03); (0x1EE05, 0x1EE1F); (0x1EE21, 0x1EE22);
   (0x1EE24, 0x1EE24); (0x1EE27, 0x1EE27); (0x1EE29, 0x1EE32);
   (0x1EE34, 0x1EE37); (0x1EE39, 0x1EE39); (0x1EE3B, 0x1EE3B);
   (0x1EE42, 0x1EE42); (0x1EE47, 0x1EE47); (0x1EE49, 0x1EE49);
   (0x1EE4B, 0x1EE4B); (0x1EE4D, 0x1EE4F); (0x1EE51, 0x1EE52);
   (0x1EE54, 0x1EE54); (0x1EE57, 0x1EE57); (0x1EE59, 0x1EE59);
   (0x1EE5B, 0x1EE5B); (0x1EE5D, 0x1EE5D); (0x1EE5F, 0x1EE5F);
   (0x1EE61, 0x1EE62); (0x1EE64, 0x1EE64); (0x1EE67, 0x1EE6A);
   (0x1EE6C, 0x1EE72); (0x1EE74, 0x1EE77); (0x1EE79, 0x1EE7C);
   (0x1EE7E, 0x1EE7E); (0x1EE80, 0x1EE89); (0x1EE8B, 0x1EE9B);
   (0x1EEA1, 0x1EEA3); (0x1EEA5, 0x1EEA9); (0x1EEAB, 0x1EEBB);
   (0x1F100, 0x1F10C); (0x1FBF0, 0x1FBF9); (0x20000, 0x2A6DF);
   (0x2A700, 0x2B738); (0x2B740, 0x2B81D); (0x2B820, 0x2CEA1);
   (0x2CEB0, 0x2EBE0); (0x2F800, 0x2FA1D); (0x30000, 0x3134A)]%N.

Definition isspace (c : char) : bool := in_ranges WHITESPACE c.

Definition isupper (c : char) : bool := in_ranges UPPERCASE c.

(** A word character of a regular expression *)
Definition isword (c : char) : bool := in_ranges WORD c.

(** [string.punctuation]: the ASCII characters 33-47, 58-64, 91-96 and
    123-126. *)
Definition ispunctuation (c : char) : bool :=
  in_ranges [(33, 47); (58, 64); (91, 96); (123, 126)]%N c.

(** Matching under [re.IGNORECASE], for a character of a pattern that is
    ASCII, as every character of the program's patterns is.  The library
    compares lower-case letters.  The characters whose lower-case letter
    is ASCII are the capitals A to Z, the capital I with a dot above
    (U+0130) and the Kelvin sign (U+212A): [fold_case] gives their
    lower-case letter and leaves every other character as it is. *)
Definition fold_case (c : char) : char :=
  (if (0x41 <=? c) && (c <=? 0x5A) then c + 0x20
   else if c =? 0x130 then 0x69
   else if c =? 0x212A then 0x6B
   else c)%N.

(** The character [a] of the pattern matches the character [b] of the
    text: they have the same lower-case letter; besides, an [i] matches
    the dotless i (U+0131) and an [s] the long s (U+017F), which are
    lower-case letters of their own. *)
Definition imatch_char (a b : char) : bool :=
  let lo := fold_case a in
  (fold_case b =? lo)%N
  || ((lo =? 0x69)%N && (b =? 0x131)%N)
  || ((lo =? 0x73)%N && (b =? 0x17F)%N).

(** [s.startswith(p)] *)
Fixpoint startswith (p s : string) : bool :=
  match p, s with
  | EmptyString, _ => true
  | String a p', String b s' => N.eqb a b && startswith p' s'
  | String _ _, EmptyString => false
  end.

(** The pattern [p] matches at the head of [s] under [re.IGNORECASE]. *)
Fixpoint imatch (p s : string) : bool :=
  match p, s with
  | EmptyString, _ => true
  | String a p', String b s' => imatch_char a b && imatch p' s'
  | String _ _, EmptyString => false
  end.

(** [s[n:]] *)
Fixpoint drop (n : nat) (s : string) : string :=
  match n, s with
  | O, _ => s
  | S n', String _ s' => drop n' s'
  | S _, EmptyString => EmptyString
  end.

(** [sub in s] *)
Fixpoint contains (sub s : string) : bool :=
  startswith sub s
  || match s with
     | EmptyString => false
     | String _ s' => contains sub s'
     end.

Fixpoint lstrip (s : string) : string :=
  match s with
  | EmptyString => EmptyString
  | String c s' => if isspace c then lstrip s' else s
  end.

Fixpoint rstrip (s : string) : string :=
  match s with
  | EmptyString => EmptyString
  | String c s' =>
      match rstrip s' with
      | EmptyString => if isspace c then EmptyString else String c EmptyString
      | r => String c r
      end
  end.

(** [s.strip()] *)
Definition strip (s : string) : string := rstrip (lstrip s).

(** [s.split(sep)] for a non-empty [sep]: [cur] is the fragment being
    read, [skip] the characters of a separator still to pass over. *)
Fixpoint split_go (sep : string) (skip : nat) (cur s : string) : list string :=
  match s with
  | EmptyString => [cur]
  | String c s' =>
      match skip with
      | S k => split_go sep k cur s'
      | O =>
          if startswith sep s
          then cur :: split_go sep (len sep - 1) EmptyString s'
          else split_go sep 0 (cur ++ String c EmptyString) s'
      end
  end.

Definition split (sep s : string) : list string := split_go sep 0 EmptyString s.

(** [s.split()]: the maximal runs of non-blank characters. *)
Fixpoint split_ws_go (cur s : string) : list string :=
  match s with
  | EmptyString => match cur with EmptyString => [] | _ => [cur] end
  | String c s' =>
      if isspace c
      then match cur with
           | EmptyString => split_ws_go EmptyString s'
           | _ => cur :: split_ws_go EmptyString s'
           end
      else split_ws_go (cur ++ String c EmptyString) s'
  end.

Definition split_ws (s : string) : list string := split_ws_go EmptyString s.

(** [s.replace(old, new)] for a non-empty [old]. *)
Fixpoint replace_go (old new : string) (skip : nat) (s : string) : string :=
  match s with
  | EmptyString => EmptyString
  | String c s' =>
      match skip with
      | S k => replace_go old new k s'
      | O =>
          if startswith old s
          then new ++ replace_go old new (len old - 1) s'
          else String c (replace_go old new 0 s')
      end
  end.

Definition replace (old new s : string) : string := replace_go old new 0 s.

(** ["\n".join(l)] and the like *)
Fixpoint join (sep : string) (l : list string) : string :=
  match l with
  | [] => EmptyString
  | [x] => x
  | x :: r => x ++ sep ++ join sep r
  end.

(** [re.sub(r"\s+", " ", s)] *)
Fixpoint collapse_ws (in_run : bool) (s : string) : string :=
  match s with
  | EmptyString => EmptyString
  | String c s' =>
      if isspace c
      then if in_run then collapse_ws true s' else String SPACE (collapse_ws true s')
      else String c (collapse_ws false s')
  end.

(** [s.translate(str.maketrans("", "", string.punctuation))] *)
Fixpoint strip_punctuation (s : string) : string :=
  match s with
  | EmptyString => EmptyString
  | String c s' =>
      if ispunctuation c then strip_punctuation s' else String c (strip_punctuation s')
  end.

(** [x in l] for a list of strings *)
Definition mem (x : string) (l : list string) : bool :=
  existsb (str_eqb x) l.

(** ** Constants *)

Definition TG_CORE_TYPES : list string := ["String"; "Boolean"; "Integer"; "Float"].
Definition ROOT_URL : string := "https://core.telegram.org".
Definition API_URL : string := ROOT_URL ++ "/bots/api".
Definition APPROVED_NO_SUBTYPES : list string :=
  ["VoiceChatStarted"; "InputFile"; "CallbackGame"].

Definition ARRAY_OF : string := "Array of ".

(** ** Type-String Parser *)

Definition get_proper_type (t : string) : string :=
  if t =? "Messages" then "Message"
  else if t =? "Float number" then "Float"
  else if t =? "Int" then "Integer"
  else if (t =? "True") || (t =? "Bool") then "Boolean"
  else t.

Definition clean_tg_type (t : string) : list string :=
  let '(pref, t) :=
    if startswith ARRAY_OF t
    then (ARRAY_OF, drop (len ARRAY_OF) t)
    else (EmptyString, t) in
  let fixed_ors := map strip (split " or " t) in
  let fixed_ands := flat_map (fun fo => map strip (split " and " fo)) fixed_ors in
  let fixed_commas := flat_map (fun fa => map strip (split ", " fa)) fixed_ands in
  map (fun x => pref ++ get_proper_type x) fixed_commas.

(** ** Results of a run

    [exit(1)] after its diagnostics, or an exception nobody catches. *)

Inductive Exn : Type :=
| KeyError (key : string)
| IndexError
| AttributeError
| ValueError.

(** ** Markup

    What [bs4] hands over: a text node or an element with its attributes
    and children. *)

#[warnings="-register-all"]
Inductive Tag : Type :=
| NavigableString (s : string)
| Element (name : string) (attrs : list (string * string)) (children : list Tag).

(** What [print] wrote: a line, a line ending in the [repr] of a list of
    strings, or the [repr] of a list of tags. *)
Inductive Printed : Type :=
| Line (s : string)
| LineRepr (s : string) (l : list string)
| TagList (l : list Tag).

Inductive Result (A : Type) : Type :=
| Ok (a : A)
| Exit (code : nat) (out : list Printed)
| Raise (e : Exn).

Arguments Ok {A} a.
Arguments Exit {A} code out.
Arguments Raise {A} e.

Definition bind {A B : Type} (r : Result A) (k : A -> Result B) : Result B :=
  match r with
  | Ok a => k a
  | Exit code out => Exit code out
  | Raise e => Raise e
  end.

Notation "x <- e ;; k" := (bind e (fun x => k))
  (at level 61, e at next level, right associativity).
Notation "' pat <- e ;; k" := (bind e (fun x => match x with pat => k end))
  (at level 61, pat pattern, e at next level, right associativity).

Section MapM.
Context {A B : Type} (f : A -> Result B).

Fixpoint mapM (l : list A) : Result (list B) :=
  match l with
  | [] => Ok []
  | a :: r => b <- f a ;; bs <- mapM r ;; Ok (b :: bs)
  end.

End MapM.

Definition LF : string := String 10%N EmptyString.
Definition QUOTE : string := String 34%N EmptyString.

(** [tag.get(key)] *)
Fixpoint attr (key : string) (attrs : list (string * string)) : option string :=
  match attrs with
  | [] => None
  | (k, v) :: r => if k =? key then Some v else attr key r
  end.

Definition tag_get (t : Tag) (key : string) : option string :=
  match t with
  | NavigableString _ => None
  | Element _ attrs _ => attr key attrs
  end.

(** [tag.get_text()], also [tag.text] *)
Fixpoint get_text (t : Tag) : string :=
  match t with
  | NavigableString s => s
  | Element _ _ children => join EmptyString (map get_text children)
  end.

(** [tag.find(name)]: the first descendant element of that name, in
    document order. *)
Fixpoint find_in (name : string) (t : Tag) : option Tag :=
  match t with
  | NavigableString _ => None
  | Element n _ children =>
      if n =? name then Some t
      else (fix first (l : list Tag) : option Tag :=
              match l with
              | [] => None
              | c :: r => match find_in name c with
                          | Some d => Some d
                          | None => first r
                          end
              end) children
  end.

Definition find (name : string) (t : Tag) : option Tag :=
  match t with
  | NavigableString _ => None
  | Element _ _ children =>
      fold_right (fun c found => match find_in name c with
                                 | Some d => Some d
                                 | None => found
                                 end) None children
  end.

(** ** Text Normalizer *)

(** [for i in t.find_all("img"): i.replace_with(i.get("alt"))]; an image
    without [alt] makes [replace_with] raise. *)
Fixpoint replace_imgs (t : Tag) : Result Tag :=
  match t with
  | NavigableString _ => Ok t
  | Element name attrs children =>
      children' <- mapM replace_imgs children ;;
      if name =? "img"
      then match attr "alt" attrs with
           | Some alt => Ok (NavigableString alt)
           | None => Raise ValueError
           end
      else Ok (Element name attrs children')
  end.

(** [for br in t.find_all("br"): br.replace_with("\n")] *)
Fixpoint replace_brs (t : Tag) : Tag :=
  match t with
  | NavigableString _ => t
  | Element name attrs children =>
      if name =? "br" then NavigableString LF
      else Element name attrs (map replace_brs children)
  end.

(** The loop over [t.find_all("a")]: an anchor whose text holds the
    marker is replaced by its text with the link spelled out; the link of
    such an anchor must be there, [link.startswith] raises on [None]. *)
Fixpoint replace_anchors (t : Tag) : Result Tag :=
  match t with
  | NavigableString _ => Ok t
  | Element name attrs children =>
      children' <- mapM replace_anchors children ;;
      if name =? "a"
      then
        let anchor_text := get_text t in
        if negb (contains "»" anchor_text) then Ok (Element name attrs children')
        else match attr "href" attrs with
             | None => Raise AttributeError
             | Some link =>
                 let link :=
                   if startswith "#" link then API_URL ++ link
                   else if startswith "/" link then ROOT_URL ++ link
                   else link in
                 Ok (NavigableString (replace " »" (": " ++ link) anchor_text))
             end
      else Ok (Element name attrs children')
  end.

Definition clean_tg_description (t : Tag) : Result string :=
  match t with
  | NavigableString _ => Raise AttributeError
  | Element name attrs children =>
      children <- mapM replace_imgs children ;;
      let children := map replace_brs children in
      children <- mapM replace_anchors children ;;
      let text := get_text (Element name attrs children) in
      let text := collapse_ws false text in
      let text := replace "…" "..." text in
      let text := replace "–" "-" text in
      let text := replace "—" "-" text in
      Ok (replace "“" QUOTE (replace "”" QUOTE text))
  end.

(** ** Data model *)

Record Field : Type := mkField {
  f_name : string;
  f_types : list string;
  f_required : bool;
  f_description : string
}.

Record Entity : Type := mkEntity {
  e_name : string;
  e_href : option string;
  e_description : option (list string);
  e_fields : option (list Field);
  e_subtypes : option (list string);
  e_subtype_of : option (list string);
  e_returns : option (list string)
}.

(** [{"name": curr_name}] *)
Definition new_entity (curr_name : string) : Entity :=
  mkEntity curr_name None None None None None None.

Definition set_href (v : string) (e : Entity) : Entity :=
  mkEntity (e_name e) (Some v) (e_description e) (e_fields e) (e_subtypes e)
           (e_subtype_of e) (e_returns e).
Definition set_description (v : list string) (e : Entity) : Entity :=
  mkEntity (e_name e) (e_href e) (Some v) (e_fields e) (e_subtypes e)
           (e_subtype_of e) (e_returns e).
Definition set_fields (v : list Field) (e : Entity) : Entity :=
  mkEntity (e_name e) (e_href e) (e_description e) (Some v) (e_subtypes e)
           (e_subtype_of e) (e_returns e).
Definition set_subtypes (v : list string) (e : Entity) : Entity :=
  mkEntity (e_name e) (e_href e) (e_description e) (e_fields e) (Some v)
           (e_subtype_of e) (e_returns e).
Definition set_subtype_of (v : list string) (e : Entity) : Entity :=
  mkEntity (e_name e) (e_href e) (e_description e) (e_fields e) (e_subtypes e)
           (Some v) (e_returns e).
Definition set_returns (v : list string) (e : Entity) : Entity :=
  mkEntity (e_name e) (e_href e) (e_description e) (e_fields e) (e_subtypes e)
           (e_subtype_of e) (Some v).

(** A [dict] with string keys, in insertion order. *)
Definition dict (V : Type) : Type := list (string * V).

Fixpoint dict_get {V : Type} (k : string) (d : dict V) : option V :=
  match d with
  | [] => None
  | (k', v) :: r => if k' =? k then Some v else dict_get k r
  end.

(** [d[k] = v]: a key already there keeps its place. *)
Fixpoint dict_set {V : Type} (k : string) (v : V) (d : dict V) : dict V :=
  match d with
  | [] => [(k, v)]
  | (k', v') :: r => if k' =? k then (k, v) :: r else (k', v') :: dict_set k v r
  end.

(** [k in d] *)
Definition dict_mem {V : Type} (k : string) (d : dict V) : bool :=
  match dict_get k d with Some _ => true | None => false end.

Inductive Category : Type := METHODS | TYPES.

Definition category_eqb (a b : Category) : bool :=
  match a, b with
  | METHODS, METHODS | TYPES, TYPES => true
  | _, _ => false
  end.

Definition category_str (c : Category) : string :=
  match c with METHODS => "methods" | TYPES => "types" end.

Record Items : Type := mkItems {
  methods : dict Entity;
  types : dict Entity
}.

(** [items[curr_type]] *)
Definition category (c : Category) (items : Items) : dict Entity :=
  match c with METHODS => methods items | TYPES => types items end.

Definition set_category (c : Category) (d : dict Entity) (items : Items) : Items :=
  match c with
  | METHODS => mkItems d (types items)
  | TYPES => mkItems (methods items) d
  end.

(** [items[curr_type][curr_name]] *)
Definition entity (curr_type : Category) (curr_name : string) (items : Items)
  : Result Entity :=
  match dict_get curr_name (category curr_type items) with
  | Some e => Ok e
  | None => Raise (KeyError curr_name)
  end.

(** [items[curr_type][curr_name] = e] *)
Definition set_entity (curr_type : Category) (curr_name : string) (e : Entity)
  (items : Items) : Items :=
  set_category curr_type (dict_set curr_name e (category curr_type items)) items.

(** Truth value of an optional string or list, as [if d.get(k)] reads it. *)
Definition truthy_str (o : option string) : bool :=
  match o with
  | Some s => negb (s =? EmptyString)
  | None => false
  end.

Definition truthy_list {A : Type} (o : option (list A)) : bool :=
  match o with
  | Some (_ :: _) => true
  | _ => false
  end.

(** [not l] for a list *)
Definition is_empty {A : Type} (l : list A) : bool :=
  match l with [] => true | _ :: _ => false end.

(** [d.get(k, [])] *)
Definition get_or_empty {A : Type} (o : option (list A)) : list A :=
  match o with Some l => l | None => [] end.

(** ** The nodes the walker meets

    The children of the content node, as the walker tells them apart by
    [x.name], each with what the walker asks of it: an [h4] and a [p] are
    handed on whole; of a [table], [x.find("tbody")] and in it the [td]
    cells of every [tr]; of a [ul], [x.find_all("li")].  The cells of a
    row are taken apart from one another, as in the documentation, where
    no cell holds a table. *)

Inductive Node : Type :=
| H3
| Hr
| H4 (x : Tag)
| P (x : Tag)
| TableNode (tbody : option (list (list Tag)))
| Ul (lis : list Tag)
| OtherNode.

(** ** Field Extractor *)

(** [str(n)] *)
Fixpoint str_of_uint (d : Decimal.uint) : string :=
  match d with
  | Decimal.Nil => EmptyString
  | Decimal.D0 d => String 48%N (str_of_uint d)
  | Decimal.D1 d => String 49%N (str_of_uint d)
  | Decimal.D2 d => String 50%N (str_of_uint d)
  | Decimal.D3 d => String 51%N (str_of_uint d)
  | Decimal.D4 d => String 52%N (str_of_uint d)
  | Decimal.D5 d => String 53%N (str_of_uint d)
  | Decimal.D6 d => String 54%N (str_of_uint d)
  | Decimal.D7 d => String 55%N (str_of_uint d)
  | Decimal.D8 d => String 56%N (str_of_uint d)
  | Decimal.D9 d => String 57%N (str_of_uint d)
  end.

Definition str_of_nat (n : nat) : string := str_of_uint (Nat.to_uint n).

(** One turn of the loop over the rows of [get_fields]. *)
Definition get_fields_row (curr_name : string) (curr_type : Category)
  (children : list Tag) : Result Field :=
  match curr_type, children with
  | TYPES, [c0; c1; c2] =>
      desc <- clean_tg_description c2 ;;
      Ok {| f_name := get_text c0;
            f_types := clean_tg_type (get_text c1);
            f_required := negb (startswith "Optional. " desc);
            f_description := desc |}
  | METHODS, [c0; c1; c2; c3] =>
      desc <- clean_tg_description c3 ;;
      Ok {| f_name := get_text c0;
            f_types := clean_tg_type (get_text c1);
            f_required := get_text c2 =? "Yes";
            f_description := desc |}
  | _, _ =>
      Exit 1 [ Line "An unexpected state has occurred!";
               Line ("Type: " ++ category_str curr_type);
               Line ("Name: " ++ curr_name);
               Line ("Number of children: " ++ str_of_nat (List.length children));
               TagList children ]
  end.

Definition get_fields (curr_name : string) (curr_type : Category)
  (x : option (list (list Tag))) (items : Items) : Result Items :=
  match x with
  | None => Raise AttributeError
  | Some body =>
      fields <- mapM (get_fields_row curr_name curr_type) body ;;
      e <- entity curr_type curr_name items ;;
      Ok (set_entity curr_type curr_name (set_fields fields e) items)
  end.

(** ** Subtype/Enumeration Extractor *)

Definition get_subtypes (curr_name : string) (curr_type : Category)
  (x : list Tag) (items : Items) : Result Items :=
  if curr_name =? "InputFile" then Ok items
  else
    list_contents <- mapM clean_tg_description x ;;
    items <-
      (if category_eqb curr_type TYPES
       then e <- entity curr_type curr_name items ;;
            Ok (set_entity curr_type curr_name (set_subtypes list_contents e) items)
       else Ok items) ;;
    e <- entity curr_type curr_name items ;;
    match e_description e with
    | None => Raise (KeyError "description")
    | Some d =>
        Ok (set_entity curr_type curr_name
              (set_description (d ++ map (fun s => "- " ++ s) list_contents) e) items)
    end.

(** ** Return-Type Inferrer *)

(** The group of characters other than a full stop, taken greedily: the
    longest run without one. *)
Fixpoint span_not_dot (s : string) : string :=
  match s with
  | EmptyString => EmptyString
  | String c s' => if N.eqb c FULL_STOP then EmptyString else String c (span_not_dot s')
  end.

(** Group 1 of the first search of [get_method_return_type], ignoring
    case: the words [on success,] or [returns], then the group of
    characters other than a full stop, then optionally [on success].  The
    group is greedy and ends at a full stop or at the end of the text,
    where the optional words cannot start, so they match empty. *)
Fixpoint ret_search (s : string) : option string :=
  if imatch "on success," s then Some (span_not_dot (drop 11 s))
  else if imatch "returns" s then Some (span_not_dot (drop 7 s))
  else match s with
       | EmptyString => None
       | String _ s' => ret_search s'
       end.

(** A match, at the head of [s], of the second search: the group of
    characters other than a full stop, then the words [is returned].  The
    group takes a character when the rest still matches, and stops where
    the words follow. *)
Fixpoint is_returned_at (s : string) : option string :=
  let here := if imatch "is returned" s then Some EmptyString else None in
  match s with
  | EmptyString => here
  | String c s' =>
      if N.eqb c FULL_STOP then here
      else match is_returned_at s' with
           | Some g => Some (String c g)
           | None => here
           end
  end.

(** Group 1 of the second search of [get_method_return_type], ignoring
    case. *)
Fixpoint ret_search2 (s : string) : option string :=
  match is_returned_at s with
  | Some g => Some g
  | None => match s with
            | EmptyString => None
            | String _ s' => ret_search2 s'
            end
  end.

(** The repeated words [array of ] from the head of [s]: what is left
    after the last repetition. *)
Fixpoint skip_array_of (fuel : nat) (s : string) : string :=
  match fuel with
  | O => s
  | S fuel' =>
      if imatch "array of " s then skip_array_of fuel' (drop 9 s) else s
  end.

(** The group of word characters, taken greedily. *)
Fixpoint span_word (s : string) : string :=
  match s with
  | EmptyString => EmptyString
  | String c s' => if isword c then String c (span_word s') else EmptyString
  end.

(** Group 1 of the search of [extract_return_type], ignoring case: the
    words [array of ] one or more times, then the group of word
    characters. *)
Fixpoint array_match (s : string) : option string :=
  if imatch "array of " s
  then Some (span_word (skip_array_of (len s) s))
  else match s with
       | EmptyString => None
       | String _ s' => array_match s'
       end.

(** [ret[0].isupper()] for a word of [split()] *)
Definition head_isupper (s : string) : bool :=
  match s with
  | EmptyString => false
  | String c _ => isupper c
  end.

Definition extract_return_type (curr_type : Category) (curr_name ret_str : string)
  (items : Items) : Result Items :=
  match array_match ret_str with
  | Some g =>
      let ret := clean_tg_type g in
      let rets := map (fun r => "Array of " ++ r) ret in
      e <- entity curr_type curr_name items ;;
      Ok (set_entity curr_type curr_name (set_returns rets e) items)
  | None =>
      let words := split_ws ret_str in
      let rets :=
        flat_map (fun ret =>
                    filter (fun _ => head_isupper ret)
                           (clean_tg_type (strip_punctuation ret))) words in
      e <- entity curr_type curr_name items ;;
      Ok (set_entity curr_type curr_name (set_returns rets e) items)
  end.

Definition get_method_return_type (curr_name : string) (curr_type : Category)
  (description_items : list string) (items : Items) : Result Items :=
  let description := join LF description_items in
  match ret_search description with
  | Some g => extract_return_type curr_type curr_name (strip g) items
  | None =>
      match ret_search2 description with
      | Some g => extract_return_type curr_type curr_name (strip g) items
      | None => Ok items
      end
  end.

(** ** Entity Segmenter *)

Definition get_type_and_name (x anchor : Tag) (items : Items)
  : Result (string * Category * Items) :=
  match get_text x with
  | EmptyString => Raise IndexError
  | String c _ =>
      let curr_type := if isupper c then TYPES else METHODS in
      let curr_name := get_text x in
      let e := new_entity curr_name in
      let e := match tag_get anchor "href" with
               | Some (String _ _ as href) => set_href (API_URL ++ href) e
               | _ => e
               end in
      Ok (curr_name, curr_type, set_entity curr_type curr_name e items)
  end.

(** The walker's variables: [curr_type] (empty is [None]), [curr_name]
    and the registry. *)
Record State : Type := mkState {
  curr_type : option Category;
  curr_name : string;
  items : Items
}.

Definition clear (st : State) : State := mkState None EmptyString (items st).

Definition is_boundary (x : Node) : bool :=
  match x with H3 | Hr => true | _ => false end.

(** The last step of the loop body: a method with a description has its
    return type read again from all of it. *)
Definition infer_returns (ct : Category) (cn : string) (items : Items)
  : Result Items :=
  match ct with
  | METHODS =>
      e <- entity ct cn items ;;
      if truthy_list (e_description e)
      then get_method_return_type cn ct (get_or_empty (e_description e)) items
      else Ok items
  | TYPES => Ok items
  end.

(** The steps of the loop body that come after the test
    [if not curr_type or not curr_name: continue]. *)
Definition route (ct : Category) (cn : string) (x : Node) (items : Items)
  : Result Items :=
  items <-
    match x with
    | P p =>
        e <- entity ct cn items ;;
        text <- clean_tg_description p ;;
        Ok (set_entity ct cn
              (set_description (get_or_empty (e_description e) ++ [text]) e) items)
    | _ => Ok items
    end ;;
  items <-
    match x with
    | TableNode tbody => get_fields cn ct tbody items
    | _ => Ok items
    end ;;
  items <-
    match x with
    | Ul lis => get_subtypes cn ct lis items
    | _ => Ok items
    end ;;
  infer_returns ct cn items.

(** One turn of the loop of [retrieve_api_info]. *)
Definition step (st : State) (x : Node) : Result State :=
  let st := if is_boundary x then clear st else st in
  match x with
  | H4 h =>
      match find "a" h with
      | None => Raise AttributeError
      | Some anchor =>
          let dashed := match tag_get anchor "name" with
                        | Some name => contains "-" name
                        | None => false
                        end in
          if dashed then Ok (clear st)
          else
            '(cn, ct, items') <- get_type_and_name h anchor (items st) ;;
            items' <- route ct cn x items' ;;
            Ok (mkState (Some ct) cn items')
      end
  | _ =>
      match curr_type st, curr_name st with
      | None, _ => Ok st
      | Some _, EmptyString => Ok st
      | Some ct, cn =>
          items' <- route ct cn x (items st) ;;
          Ok (mkState (Some ct) cn items')
      end
  end.

Fixpoint walk (st : State) (children : list Node) : Result State :=
  match children with
  | [] => Ok st
  | x :: r => st' <- step st x ;; walk st' r
  end.

Definition initial : State := mkState None EmptyString (mkItems [] []).

(** [retrieve_api_info], from the children of the content node on. *)
Definition retrieve_api_info (children : list Node) : Result Items :=
  st <- walk initial children ;;
  Ok (items st).

(** ** Schema Validator *)

(** [while t.startswith("Array of "): t = t[len("Array of "):]]; every
    turn shortens [t], so its length is fuel enough. *)
Fixpoint strip_arrays (fuel : nat) (t : string) : string :=
  match fuel with
  | O => t
  | S fuel' =>
      if startswith ARRAY_OF t
      then strip_arrays fuel' (drop (len ARRAY_OF) t)
      else t
  end.

Definition unwrap (t : string) : string := strip_arrays (len t) t.

(** [t not in items[TYPES] and t not in TG_CORE_TYPES] *)
Definition unknown (t : string) (items : Items) : bool :=
  negb (dict_mem t (types items)) && negb (mem t TG_CORE_TYPES).

(** The variables of a pass: [issue_found], what it printed so far, and
    the registry, which the types pass updates in place. *)
Record Verdict : Type := mkVerdict {
  issue_found : bool;
  printed : list Printed;
  checked : Items
}.

(** [print(...)] followed by [issue_found = True] *)
Definition report (p : Printed) (v : Verdict) : Verdict :=
  mkVerdict true (printed v ++ [p]) (checked v).

(** [print(...)] alone *)
Definition warn (p : Printed) (v : Verdict) : Verdict :=
  mkVerdict (issue_found v) (printed v ++ [p]) (checked v).

(** [items[TYPES][st].setdefault("subtype_of", []).append(t)] for a key
    [st] of the types. *)
Definition add_subtype_of (st t : string) (items : Items) : Items :=
  match dict_get st (types items) with
  | Some e =>
      set_entity TYPES st (set_subtype_of (get_or_empty (e_subtype_of e) ++ [t]) e) items
  | None => items
  end.

(** One turn of [for st in subtypes]. *)
Definition link_subtype (t : string) (v : Verdict) (st : string) : Verdict :=
  if dict_mem st (types (checked v))
  then mkVerdict (issue_found v) (printed v) (add_subtype_of st t (checked v))
  else report (Line ("TYPE " ++ t ++ " USES INVALID SUBTYPE " ++ st)) v.

(** One turn of [for param in fields] of the types pass.  The inner loop
    rebinds [t] to every type of the field in turn, stripped; the test
    comes after that loop and sees the value [t] was left with. *)
Definition check_field (tv : string * Verdict) (param : Field) : string * Verdict :=
  let '(t, v) := tv in
  let t := fold_left (fun _ ty => unwrap ty) (f_types param) t in
  if unknown t (checked v)
  then (t, report (Line ("UNKNOWN FIELD TYPE " ++ t)) v)
  else (t, v).

(** One turn of the loop of [verify_type_parameters].  The loop writes
    [subtype_of] only, which it never reads: [values] is the entry as the
    loop found it. *)
Definition verify_type (v : Verdict) (entry : string * Entity) : Verdict :=
  let '(t, values) := entry in
  if negb (truthy_str (e_href values))
  then report (Line (t ++ " has no link!")) v
  else
    let fields := get_or_empty (e_fields values) in
    if Nat.eqb (List.length fields) 0
    then
      let subtypes := get_or_empty (e_subtypes values) in
      if is_empty subtypes && negb (mem t APPROVED_NO_SUBTYPES)
      then report (Line ("TYPE " ++ t ++ " has no fields or subtypes, and is not approved")) v
      else
        let v := fold_left (link_subtype t) subtypes v in
        snd (fold_left check_field fields (t, v))
    else snd (fold_left check_field fields (t, v)).

Definition verify_type_parameters (items : Items) : Verdict :=
  fold_left verify_type (types items) (mkVerdict false [] items).

(** One turn of [for t in types] of the methods pass. *)
Definition check_param_type (v : Verdict) (t : string) : Verdict :=
  let t := unwrap t in
  if unknown t (checked v)
  then report (Line ("UNKNOWN PARAM TYPE " ++ t)) v
  else v.

(** One turn of [for ret in values.get("returns", [])]. *)
Definition check_return_type (v : Verdict) (ret : string) : Verdict :=
  let ret := unwrap ret in
  if unknown ret (checked v)
  then report (Line ("UNKNOWN RETURN TYPE " ++ ret)) v
  else v.

(** One turn of the loop of [verify_method_parameters]. *)
Definition verify_method (v : Verdict) (entry : string * Entity) : Verdict :=
  let '(method, values) := entry in
  if negb (truthy_str (e_href values))
  then report (Line (method ++ " has no link!")) v
  else if negb (truthy_list (e_returns values))
  then report (Line (method ++ " has no return types!")) v
  else
    let returns := get_or_empty (e_returns values) in
    let v := if Nat.ltb 1 (List.length returns)
             then warn (LineRepr (method ++ " has multiple return types: ") returns) v
             else v in
    let v := fold_left (fun v param => fold_left check_param_type (f_types param) v)
                       (get_or_empty (e_fields values)) v in
    fold_left check_return_type returns v.

Definition verify_method_parameters (items : Items) : Verdict :=
  fold_left verify_method (methods items) (mkVerdict false [] items).

(** ** The program *)

Inductive Status : Type :=
| Exited (code : nat)
| Uncaught (e : Exn).

(** What a run leaves behind: how it ended, what it printed, and the
    registry given to [json.dump] for [api.json], if it got that far. *)
Record Run : Type := mkRun {
  status : Status;
  stdout : list Printed;
  artifact : option Items
}.

Definition FAILED : Printed :=
  Line "Failed to validate schema. View logs above for more information.".

(** [verify_type_parameters(ITEMS) or verify_method_parameters(ITEMS)]:
    the second pass runs when the first returned [False]. *)
Definition validate (ITEMS : Items) : Verdict :=
  let v1 := verify_type_parameters ITEMS in
  if issue_found v1 then v1
  else
    let v2 := verify_method_parameters (checked v1) in
    mkVerdict (issue_found v2) (printed v1 ++ printed v2) (checked v2).

Definition main (children : list Node) : Run :=
  match retrieve_api_info children with
  | Raise e => mkRun (Uncaught e) [] None
  | Exit code out => mkRun (Exited code) out None
  | Ok ITEMS =>
      let v := validate ITEMS in
      if issue_found v
      then mkRun (Exited 1) (printed v ++ [FAILED]) None
      else mkRun (Exited 0) (printed v) (Some (checked v))
  end.

(** ** The Type-String Parser in the words of the specification

    Strip one optional leading marker, split on the three separators in
    turn, apply the alias table to each fragment, put the marker back. *)

Definition ALIASES : list (string * string) :=
  [("Messages", "Message"); ("Float number", "Float"); ("Int", "Integer");
   ("True", "Boolean"); ("Bool", "Boolean")].

Definition alias (x : string) : string :=
  match attr x ALIASES with Some y => y | None => x end.

Definition strip_marker (t : string) : string * string :=
  if startswith ARRAY_OF t
  then (ARRAY_OF, drop (len ARRAY_OF) t)
  else (EmptyString, t).

Definition split_all (sep : string) (fragments : list string) : list string :=
  flat_map (split sep) fragments.

Definition parser_as_specified (t : string) : list string :=
  let '(pref, rest) := strip_marker t in
  map (fun x => pref ++ alias x)
      (split_all ", " (split_all " and " (split_all " or " [rest]))).

(** The same with every fragment trimmed after each split. *)
Definition parser_with_trimming (t : string) : list string :=
  let '(pref, rest) := strip_marker t in
  map (fun x => pref ++ alias x)
      (map strip (split_all ", "
         (map strip (split_all " and "
            (map strip (split_all " or " [rest])))))).

(** ** Notions of the specification *)

(** The columns a row must have: name, type, description for a type;
    name, type, required, description for a method. *)
Definition expected_columns (ct : Category) : nat :=
  match ct with TYPES => 3 | METHODS => 4 end.

(** What [get_fields] prints before it exits. *)
Definition row_diagnostic (curr_name : string) (curr_type : Category)
  (children : list Tag) : list Printed :=
  [ Line "An unexpected state has occurred!";
    Line ("Type: " ++ category_str curr_type);
    Line ("Name: " ++ curr_name);
    Line ("Number of children: " ++ str_of_nat (List.length children));
    TagList children ].

(** How a field record relates to the row it was read from, as far as
    its description and its required flag go. *)
Definition field_of_row (ct : Category) (children : list Tag) (f : Field) : Prop :=
  match ct with
  | TYPES =>
      exists c0 c1 c2 desc,
        children = [c0; c1; c2]
        /\ clean_tg_description c2 = Ok desc
        /\ f_description f = desc
        /\ (f_required f = true <-> ~ exists rest, desc = "Optional. " ++ rest)
  | METHODS =>
      exists c0 c1 c2 c3,
        children = [c0; c1; c2; c3]
        /\ (f_required f = true <-> get_text c2 = "Yes")
  end.

(** [B.subtype_of] contains [A]. *)
Definition linked (B A : string) (registry : Items) : Prop :=
  exists eB, dict_get B (types registry) = Some eB
             /\ In A (get_or_empty (e_subtype_of eB)).

(** A later registry has the keys of an earlier one and keeps its
    back-references. *)
Definition grows (registry registry' : Items) : Prop :=
  (forall k, dict_mem k (types registry') = dict_mem k (types registry))
  /\ (forall B A, linked B A registry -> linked B A registry').

(** Whether a paragraph came since the last header or boundary. *)
Fixpoint paragraph_since_header (seen : bool) (nodes : list Node) : bool :=
  match nodes with
  | [] => seen
  | (H3 | Hr | H4 _) :: rest => paragraph_since_header false rest
  | P _ :: rest => paragraph_since_header true rest
  | _ :: rest => paragraph_since_header seen rest
  end.

(** The entity is in the registry; it has the key [description]. *)
Definition present (ct : Category) (cn : string) (registry : Items) : bool :=
  dict_mem cn (category ct registry).

Definition described (ct : Category) (cn : string) (registry : Items) : bool :=
  match dict_get cn (category ct registry) with
  | Some e => match e_description e with Some _ => true | None => false end
  | None => false
  end.

(** While an entity is open it is in the registry, and it has a
    description exactly when a paragraph came since its header. *)
Definition open_described (st : State) (seen : bool) : Prop :=
  forall ct, curr_type st = Some ct -> curr_name st <> EmptyString ->
    present ct (curr_name st) (items st) = true
    /\ described ct (curr_name st) (items st) = seen.

(** ** What a pass has to say about one entity

    The lines of one turn of a pass, from the entity alone and the names
    of the types of the registry. *)

Definition subtype_defects (registry : Items) (t : string) (subtypes : list string)
  : list Printed :=
  flat_map (fun st => if dict_mem st (types registry) then []
                      else [Line ("TYPE " ++ t ++ " USES INVALID SUBTYPE " ++ st)])
           subtypes.

Fixpoint field_defects (registry : Items) (t : string) (fields : list Field)
  : list Printed :=
  match fields with
  | [] => []
  | param :: rest =>
      let t := fold_left (fun _ ty => unwrap ty) (f_types param) t in
      (if unknown t registry then [Line ("UNKNOWN FIELD TYPE " ++ t)] else [])
      ++ field_defects registry t rest
  end.

Definition type_defects (registry : Items) (entry : string * Entity) : list Printed :=
  let '(t, values) := entry in
  if negb (truthy_str (e_href values)) then [Line (t ++ " has no link!")]
  else
    match get_or_empty (e_fields values) with
    | [] =>
        let subtypes := get_or_empty (e_subtypes values) in
        if is_empty subtypes && negb (mem t APPROVED_NO_SUBTYPES)
        then [Line ("TYPE " ++ t ++ " has no fields or subtypes, and is not approved")]
        else subtype_defects registry t subtypes
    | fields => field_defects registry t fields
    end.

Definition param_defects (registry : Items) (ts : list string) : list Printed :=
  flat_map (fun t => if unknown (unwrap t) registry
                     then [Line ("UNKNOWN PARAM TYPE " ++ unwrap t)] else []) ts.

Definition return_defects (registry : Items) (rets : list string) : list Printed :=
  flat_map (fun t => if unknown (unwrap t) registry
                     then [Line ("UNKNOWN RETURN TYPE " ++ unwrap t)] else []) rets.

(** The defects of a method, and the warning that may come before them. *)
Definition method_defects (registry : Items) (entry : string * Entity) : list Printed :=
  let '(method, values) := entry in
  if negb (truthy_str (e_href values)) then [Line (method ++ " has no link!")]
  else if negb (truthy_list (e_returns values))
  then [Line (method ++ " has no return types!")]
  else
    flat_map (fun param => param_defects registry (f_types param))
             (get_or_empty (e_fields values))
    ++ return_defects registry (get_or_empty (e_returns values)).

Definition method_warning (entry : string * Entity) : list Printed :=
  let '(method, values) := entry in
  if truthy_str (e_href values) && truthy_list (e_returns values)
     && Nat.ltb 1 (List.length (get_or_empty (e_returns values)))
  then [LineRepr (method ++ " has multiple return types: ")
                 (get_or_empty (e_returns values))]
  else [].

(** From [v] to [v'] a pass printed [out], of which [defects] lines came
    with [issue_found = True]. *)
Definition adds (v v' : Verdict) (out defects : list Printed) : Prop :=
  printed v' = (printed v ++ out)%list
  /\ issue_found v' = issue_found v || negb (is_empty defects).

(** ** Sample markup *)

(** The no-break space, U+00A0 *)
Definition NBSP : string := String 0xA0%N EmptyString.

(** [<h4><a class="anchor" name=... href=...></a>text</h4>] *)
Definition h4 (text : string) (attrs : list (string * string)) : Node :=
  H4 (Element "h4" [] [Element "a" (("class", "anchor") :: attrs) [];
                       NavigableString text]).

Definition p (text : string) : Node := P (Element "p" [] [NavigableString text]).
Definition td (text : string) : Tag := Element "td" [] [NavigableString text].
Definition li (text : string) : Tag := Element "li" [] [NavigableString text].

Definition registry_of (children : list Node) : Items :=
  match retrieve_api_info children with
  | Ok registry => registry
  | _ => mkItems [] []
  end.

(** A type without a link whose field has an unknown type, and a method
    whose description names no return type. *)
Definition c1_children : list Node :=
  [ h4 "A" [("name", "a")];
    TableNode (Some [[td "x"; td "Bogus"; td "Some x"]]);
    h4 "getA" [("name", "geta"); ("href", "#geta")];
    p "Use this method to get A." ].

Definition c1_registry : Items := Eval vm_compute in registry_of c1_children.

(** A type whose field is a union with an unknown member that is not the
    last one; and the same table under a method. *)
Definition c2_children : list Node :=
  [ h4 "Chat" [("name", "chat"); ("href", "#chat")];
    p "This object represents a chat.";
    TableNode (Some [[td "id"; td "Bogus or Integer"; td "Unique identifier"]]) ].

Definition c2_registry : Items := Eval vm_compute in registry_of c2_children.

Definition c2_children_method : list Node :=
  [ h4 "Chat" [("name", "chat"); ("href", "#chat")];
    p "This object represents a chat.";
    TableNode (Some [[td "id"; td "Integer"; td "Unique identifier"]]);
    h4 "getChat" [("name", "getchat"); ("href", "#getchat")];
    p "Returns a Chat object on success.";
    TableNode (Some [[td "chat_id"; td "Bogus or Integer"; td "Yes"; td "Unique identifier"]]) ].

(** A type with a two-cell row in its table. *)
Definition c3_pre : list Node := [h4 "Chat" [("name", "chat"); ("href", "#chat")]; p "A chat."].
Definition c3_row : list Tag := [td "id"; td "Integer"].
Definition c3_before : list (list Tag) := [[td "type"; td "String"; td "Type of chat"]].

(** A one-cell row, and a row of three cells whose description holds an
    image without [alt]. *)
Definition c3_short : list Tag := [td "title"].
Definition c3_failing : list Tag :=
  [td "photo"; td "String"; Element "td" [] [Element "img" [("src", "/photo.png")] []]].

Definition c3_state : State :=
  mkState (Some TYPES) "Chat"
    (mkItems []
       [("Chat", set_description ["A chat."]
                   (set_href (API_URL ++ "#chat") (new_entity "Chat")))]).

(** A type [A] with a table and a list that names the type [B]. *)
Definition c6_children : list Node :=
  [ h4 "A" [("name", "a"); ("href", "#a")];
    p "This object is one of a kind.";
    TableNode (Some [[td "kind"; td "String"; td "Kind of A"]]);
    Ul [li "B"];
    h4 "B" [("name", "b"); ("href", "#b")];
    p "A kind of A.";
    TableNode (Some [[td "size"; td "Integer"; td "Size"]]) ].

Definition c6_registry : Items := Eval vm_compute in registry_of c6_children.

(** The same without the table of [A]. *)
Definition c6_children' : list Node :=
  [ h4 "A" [("name", "a"); ("href", "#a")];
    p "This object is one of a kind.";
    Ul [li "B"];
    h4 "B" [("name", "b"); ("href", "#b")];
    p "A kind of A.";
    TableNode (Some [[td "size"; td "Integer"; td "Size"]]) ].

Definition c6_registry' : Items := Eval vm_compute in registry_of c6_children'.

Definition c6_A : Entity :=
  mkEntity "A" (Some "https://core.telegram.org/bots/api#a")
    (Some ["This object is one of a kind."; "- B"]) None (Some ["B"]) None None.

(** The entity [InputFile] with a paragraph and a list; and the same
    under another name. *)
Definition c7_children (name : string) : list Node :=
  [ h4 name [("name", "inputfile"); ("href", "#inputfile")];
    p "There are three ways to send files.";
    Ul [li "By file_id"; li "By URL"; li "By upload"] ].

(** A table of a type and the registry it is read into. *)
Definition c8_items : Items := mkItems [] [("Chat", new_entity "Chat")].
Definition c8_body : list (list Tag) :=
  [ [td "id"; td "Integer"; td "Unique identifier"];
    [td "title"; td "String"; td "Optional. Title"];
    [td "bio"; td "String"; td ("Optional." ++ NBSP ++ "Bio")] ].

(** An entity opened and given a list at once. *)
Definition c10_children (name : string) : list Node :=
  [ h4 name [("name", "inputfile"); ("href", "#inputfile")];
    Ul [li "By file_id"; li "By URL"] ].

(** A list item whose marked anchor has no link. *)
Definition c10_children_anchor : list Node :=
  [ h4 "InputMedia" [("name", "inputmedia"); ("href", "#inputmedia")];
    Ul [Element "li" [] [Element "a" [("name", "more")]
                           [NavigableString "More info »"]]] ].

Definition c10_state : State :=
  mkState (Some TYPES) "InputMedia"
    (mkItems []
       [("InputMedia", set_href (API_URL ++ "#inputfile") (new_entity "InputMedia"))]).

(** ** Notions for the further properties *)

(** [n] array markers before [t]. *)
Fixpoint array_of (n : nat) (t : string) : string :=
  match n with
  | O => t
  | S n' => ARRAY_OF ++ array_of n' t
  end.

(** Two entities that differ at most in [subtype_of], the later one
    having the earlier one's parents and possibly more after them. *)
Definition same_but_subtype_of (e e' : Entity) : Prop :=
  e_name e' = e_name e
  /\ e_href e' = e_href e
  /\ e_description e' = e_description e
  /\ e_fields e' = e_fields e
  /\ e_subtypes e' = e_subtypes e
  /\ e_returns e' = e_returns e
  /\ exists added,
       get_or_empty (e_subtype_of e')
       = (get_or_empty (e_subtype_of e) ++ added)%list.

(** A later registry that has the methods of the earlier one, its types
    in the same order, and every type as it was but for [subtype_of]. *)
Definition frame (registry registry' : Items) : Prop :=
  methods registry' = methods registry
  /\ map fst (types registry') = map fst (types registry)
  /\ forall k e, dict_get k (types registry) = Some e ->
       exists e', dict_get k (types registry') = Some e'
                  /\ same_but_subtype_of e e'.

(** The validator takes [A] for a parent of [B]: a type with a link and
    without fields whose subtypes name [B]. *)
Definition declares (entries : dict Entity) (A B : string) : Prop :=
  exists eA, In (A, eA) entries
             /\ truthy_str (e_href eA) = true
             /\ get_or_empty (e_fields eA) = []
             /\ In B (get_or_empty (e_subtypes eA)).

(** A type name resolves: stripped of its markers it is a core type or a
    key of the types. *)
Definition resolves (t : string) (registry : Items) : Prop :=
  In (unwrap t) TG_CORE_TYPES \/ dict_mem (unwrap t) (types registry) = true.

(** What extraction keeps true of an entity under its key: its name is
    the key, which is not empty and is capitalized exactly for a type;
    its link, if any, is the page's address and a fragment; it has no
    parents yet; subtypes are for types and returns for methods; every
    field has a type. *)
Definition well_formed_entity (ct : Category) (k : string) (e : Entity) : Prop :=
  e_name e = k
  /\ k <> EmptyString
  /\ head_isupper k = category_eqb ct TYPES
  /\ (forall h, e_href e = Some h ->
      exists fragment, h = API_URL ++ fragment /\ fragment <> EmptyString)
  /\ e_subtype_of e = None
  /\ (ct = METHODS -> e_subtypes e = None)
  /\ (ct = TYPES -> e_returns e = None)
  /\ (forall f, In f (get_or_empty (e_fields e)) -> f_types f <> []).

Definition well_formed_category (ct : Category) (d : dict Entity) : Prop :=
  NoDup (map fst d)
  /\ Forall (fun entry => well_formed_entity ct (fst entry) (snd entry)) d.

Definition well_formed (registry : Items) : Prop :=
  forall ct, well_formed_category ct (category ct registry).

(** [x.name == "h4"] *)
Definition is_header (x : Node) : bool :=
  match x with H4 _ => true | _ => false end.

(** No node of the sequence is an [h4]. *)
Definition no_header (nodes : list Node) : bool :=
  forallb (fun x => negb (is_header x)) nodes.

(** The exit of a run at its table [body]: status 1 and the diagnostic
    of one of its rows, which has not the cells of its category. *)
Definition row_exit (x : Node) (code : nat) (out : list Printed) : Prop :=
  code = 1
  /\ exists cn ct body row,
       x = TableNode (Some body) /\ In row body
       /\ List.length row <> expected_columns ct
       /\ out = row_diagnostic cn ct row.

(** Every character is a word character of a regular expression. *)
Fixpoint all_word (s : string) : bool :=
  match s with
  | EmptyString => true
  | String c s' => isword c && all_word s'
  end.

(** Every [img] of the tree has an [alt]. *)
Fixpoint images_have_alt (t : Tag) : bool :=
  match t with
  | NavigableString _ => true
  | Element name attrs children =>
      (if name =? "img"
       then match attr "alt" attrs with Some _ => true | None => false end
       else true)
      && forallb images_have_alt children
  end.

(** Every [a] of the tree has an [href]. *)
Fixpoint anchors_have_href (t : Tag) : bool :=
  match t with
  | NavigableString _ => true
  | Element name attrs children =>
      (if name =? "a"
       then match attr "href" attrs with Some _ => true | None => false end
       else true)
      && forallb anchors_have_href children
  end.

(** Every blank character of the text is a plain space and no two stand
    together; [after_space] says that a space came just before. *)
Fixpoint tidy (after_space : bool) (s : string) : bool :=
  match s with
  | EmptyString => true
  | String c s' =>
      if isspace c
      then N.eqb c SPACE && negb after_space && tidy true s'
      else tidy false s'
  end.

(** No character of the text is blank. *)
Fixpoint no_space (s : string) : bool :=
  match s with
  | EmptyString => true
  | String c s' => negb (isspace c) && no_space s'
  end.

(** The first [k] characters of the text, as far as it goes, are not
    blank. *)
Fixpoint no_space_prefix (k : nat) (s : string) : bool :=
  match k, s with
  | O, _ => true
  | S _, EmptyString => true
  | S k', String c s' => negb (isspace c) && no_space_prefix k' s'
  end.

(** No element of the tree is an image, a line break or an anchor. *)
Fixpoint plain (t : Tag) : bool :=
  match t with
  | NavigableString _ => true
  | Element name attrs children =>
      negb (name =? "img") && negb (name =? "br") && negb (name =? "a")
      && forallb plain children
  end.

(** What the normalizer does to the text once the markup is gone. *)
Definition normalize_text (text : string) : string :=
  replace "“" QUOTE
    (replace "”" QUOTE
       (replace "—" "-" (replace "–" "-" (replace "…" "..." (collapse_ws false text))))).

(** ** Further sample markup *)

(** The entry of a key, for the samples. *)
Definition sample_entity (k : string) (d : dict Entity) : Entity :=
  match dict_get k d with
  | Some e => e
  | None => new_entity k
  end.

(** A type and a method that refers to it. *)
Definition ok_children : list Node :=
  [ h4 "Chat" [("name", "chat"); ("href", "#chat")];
    p "This object represents a chat.";
    TableNode (Some [[td "id"; td "Integer"; td "Unique identifier"]]);
    h4 "getChat" [("name", "getchat"); ("href", "#getchat")];
    p "Returns a Chat object on success.";
    TableNode (Some [[td "chat_id"; td "Integer or String"; td "Yes";
                      td "Unique identifier"]]) ].

Definition ok_registry : Items := Eval vm_compute in registry_of ok_children.

(** A type and a method whose names start with letters that are not
    ASCII. *)
Definition capital_children : list Node :=
  [ h4 "Éclair" [("name", "eclair"); ("href", "#eclair")];
    p "This object represents a pastry.";
    TableNode (Some [[td "id"; td "Integer"; td "Unique identifier"]]);
    h4 "élan" [("name", "elan"); ("href", "#elan")];
    p "Returns True on success." ].

Definition capital_registry : Items := Eval vm_compute in registry_of capital_children.

(** A method with its description, before its return type is read. *)
Definition send_registry : Items :=
  mkItems [("sendMediaGroup",
            set_description ["On success, an array of Messages that were sent is returned."]
              (new_entity "sendMediaGroup"))] [].

(** A paragraph with an image, a line break and a marked anchor. *)
Definition rich_paragraph : Tag :=
  Element "p" []
    [ NavigableString "Pick  a ";
      Element "img" [("alt", "dice"); ("src", "/dice.png")] [];
      Element "br" [] [];
      Element "a" [("href", "#dice")] [NavigableString "More info »"] ].

(** The same with an image that has no [alt] and an anchor that has no
    [href]. *)
Definition poor_paragraph : Tag :=
  Element "p" []
    [ Element "a" [] [NavigableString "More info »"];
      Element "b" [] [Element "img" [("src", "/dice.png")] []] ].

(** A paragraph with a no-break space, a run of two of them, and a line
    break next to an em space (U+2003). *)
Definition blank_paragraph : Tag :=
  Element "p" []
    [ NavigableString ("a" ++ NBSP ++ "b" ++ NBSP ++ NBSP ++ "c");
      Element "br" [] [];
      NavigableString (String 0x2003%N "d") ].

(** * Properties *)

(** ** Strings *)

Lemma str_eqb_refl (s : string) : (s =? s) = true.
Proof.
  induction s as [|c s IH]; simpl; [reflexivity|].
  now rewrite N.eqb_refl, IH.
Qed.

Lemma str_eqb_eq (s1 s2 : string) : (s1 =? s2) = true <-> s1 = s2.
Proof.
  split; [|intros ->; apply str_eqb_refl].
  revert s2; induction s1 as [|c1 s1 IH]; intros [|c2 s2]; simpl;
    try discriminate; [reflexivity|].
  rewrite andb_true_iff, N.eqb_eq. intros [-> H]. now rewrite (IH _ H).
Qed.

Lemma str_eqb_neq (s1 s2 : string) : (s1 =? s2) = false <-> s1 <> s2.
Proof.
  rewrite <- str_eqb_eq. destruct (s1 =? s2); split; congruence.
Qed.

Lemma str_eqb_sym (s1 s2 : string) : (s1 =? s2) = (s2 =? s1).
Proof.
  destruct (s1 =? s2) eqn:E.
  - apply str_eqb_eq in E; subst. now rewrite str_eqb_refl.
  - symmetry. apply str_eqb_neq. apply str_eqb_neq in E. congruence.
Qed.

Lemma str_eqb_spec (s1 s2 : string) : reflect (s1 = s2) (s1 =? s2).
Proof.
  destruct (s1 =? s2) eqn:E; constructor.
  - now apply str_eqb_eq.
  - now apply str_eqb_neq.
Qed.

Lemma startswith_spec (p s : string) :
  startswith p s = true <-> exists r, s = p ++ r.
Proof.
  revert s; induction p as [|a p IH]; intros s; simpl.
  - split; [intros _; now exists s | reflexivity].
  - destruct s as [|b s].
    + split; [discriminate | intros [r Hr]; discriminate].
    + rewrite andb_true_iff, N.eqb_eq, IH. split.
      * intros [-> [r ->]]. now exists r.
      * intros [r Hr]. injection Hr as -> ->. split; [reflexivity | now exists r].
Qed.

(** The character classes beyond ASCII: the blanks that [strip()],
    [split()] and the pattern for blanks know, a capital and a word that
    are not ASCII, and the letters that match an [s] and an [i] when case
    is ignored. *)

Example strip_beyond_ascii :
  strip (NBSP ++ "Integer" ++ String 0x3000%N (String 0x85%N EmptyString)) = "Integer".
Proof. reflexivity. Qed.

Example split_ws_beyond_ascii :
  split_ws ("a" ++ NBSP ++ "Chat" ++ String 0x2028%N "object") = ["a"; "Chat"; "object"].
Proof. reflexivity. Qed.

Example collapse_ws_beyond_ascii :
  collapse_ws false ("a" ++ NBSP ++ "b" ++ NBSP ++ NBSP ++ "c") = "a b c".
Proof. reflexivity. Qed.

Example head_isupper_beyond_ascii :
  head_isupper "Éclair" = true /\ head_isupper "élan" = false
  /\ head_isupper "Ωmega" = true /\ head_isupper "ǅ" = false.
Proof. repeat split. Qed.

Example array_match_beyond_ascii :
  array_match "an array of Überber objects" = Some "Überber".
Proof. reflexivity. Qed.

Example ret_search_beyond_ascii :
  ret_search "Returnſ a Chat. Done" = Some " a Chat"
  /\ ret_search "on ſucceſſ, a Chat" = Some " a Chat"
  /\ ret_search "Return5 a Chat" = None.
Proof. repeat split. Qed.

Example ret_search2_beyond_ascii :
  ret_search2 "The Chat İS RETURNED." = Some "The Chat "
  /\ ret_search2 "The Chat ıs returned." = Some "The Chat "
  /\ ret_search2 "The Chat îs returned." = None.
Proof. repeat split. Qed.

(** The loops that strip the array markers end: the length of the text
    is fuel enough, nothing is left to strip. *)

Lemma length_drop (n : nat) (s : string) :
  len (drop n s) = len s - n.
Proof.
  revert s; induction n as [|n IH]; intros s; simpl.
  - now rewrite Nat.sub_0_r.
  - destruct s as [|c s]; simpl; [reflexivity | apply IH].
Qed.

Lemma startswith_length (p s : string) :
  startswith p s = true -> len p <= len s.
Proof.
  revert s; induction p as [|a p IH]; intros s; simpl; [lia|].
  destruct s as [|b s]; [discriminate|].
  rewrite andb_true_iff. intros [_ H]. apply IH in H. simpl. lia.
Qed.

Lemma imatch_length (p s : string) :
  imatch p s = true -> len p <= len s.
Proof.
  revert s; induction p as [|a p IH]; intros s; simpl; [lia|].
  destruct s as [|b s]; [discriminate|].
  rewrite andb_true_iff. intros [_ H]. apply IH in H. simpl. lia.
Qed.

Lemma strip_arrays_done (fuel : nat) (t : string) :
  len t <= fuel -> startswith ARRAY_OF (strip_arrays fuel t) = false.
Proof.
  revert t; induction fuel as [|fuel IH]; intros t Hlen.
  - destruct t; [reflexivity | simpl in Hlen; lia].
  - cbn [strip_arrays]. destruct (startswith ARRAY_OF t) eqn:E; [|exact E].
    apply IH. rewrite length_drop. apply startswith_length in E.
    simpl in E |- *. lia.
Qed.

Lemma unwrap_done (t : string) : startswith ARRAY_OF (unwrap t) = false.
Proof. apply strip_arrays_done. apply Nat.le_refl. Qed.

Lemma skip_array_of_done (fuel : nat) (s : string) :
  len s <= fuel -> imatch "array of " (skip_array_of fuel s) = false.
Proof.
  revert s; induction fuel as [|fuel IH]; intros s Hlen.
  - destruct s; [reflexivity | simpl in Hlen; lia].
  - cbn [skip_array_of]. destruct (imatch "array of " s) eqn:E; [|exact E].
    apply IH. rewrite length_drop. apply imatch_length in E.
    simpl in E |- *. lia.
Qed.

(** ** Dictionaries *)

Lemma dict_get_set_eq {V : Type} (k : string) (v : V) (d : dict V) :
  dict_get k (dict_set k v d) = Some v.
Proof.
  induction d as [|[k' v'] d IH]; simpl.
  - now rewrite str_eqb_refl.
  - destruct (k' =? k) eqn:E; simpl.
    + now rewrite str_eqb_refl.
    + now rewrite E.
Qed.

Lemma dict_get_set_neq {V : Type} (k k' : string) (v : V) (d : dict V) :
  k <> k' -> dict_get k' (dict_set k v d) = dict_get k' d.
Proof.
  intros Hne. induction d as [|[k0 v0] d IH]; simpl.
  - apply str_eqb_neq in Hne. now rewrite Hne.
  - destruct (k0 =? k) eqn:E; simpl.
    + apply str_eqb_eq in E; subst k0.
      apply str_eqb_neq in Hne. now rewrite Hne.
    + now rewrite IH.
Qed.

Lemma dict_mem_set {V : Type} (k k' : string) (v : V) (d : dict V) :
  dict_mem k' (dict_set k v d) = (k =? k') || dict_mem k' d.
Proof.
  unfold dict_mem. destruct (k =? k') eqn:E.
  - apply str_eqb_eq in E; subst. now rewrite dict_get_set_eq.
  - apply str_eqb_neq in E. now rewrite dict_get_set_neq.
Qed.

Lemma dict_get_In {V : Type} (k : string) (v : V) (d : dict V) :
  dict_get k d = Some v -> In (k, v) d.
Proof.
  induction d as [|[k' v'] d IH]; simpl; [discriminate|].
  destruct (k' =? k) eqn:E.
  - apply str_eqb_eq in E; subst. intros [= ->]. now left.
  - intros H. right. now apply IH.
Qed.

(** ** Type-String Parser *)

Lemma alias_get_proper_type (x : string) : alias x = get_proper_type x.
Proof.
  unfold alias, get_proper_type, ALIASES; cbn [attr].
  rewrite !(str_eqb_sym x).
  destruct ("Messages" =? x); [reflexivity|].
  destruct ("Float number" =? x); [reflexivity|].
  destruct ("Int" =? x); [reflexivity|].
  destruct ("True" =? x); [reflexivity|].
  destruct ("Bool" =? x); reflexivity.
Qed.

Lemma flat_map_map_inner {A B C : Type} (f : A -> list B) (g : B -> C) (l : list A) :
  flat_map (fun a => map g (f a)) l = map g (flat_map f l).
Proof.
  induction l as [|a l IH]; simpl; [reflexivity|].
  now rewrite IH, map_app.
Qed.

Lemma clean_tg_type_trimming (t : string) :
  clean_tg_type t = parser_with_trimming t.
Proof.
  unfold clean_tg_type, parser_with_trimming, strip_marker, split_all.
  destruct (startswith ARRAY_OF t); simpl flat_map at 3;
    rewrite app_nil_r, !flat_map_map_inner;
    apply map_ext; intros x; now rewrite alias_get_proper_type.
Qed.

(** C5, as amended.  The four inputs of the claim are parsed as it says,
    and for every input the parser strips one optional leading marker,
    splits on [" or "], [" and "] and [", "] in that order, trims every
    fragment after each split, applies the alias table and puts the
    marker back on every result, in order and with duplicates.  What is
    trimmed are the blanks of [strip()], the no-break space among them. *)
Theorem C5_type_string_parser :
  clean_tg_type "Array of A or B" = ["Array of A"; "Array of B"]
  /\ clean_tg_type "Int" = ["Integer"]
  /\ clean_tg_type "True" = ["Boolean"]
  /\ clean_tg_type "Float number" = ["Float"]
  /\ clean_tg_type "A or A" = ["A"; "A"]
  /\ clean_tg_type ("Int" ++ NBSP ++ " or " ++ NBSP ++ "String") = ["Integer"; "String"]
  /\ forall t, clean_tg_type t = parser_with_trimming t.
Proof.
  repeat split; try reflexivity. apply clean_tg_type_trimming.
Qed.

(** C5, as stated, fails where a fragment has blanks around it: the
    program trims them before it looks the fragment up. *)
Lemma C5_counterexample :
  clean_tg_type "Int  or String" = ["Integer"; "String"]
  /\ parser_as_specified "Int  or String" = ["Int "; "String"]
  /\ clean_tg_type "Int  or String" <> parser_as_specified "Int  or String".
Proof.
  repeat split; try reflexivity. discriminate.
Qed.

(** ** Return-Type Inferrer *)

Lemma entity_set_entity (ct : Category) (cn : string) (e : Entity) (items : Items) :
  entity ct cn (set_entity ct cn e items) = Ok e.
Proof.
  unfold entity, set_entity.
  destruct ct; simpl; now rewrite dict_get_set_eq.
Qed.

Lemma category_set_entity (ct : Category) (cn : string) (e : Entity) (items : Items) :
  category ct (set_entity ct cn e items) = dict_set cn e (category ct items).
Proof. destruct ct; reflexivity. Qed.

(** C4.  For a method entity whose description is the one line
    "On success, the sent Message is returned.", the inferrer sets its
    returns to ["Message"]; when it is the one line
    "Returns an Array of ChatMember objects.", to ["Array of ChatMember"].
    Nothing else of the entity or of the registry changes. *)
Theorem C4_return_type_inferrer (curr_name : string) (items : Items) (e : Entity)
  (He : dict_get curr_name (methods items) = Some e) :
  get_method_return_type curr_name METHODS
    ["On success, the sent Message is returned."] items
  = Ok (set_entity METHODS curr_name (set_returns ["Message"] e) items)
  /\ get_method_return_type curr_name METHODS
       ["Returns an Array of ChatMember objects."] items
     = Ok (set_entity METHODS curr_name (set_returns ["Array of ChatMember"] e) items).
Proof.
  assert (Hent : entity METHODS curr_name items = Ok e)
    by (unfold entity; simpl; now rewrite He).
  split.
  - unfold get_method_return_type.
    match goal with |- context [ret_search ?d] =>
      assert (H1 : ret_search d = Some " the sent Message is returned")
        by (vm_compute; reflexivity); rewrite H1 end.
    unfold extract_return_type.
    match goal with |- context [array_match ?d] =>
      assert (H2 : array_match d = None) by (vm_compute; reflexivity);
      rewrite H2 end.
    rewrite Hent; unfold bind.
    match goal with |- context [flat_map ?f ?l] =>
      assert (H3 : flat_map f l = ["Message"]) by (vm_compute; reflexivity);
      rewrite H3 end.
    reflexivity.
  - unfold get_method_return_type.
    match goal with |- context [ret_search ?d] =>
      assert (H1 : ret_search d = Some " an Array of ChatMember objects")
        by (vm_compute; reflexivity); rewrite H1 end.
    unfold extract_return_type.
    match goal with |- context [array_match ?d] =>
      assert (H2 : array_match d = Some "ChatMember") by (vm_compute; reflexivity);
      rewrite H2 end.
    rewrite Hent; unfold bind.
    match goal with |- context [map ?f (clean_tg_type ?g)] =>
      assert (H3 : map f (clean_tg_type g) = ["Array of ChatMember"])
        by (vm_compute; reflexivity);
      rewrite H3 end.
    reflexivity.
Qed.

(** ** The result monad and the walk *)

Lemma mapM_Forall2 {A B : Type} (f : A -> Result B) (l : list A) (l' : list B) :
  mapM f l = Ok l' -> Forall2 (fun a b => f a = Ok b) l l'.
Proof.
  revert l'; induction l as [|a l IH]; intros l'; simpl.
  - intros [= <-]. constructor.
  - destruct (f a) as [b| |] eqn:Ea; simpl; try discriminate.
    destruct (mapM f l) as [bs| |]; simpl; try discriminate.
    intros [= <-]. constructor; [assumption | now apply IH].
Qed.

Lemma mapM_stops {A B : Type} (f : A -> Result B) (before after : list A)
  (a : A) (bs : list B) (code : nat) (out : list Printed) :
  mapM f before = Ok bs -> f a = Exit code out ->
  mapM f (before ++ a :: after) = Exit code out.
Proof.
  revert bs; induction before as [|x before IH]; intros bs; simpl.
  - intros _ ->. reflexivity.
  - destruct (f x) as [b| |]; simpl; try discriminate.
    destruct (mapM f before) as [bs'| |] eqn:E; simpl; try discriminate.
    intros _ Ha. now rewrite (IH bs' eq_refl Ha).
Qed.

Lemma walk_app (st : State) (a b : list Node) :
  walk st (a ++ b) = (st' <- walk st a ;; walk st' b).
Proof.
  revert st; induction a as [|x a IH]; intros st; simpl; [reflexivity|].
  destruct (step st x); simpl; [apply IH | reflexivity | reflexivity].
Qed.

(** ** Field Extractor *)

Lemma get_fields_row_unexpected (cn : string) (ct : Category) (children : list Tag) :
  List.length children <> expected_columns ct ->
  get_fields_row cn ct children = Exit 1 (row_diagnostic cn ct children).
Proof.
  intros H. unfold get_fields_row, row_diagnostic.
  destruct ct; simpl in H;
    repeat (destruct children as [|? children]; simpl in H;
            try reflexivity; try lia).
Qed.

Lemma get_fields_row_field (cn : string) (ct : Category) (children : list Tag)
  (f : Field) :
  get_fields_row cn ct children = Ok f -> field_of_row ct children f.
Proof.
  unfold get_fields_row.
  destruct ct.
  - destruct children as [|c0 [|c1 [|c2 [|c3 [|c4 r]]]]]; try discriminate.
    destruct (clean_tg_description c3) as [desc| |]; unfold bind;
      try discriminate.
    intros [= <-]. exists c0, c1, c2, c3. split; [reflexivity|].
    apply str_eqb_eq.
  - destruct children as [|c0 [|c1 [|c2 [|c3 r]]]]; try discriminate.
    destruct (clean_tg_description c2) as [desc| |] eqn:Hdesc; unfold bind;
      try discriminate.
    intros [= <-]. exists c0, c1, c2, desc.
    split; [reflexivity|]. split; [exact Hdesc|]. split; [reflexivity|].
    change (negb (startswith "Optional. " desc) = true
            <-> ~ exists rest, desc = "Optional. " ++ rest).
    rewrite negb_true_iff, <- not_true_iff_false, startswith_spec. reflexivity.
Qed.

(** C8.  Every field record that [get_fields] stores comes from one row,
    in row order.  In a type entity the row has three cells and the
    record is required exactly when the normalized text of the third does
    not start with "Optional. "; in a method entity the row has four
    cells and the record is required exactly when the text of the third
    is "Yes". *)
Theorem C8_required_flag (curr_name : string) (curr_type : Category)
  (body : list (list Tag)) (items items' : Items)
  (Hrun : get_fields curr_name curr_type (Some body) items = Ok items') :
  exists e fs,
    entity curr_type curr_name items' = Ok e
    /\ e_fields e = Some fs
    /\ Forall2 (field_of_row curr_type) body fs.
Proof.
  unfold get_fields in Hrun.
  destruct (mapM (get_fields_row curr_name curr_type) body) as [fs| |] eqn:Hrows;
    simpl in Hrun; try discriminate.
  destruct (entity curr_type curr_name items) as [e| |] eqn:He;
    simpl in Hrun; try discriminate.
  injection Hrun as <-.
  exists (set_fields fs e), fs. repeat split.
  - apply entity_set_entity.
  - apply mapM_Forall2 in Hrows.
    induction Hrows as [|row f body fs Hrow _ IH]; constructor.
    + now apply get_fields_row_field in Hrow.
    + exact IH.
Qed.

Lemma C8_witness :
  get_fields "Chat" TYPES (Some c8_body) c8_items
  = Ok (set_entity TYPES "Chat"
          (set_fields
             [ mkField "id" ["Integer"] true "Unique identifier";
               mkField "title" ["String"] false "Optional. Title";
               mkField "bio" ["String"] false "Optional. Bio" ]
             (new_entity "Chat")) c8_items)
  /\ exists e fs,
       entity TYPES "Chat"
         (set_entity TYPES "Chat"
            (set_fields
               [ mkField "id" ["Integer"] true "Unique identifier";
                 mkField "title" ["String"] false "Optional. Title";
                 mkField "bio" ["String"] false "Optional. Bio" ]
               (new_entity "Chat")) c8_items) = Ok e
       /\ e_fields e = Some fs
       /\ Forall2 (field_of_row TYPES) c8_body fs.
Proof.
  split; [reflexivity|].
  apply (C8_required_flag "Chat" TYPES c8_body c8_items). reflexivity.
Defined.

Lemma step_bad_row (st : State) (ct : Category) (before after : list (list Tag))
  (row : list Tag) (fs : list Field) :
  curr_type st = Some ct ->
  curr_name st <> EmptyString ->
  mapM (get_fields_row (curr_name st) ct) before = Ok fs ->
  List.length row <> expected_columns ct ->
  step st (TableNode (Some (before ++ row :: after)%list))
  = Exit 1 (row_diagnostic (curr_name st) ct row).
Proof.
  intros Hct Hcn Hbefore Hrow.
  unfold step; simpl is_boundary; cbv iota.
  rewrite Hct. destruct (curr_name st) as [|c cn] eqn:Ecn; [congruence|].
  unfold route, bind at 4; unfold get_fields.
  rewrite (mapM_stops _ before after row fs 1 (row_diagnostic (String c cn) ct row)
             Hbefore (get_fields_row_unexpected _ _ _ Hrow)).
  reflexivity.
Qed.

(** C3.  When the walk reaches a table of an open entity and comes, after
    rows it could read, to a row whose number of cells is not the one of
    the entity's category (3 for a type, 4 for a method), the run ends
    there with exit status 1, having printed the entity's category, its
    name, the number of cells and the cells, and nothing is written. *)
Theorem C3_unexpected_row (pre post : list Node) (st : State) (ct : Category)
  (before after : list (list Tag)) (row : list Tag) (fs : list Field)
  (Hpre : walk initial pre = Ok st)
  (Hct : curr_type st = Some ct)
  (Hcn : curr_name st <> EmptyString)
  (Hbefore : mapM (get_fields_row (curr_name st) ct) before = Ok fs)
  (Hrow : List.length row <> expected_columns ct) :
  main (pre ++ TableNode (Some (before ++ row :: after)%list) :: post)
  = mkRun (Exited 1) (row_diagnostic (curr_name st) ct row) None.
Proof.
  unfold main, retrieve_api_info.
  rewrite walk_app, Hpre. cbn [bind walk].
  now rewrite (step_bad_row st ct before after row fs Hct Hcn Hbefore Hrow).
Qed.

Lemma C3_witness :
  main (c3_pre ++ TableNode (Some (c3_before ++ c3_row :: [])%list) :: [])
  = mkRun (Exited 1) (row_diagnostic "Chat" TYPES c3_row) None.
Proof.
  apply (C3_unexpected_row c3_pre [] c3_state TYPES c3_before [] c3_row
           [mkField "type" ["String"] true "Type of chat"]).
  - reflexivity.
  - reflexivity.
  - discriminate.
  - reflexivity.
  - simpl; lia.
Defined.

(** C3, as stated, fails for a row that comes after the row at which
    the run ended: of two rows with too few cells the first is reported
    and the second is never looked at; and behind a row whose description
    cannot be normalized the run has ended on the exception, with
    nothing printed. *)
Lemma C3_counterexample :
  List.length c3_short <> expected_columns TYPES
  /\ main (c3_pre ++ [TableNode (Some [c3_row; c3_short])])
     = mkRun (Exited 1) (row_diagnostic "Chat" TYPES c3_row) None
  /\ ~ In (TagList c3_short)
          (stdout (main (c3_pre ++ [TableNode (Some [c3_row; c3_short])])))
  /\ main (c3_pre ++ [TableNode (Some [c3_failing; c3_short])])
     = mkRun (Uncaught ValueError) [] None.
Proof.
  split; [simpl; lia|]. split; [reflexivity|]. split; [|reflexivity].
  vm_compute. intros H.
  repeat (destruct H as [H | H]; [discriminate H|]). exact H.
Qed.

(** ** Schema Validator: back-references *)

Lemma grows_refl (r : Items) : grows r r.
Proof. split; auto. Qed.

Lemma grows_trans (r1 r2 r3 : Items) : grows r1 r2 -> grows r2 r3 -> grows r1 r3.
Proof.
  intros [K1 L1] [K2 L2]. split.
  - intros k. now rewrite K2, K1.
  - auto.
Qed.

Lemma add_subtype_of_grows (st t : string) (r : Items) :
  grows r (add_subtype_of st t r).
Proof.
  unfold add_subtype_of.
  destruct (dict_get st (types r)) as [e|] eqn:E; [|apply grows_refl].
  split.
  - intros k. simpl. rewrite dict_mem_set.
    destruct (st =? k) eqn:Ek; [|reflexivity].
    apply str_eqb_eq in Ek; subst k. unfold dict_mem. now rewrite E.
  - intros B A [eB [HB HA]]. unfold linked; simpl.
    destruct (str_eqb_spec st B) as [->|Hne].
    + rewrite dict_get_set_eq. eexists; split; [reflexivity|].
      simpl. rewrite E in HB; injection HB as ->.
      apply in_or_app; now left.
    + rewrite dict_get_set_neq by assumption. now exists eB.
Qed.

Lemma add_subtype_of_links (st t : string) (r : Items) :
  dict_mem st (types r) = true -> linked st t (add_subtype_of st t r).
Proof.
  unfold dict_mem, add_subtype_of, linked.
  destruct (dict_get st (types r)) as [e|]; [intros _|discriminate].
  simpl. rewrite dict_get_set_eq. eexists; split; [reflexivity|].
  simpl. apply in_or_app; right; now left.
Qed.

Lemma link_subtype_grows (t : string) (v : Verdict) (st : string) :
  grows (checked v) (checked (link_subtype t v st)).
Proof.
  unfold link_subtype.
  destruct (dict_mem st (types (checked v))); simpl;
    [apply add_subtype_of_grows | apply grows_refl].
Qed.

Lemma fold_link_subtype_grows (t : string) (subtypes : list string) (v : Verdict) :
  grows (checked v) (checked (fold_left (link_subtype t) subtypes v)).
Proof.
  revert v; induction subtypes as [|st l IH]; intros v; simpl.
  - apply grows_refl.
  - eapply grows_trans; [apply link_subtype_grows | apply IH].
Qed.

Lemma fold_link_subtype_links (t B : string) (subtypes : list string) (v : Verdict) :
  In B subtypes -> dict_mem B (types (checked v)) = true ->
  linked B t (checked (fold_left (link_subtype t) subtypes v)).
Proof.
  revert v; induction subtypes as [|st l IH]; intros v; simpl; [tauto|].
  intros [->|Hin] Hmem.
  - apply (fold_link_subtype_grows t l).
    unfold link_subtype. rewrite Hmem. simpl. now apply add_subtype_of_links.
  - apply IH; [assumption|].
    destruct (link_subtype_grows t v st) as [K _]. now rewrite K.
Qed.

Lemma check_field_checked (tv : string * Verdict) (param : Field) :
  checked (snd (check_field tv param)) = checked (snd tv).
Proof.
  destruct tv as [t v]. unfold check_field.
  destruct (unknown _ _); reflexivity.
Qed.

Lemma fold_check_field_checked (fields : list Field) (tv : string * Verdict) :
  checked (snd (fold_left check_field fields tv)) = checked (snd tv).
Proof.
  revert tv; induction fields as [|f l IH]; intros tv; simpl; [reflexivity|].
  now rewrite IH, check_field_checked.
Qed.

Lemma verify_type_grows (v : Verdict) (entry : string * Entity) :
  grows (checked v) (checked (verify_type v entry)).
Proof.
  destruct entry as [t values]. unfold verify_type.
  destruct (negb (truthy_str (e_href values))); [apply grows_refl|].
  destruct (Nat.eqb _ 0).
  - destruct (is_empty _ && _); [apply grows_refl|].
    rewrite fold_check_field_checked. apply fold_link_subtype_grows.
  - rewrite fold_check_field_checked. apply grows_refl.
Qed.

Lemma fold_verify_type_grows (entries : list (string * Entity)) (v : Verdict) :
  grows (checked v) (checked (fold_left verify_type entries v)).
Proof.
  revert v; induction entries as [|en l IH]; intros v; simpl.
  - apply grows_refl.
  - eapply grows_trans; [apply verify_type_grows | apply IH].
Qed.

Lemma verify_type_links (v : Verdict) (A B : string) (eA : Entity) :
  truthy_str (e_href eA) = true ->
  get_or_empty (e_fields eA) = [] ->
  In B (get_or_empty (e_subtypes eA)) ->
  dict_mem B (types (checked v)) = true ->
  linked B A (checked (verify_type v (A, eA))).
Proof.
  intros Hhref Hfields Hsub Hmem. unfold verify_type.
  rewrite Hhref, Hfields. simpl.
  destruct (get_or_empty (e_subtypes eA)) as [|s l] eqn:E; [destruct Hsub|].
  simpl. apply (fold_link_subtype_links A B (s :: l) v); assumption.
Qed.

Lemma checked_validate (registry : Items) :
  checked (validate registry) = checked (verify_type_parameters registry).
Proof.
  unfold validate.
  destruct (issue_found (verify_type_parameters registry)); [reflexivity|].
  simpl. unfold verify_method_parameters.
  generalize (checked (verify_type_parameters registry)); intros r.
  assert (H : forall l v, checked (fold_left verify_method l v) = checked v).
  { induction l as [|[m e] l IH]; intros v; simpl; [reflexivity|].
    rewrite IH. unfold verify_method.
    destruct (negb (truthy_str (e_href e))); [reflexivity|].
    destruct (negb (truthy_list (e_returns e))); [reflexivity|].
    assert (Hr : forall rs w, checked (fold_left check_return_type rs w) = checked w).
    { induction rs as [|x rs IHr]; intros w; simpl; [reflexivity|].
      rewrite IHr. unfold check_return_type. destruct (unknown _ _); reflexivity. }
    assert (Hp : forall ts w, checked (fold_left check_param_type ts w) = checked w).
    { induction ts as [|x ts IHt]; intros w; simpl; [reflexivity|].
      rewrite IHt. unfold check_param_type. destruct (unknown _ _); reflexivity. }
    assert (Hf : forall fs w,
               checked (fold_left (fun v param =>
                          fold_left check_param_type (f_types param) v) fs w)
               = checked w).
    { induction fs as [|x fs IHf]; intros w; simpl; [reflexivity|].
      now rewrite IHf, Hp. }
    rewrite Hr, Hf. destruct (Nat.ltb 1 _); reflexivity. }
  now rewrite H.
Qed.

(** C6, as amended.  Let [A] be a type of the registry with a link and
    without fields, whose subtypes name [B], a key of the types.  After
    validation [B.subtype_of] contains [A]. *)
Theorem C6_subtype_back_reference (registry : Items) (A B : string) (eA : Entity)
  (HA : dict_get A (types registry) = Some eA)
  (Hhref : truthy_str (e_href eA) = true)
  (Hfields : get_or_empty (e_fields eA) = [])
  (Hsub : In B (get_or_empty (e_subtypes eA)))
  (HB : dict_mem B (types registry) = true) :
  linked B A (checked (validate registry)).
Proof.
  rewrite checked_validate. unfold verify_type_parameters.
  apply dict_get_In, in_split in HA. destruct HA as [l1 [l2 Hsplit]].
  rewrite Hsplit, fold_left_app. simpl.
  set (v0 := mkVerdict false [] registry).
  apply (fold_verify_type_grows l2).
  apply verify_type_links; try assumption.
  destruct (fold_verify_type_grows l1 v0) as [K _]. now rewrite K.
Qed.

Lemma C6_witness : linked "B" "A" (checked (validate c6_registry')).
Proof.
  apply (C6_subtype_back_reference c6_registry' "A" "B" c6_A).
  - reflexivity.
  - reflexivity.
  - reflexivity.
  - simpl; auto.
  - reflexivity.
Defined.

(** C6, as stated, fails for a type that has a table as well as a list:
    its subtypes are set, and the validator passes them by. *)
Lemma C6_counterexample :
  retrieve_api_info c6_children = Ok c6_registry
  /\ (exists eA, dict_get "A" (types c6_registry) = Some eA
                 /\ In "B" (get_or_empty (e_subtypes eA)))
  /\ dict_mem "B" (types c6_registry) = true
  /\ issue_found (validate c6_registry) = false
  /\ ~ linked "B" "A" (checked (validate c6_registry)).
Proof.
  split; [reflexivity|]. split.
  - eexists; split; [reflexivity|]. simpl; auto.
  - split; [reflexivity|]. split; [reflexivity|].
    intros [eB [HB HA]]. vm_compute in HB. injection HB as <-. exact HA.
Qed.

(** ** Schema Validator: what is printed *)

Lemma is_empty_app {A : Type} (a b : list A) :
  is_empty (a ++ b) = is_empty a && is_empty b.
Proof. destruct a; reflexivity. Qed.

Lemma adds_refl (v : Verdict) : adds v v [] [].
Proof. split; simpl; [now rewrite app_nil_r | now rewrite orb_false_r]. Qed.

Lemma adds_trans (v1 v2 v3 : Verdict) (o1 o2 d1 d2 : list Printed) :
  adds v1 v2 o1 d1 -> adds v2 v3 o2 d2 -> adds v1 v3 (o1 ++ o2) (d1 ++ d2).
Proof.
  intros [P1 I1] [P2 I2]. split.
  - now rewrite P2, P1, app_assoc.
  - now rewrite I2, I1, is_empty_app, negb_andb, orb_assoc.
Qed.

Lemma adds_report (p : Printed) (v : Verdict) : adds v (report p v) [p] [p].
Proof. split; simpl; [reflexivity | now rewrite orb_true_r]. Qed.

Lemma adds_warn (p : Printed) (v : Verdict) : adds v (warn p v) [p] [].
Proof. split; simpl; [reflexivity | now rewrite orb_false_r]. Qed.

Lemma unknown_grows (registry registry' : Items) (t : string) :
  grows registry registry' -> unknown t registry' = unknown t registry.
Proof. intros [K _]. unfold unknown. now rewrite K. Qed.

Lemma fold_link_subtype_adds (registry : Items) (t : string)
  (subtypes : list string) (v : Verdict) :
  grows registry (checked v) ->
  adds v (fold_left (link_subtype t) subtypes v)
       (subtype_defects registry t subtypes) (subtype_defects registry t subtypes).
Proof.
  revert v; induction subtypes as [|st l IH]; intros v G; simpl.
  - apply adds_refl.
  - assert (G' : grows registry (checked (link_subtype t v st)))
      by (eapply grows_trans; [exact G | apply link_subtype_grows]).
    specialize (IH _ G').
    unfold subtype_defects in *; simpl.
    eapply adds_trans; [|exact IH].
    unfold link_subtype. destruct G as [K _]. rewrite K.
    destruct (dict_mem st (types registry)).
    + split; simpl; [now rewrite app_nil_r | now rewrite orb_false_r].
    + apply adds_report.
Qed.

Lemma fold_check_field_adds (registry : Items) (fields : list Field)
  (t : string) (v : Verdict) :
  grows registry (checked v) ->
  adds v (snd (fold_left check_field fields (t, v)))
       (field_defects registry t fields) (field_defects registry t fields).
Proof.
  revert t v; induction fields as [|param l IH]; intros t v G; simpl.
  - apply adds_refl.
  - rewrite (unknown_grows _ _ _ G).
    destruct (unknown _ registry).
    + eapply adds_trans; [apply adds_report | apply IH; exact G].
    + apply (adds_trans v v _ [] _ [] _ (adds_refl v)). apply IH; exact G.
Qed.

Lemma verify_type_adds (registry : Items) (v : Verdict) (entry : string * Entity) :
  grows registry (checked v) ->
  adds v (verify_type v entry) (type_defects registry entry)
       (type_defects registry entry).
Proof.
  intros G. destruct entry as [t values]. unfold verify_type, type_defects.
  destruct (negb (truthy_str (e_href values))); [apply adds_report|].
  destruct (get_or_empty (e_fields values)) as [|f fs] eqn:Ef.
  - simpl Nat.eqb; cbv iota.
    destruct (is_empty _ && _); [apply adds_report|].
    simpl. now apply fold_link_subtype_adds.
  - simpl Nat.eqb; cbv iota. now apply fold_check_field_adds.
Qed.

Lemma fold_verify_type_adds (registry : Items) (entries : list (string * Entity))
  (v : Verdict) :
  grows registry (checked v) ->
  adds v (fold_left verify_type entries v)
       (flat_map (type_defects registry) entries)
       (flat_map (type_defects registry) entries).
Proof.
  revert v; induction entries as [|en l IH]; intros v G; simpl.
  - apply adds_refl.
  - eapply adds_trans; [now apply verify_type_adds|].
    apply IH. eapply grows_trans; [exact G | apply verify_type_grows].
Qed.

Lemma fold_check_param_type_adds (registry : Items) (ts : list string) (v : Verdict) :
  checked v = registry ->
  adds v (fold_left check_param_type ts v)
       (param_defects registry ts) (param_defects registry ts)
  /\ checked (fold_left check_param_type ts v) = registry.
Proof.
  revert v; induction ts as [|t l IH]; intros v G; simpl.
  - split; [apply adds_refl | exact G].
  - unfold param_defects in *; simpl.
    unfold check_param_type at 2 4. rewrite G.
    destruct (unknown (unwrap t) registry).
    + destruct (IH (report (Line ("UNKNOWN PARAM TYPE " ++ unwrap t)) v) G) as [Ha Hc].
      split; [|exact Hc]. eapply adds_trans; [apply adds_report | exact Ha].
    + destruct (IH v G) as [Ha Hc]. split; [|exact Hc].
      apply (adds_trans v v _ [] _ [] _ (adds_refl v)). exact Ha.
Qed.

Lemma fold_check_return_type_adds (registry : Items) (rets : list string) (v : Verdict) :
  checked v = registry ->
  adds v (fold_left check_return_type rets v)
       (return_defects registry rets) (return_defects registry rets)
  /\ checked (fold_left check_return_type rets v) = registry.
Proof.
  revert v; induction rets as [|t l IH]; intros v G; simpl.
  - split; [apply adds_refl | exact G].
  - unfold return_defects in *; simpl.
    unfold check_return_type at 2 4. rewrite G.
    destruct (unknown (unwrap t) registry).
    + destruct (IH (report (Line ("UNKNOWN RETURN TYPE " ++ unwrap t)) v) G) as [Ha Hc].
      split; [|exact Hc]. eapply adds_trans; [apply adds_report | exact Ha].
    + destruct (IH v G) as [Ha Hc]. split; [|exact Hc].
      apply (adds_trans v v _ [] _ [] _ (adds_refl v)). exact Ha.
Qed.

Lemma fold_fields_adds (registry : Items) (fields : list Field) (v : Verdict) :
  checked v = registry ->
  adds v (fold_left (fun v param => fold_left check_param_type (f_types param) v)
                    fields v)
       (flat_map (fun param => param_defects registry (f_types param)) fields)
       (flat_map (fun param => param_defects registry (f_types param)) fields)
  /\ checked (fold_left (fun v param =>
                fold_left check_param_type (f_types param) v) fields v) = registry.
Proof.
  revert v; induction fields as [|param l IH]; intros v G; simpl.
  - split; [apply adds_refl | exact G].
  - destruct (fold_check_param_type_adds registry (f_types param) v G) as [Ha Hc].
    destruct (IH _ Hc) as [Ha' Hc']. split; [|exact Hc'].
    eapply adds_trans; [exact Ha | exact Ha'].
Qed.

Lemma verify_method_adds (registry : Items) (v : Verdict) (entry : string * Entity) :
  checked v = registry ->
  adds v (verify_method v entry)
       (method_warning entry ++ method_defects registry entry)%list
       (method_defects registry entry)
  /\ checked (verify_method v entry) = registry.
Proof.
  intros G. destruct entry as [m values].
  unfold verify_method, method_warning, method_defects.
  destruct (truthy_str (e_href values)); simpl negb; cbv iota.
  2: { split; [apply adds_report | exact G]. }
  destruct (truthy_list (e_returns values)); simpl negb; cbv iota.
  2: { split; [apply adds_report | exact G]. }
  simpl andb.
  set (returns := get_or_empty (e_returns values)).
  set (w := if Nat.ltb 1 (List.length returns)
            then warn (LineRepr (m ++ " has multiple return types: ") returns) v
            else v).
  assert (Hw : adds v w (if Nat.ltb 1 (List.length returns)
                         then [LineRepr (m ++ " has multiple return types: ") returns]
                         else []) []
               /\ checked w = registry).
  { unfold w. destruct (Nat.ltb 1 (List.length returns));
      (split; [first [apply adds_warn | apply adds_refl] | exact G]). }
  destruct Hw as [Hw Hcw].
  destruct (fold_fields_adds registry (get_or_empty (e_fields values)) w Hcw)
    as [Hf Hcf].
  destruct (fold_check_return_type_adds registry returns _ Hcf) as [Hr Hcr].
  split; [|exact Hcr].
  apply (adds_trans _ _ _ _ _ [] _ Hw).
  eapply adds_trans; [exact Hf | exact Hr].
Qed.

Lemma fold_verify_method_adds (registry : Items) (entries : list (string * Entity))
  (v : Verdict) :
  checked v = registry ->
  adds v (fold_left verify_method entries v)
       (flat_map (fun m => (method_warning m ++ method_defects registry m)%list) entries)
       (flat_map (method_defects registry) entries).
Proof.
  revert v; induction entries as [|en l IH]; intros v G; simpl.
  - apply adds_refl.
  - destruct (verify_method_adds registry v en G) as [Ha Hc].
    eapply adds_trans; [exact Ha | apply IH; exact Hc].
Qed.

Lemma methods_add_subtype_of (st t : string) (r : Items) :
  methods (add_subtype_of st t r) = methods r.
Proof.
  unfold add_subtype_of. destruct (dict_get st (types r)); reflexivity.
Qed.

Lemma methods_verify_type (v : Verdict) (entry : string * Entity) :
  methods (checked (verify_type v entry)) = methods (checked v).
Proof.
  destruct entry as [t values]. unfold verify_type.
  assert (H : forall l w, methods (checked (fold_left (link_subtype t) l w))
                          = methods (checked w)).
  { induction l as [|st l IH]; intros w; simpl; [reflexivity|].
    rewrite IH. unfold link_subtype.
    destruct (dict_mem st _); simpl; [apply methods_add_subtype_of | reflexivity]. }
  destruct (negb (truthy_str (e_href values))); [reflexivity|].
  destruct (Nat.eqb _ 0).
  - destruct (is_empty _ && _); [reflexivity|].
    rewrite fold_check_field_checked. cbn [snd]. apply H.
  - now rewrite fold_check_field_checked.
Qed.

Lemma methods_verify_type_parameters (registry : Items) :
  methods (checked (verify_type_parameters registry)) = methods registry.
Proof.
  unfold verify_type_parameters.
  assert (H : forall l v, methods (checked (fold_left verify_type l v))
                          = methods (checked v)).
  { induction l as [|en l IH]; intros v; simpl; [reflexivity|].
    now rewrite IH, methods_verify_type. }
  now rewrite H.
Qed.

Lemma method_defects_grows (registry registry' : Items) (entry : string * Entity) :
  grows registry registry' ->
  method_defects registry' entry = method_defects registry entry.
Proof.
  intros G. destruct entry as [m values]. unfold method_defects.
  destruct (negb (truthy_str (e_href values))); [reflexivity|].
  destruct (negb (truthy_list (e_returns values))); [reflexivity|].
  unfold param_defects, return_defects. f_equal.
  - apply flat_map_ext; intros param. apply flat_map_ext; intros t.
    now rewrite (unknown_grows _ _ _ G).
  - apply flat_map_ext; intros t. now rewrite (unknown_grows _ _ _ G).
Qed.

(** C1, as amended.  Each pass goes through every entity of its category
    in registry order and prints what it has to say about each: the lines
    of the types pass are those of every type in turn, the lines of the
    methods pass those of every method in turn, and a pass fails exactly
    when one of these lines is a defect.  What a pass says about an entity
    without a link is that alone.  The program prints the lines of the
    types pass and, when there was no defect among them, those of the
    methods pass. *)
Theorem C1_validator_reports (registry : Items) :
  let v1 := verify_type_parameters registry in
  let v2 := verify_method_parameters (checked v1) in
  printed v1 = flat_map (type_defects registry) (types registry)
  /\ issue_found v1
     = negb (is_empty (flat_map (type_defects registry) (types registry)))
  /\ printed v2
     = flat_map (fun m => (method_warning m ++ method_defects registry m)%list)
                (methods registry)
  /\ issue_found v2
     = negb (is_empty (flat_map (method_defects registry) (methods registry)))
  /\ printed (validate registry)
     = (printed v1 ++ if issue_found v1 then [] else printed v2)%list
  /\ issue_found (validate registry) = issue_found v1 || issue_found v2
  /\ (forall name values, truthy_str (e_href values) = false ->
      type_defects registry (name, values) = [Line (name ++ " has no link!")]
      /\ method_defects registry (name, values) = [Line (name ++ " has no link!")]
      /\ method_warning (name, values) = []).
Proof.
  intros v1 v2.
  destruct (fold_verify_type_adds registry (types registry)
              (mkVerdict false [] registry) (grows_refl registry)) as [P1 I1].
  fold (verify_type_parameters registry) in P1, I1. fold v1 in P1, I1.
  assert (G : grows registry (checked v1))
    by apply (fold_verify_type_grows (types registry) (mkVerdict false [] registry)).
  destruct (fold_verify_method_adds (checked v1) (methods (checked v1))
              (mkVerdict false [] (checked v1)) eq_refl) as [P2 I2].
  fold (verify_method_parameters (checked v1)) in P2, I2. fold v2 in P2, I2.
  unfold v1 in P2, I2 at 2 3.
  rewrite methods_verify_type_parameters in P2, I2. fold v1 in P2, I2.
  simpl in P1, I1, P2, I2.
  repeat split.
  - exact P1.
  - exact I1.
  - rewrite P2. apply flat_map_ext; intros m.
    now rewrite (method_defects_grows _ _ _ G).
  - rewrite I2. do 2 f_equal. apply flat_map_ext; intros m.
    now apply method_defects_grows.
  - unfold validate. fold v1. destruct (issue_found v1).
    + now rewrite app_nil_r.
    + reflexivity.
  - unfold validate. fold v1. destruct (issue_found v1) eqn:E; [exact E | reflexivity].
  - unfold type_defects. now rewrite H.
  - unfold method_defects. now rewrite H.
  - unfold method_warning. now rewrite H.
Qed.

(** C1, as stated, fails: a type without a link has its fields left
    unchecked, and once the types pass has found a defect the methods
    pass is not run, so the defect of the method goes unreported. *)
Lemma C1_counterexample :
  retrieve_api_info c1_children = Ok c1_registry
  /\ (exists eA f, dict_get "A" (types c1_registry) = Some eA
        /\ e_href eA = None
        /\ In f (get_or_empty (e_fields eA))
        /\ In "Bogus" (f_types f)
        /\ unknown (unwrap "Bogus") c1_registry = true)
  /\ (exists eM, dict_get "getA" (methods c1_registry) = Some eM
        /\ e_returns eM = None)
  /\ printed (verify_method_parameters c1_registry)
     = [Line "getA has no return types!"]
  /\ main c1_children = mkRun (Exited 1) [Line "A has no link!"; FAILED] None.
Proof.
  split; [reflexivity|]. split.
  - eexists; eexists. split; [reflexivity|]. split; [reflexivity|].
    split; [left; reflexivity|]. split; [left; reflexivity | reflexivity].
  - split; [eexists; split; reflexivity|]. split; reflexivity.
Qed.

(** C2 does not hold of the program.  In the types pass the test of a
    field's types stands after the loop over them and sees the last one
    only: a type whose field is "Bogus or Integer" passes, and the
    registry is written with the unknown name in it.  The methods pass
    has the test inside the loop and reports the same field. *)
Theorem C2_types_pass_checks_last_type_only :
  main c2_children = mkRun (Exited 0) [] (Some c2_registry)
  /\ (exists e f, dict_get "Chat" (types c2_registry) = Some e
        /\ In f (get_or_empty (e_fields e))
        /\ f_types f = ["Bogus"; "Integer"]
        /\ unwrap "Bogus" = "Bogus"
        /\ mem "Bogus" TG_CORE_TYPES = false
        /\ dict_mem "Bogus" (types c2_registry) = false)
  /\ main c2_children_method
     = mkRun (Exited 1) [Line "UNKNOWN PARAM TYPE Bogus"; FAILED] None.
Proof.
  split; [reflexivity|]. split; [|reflexivity].
  eexists; eexists. split; [reflexivity|]. split; [left; reflexivity|].
  repeat split.
Qed.

(** C7 does not hold of the program.  For the entity [InputFile] the
    extractor returns before it reads the list: its items are not
    appended to the description, as they are under any other name. *)
Theorem C7_InputFile_list_not_described :
  (exists registry e,
      retrieve_api_info (c7_children "InputFile") = Ok registry
      /\ dict_get "InputFile" (types registry) = Some e
      /\ e_description e = Some ["There are three ways to send files."])
  /\ (exists registry e,
      retrieve_api_info (c7_children "InputMedia") = Ok registry
      /\ dict_get "InputMedia" (types registry) = Some e
      /\ e_description e
         = Some ["There are three ways to send files.";
                 "- By file_id"; "- By URL"; "- By upload"]).
Proof.
  split; eexists; eexists; (split; [reflexivity|]); split; reflexivity.
Qed.

(** C10, as stated, fails for [InputFile]: given a list before any
    paragraph, the walk goes on and the run ends well.  Under another
    name the run ends on the [KeyError], unless an item of the list
    cannot be normalized, which ends it before. *)
Lemma C10_counterexample :
  (exists registry, retrieve_api_info (c10_children "InputFile") = Ok registry)
  /\ status (main (c10_children "InputFile")) = Exited 0
  /\ main (c10_children "InputMedia")
     = mkRun (Uncaught (KeyError "description")) [] None
  /\ main c10_children_anchor = mkRun (Uncaught AttributeError) [] None.
Proof.
  split; [eexists; reflexivity|]. repeat split.
Qed.

(** ** Entity Segmenter: lists and descriptions *)

Lemma entity_Ok (ct : Category) (cn : string) (registry : Items) (e : Entity) :
  entity ct cn registry = Ok e <-> dict_get cn (category ct registry) = Some e.
Proof.
  unfold entity. destruct (dict_get cn (category ct registry)).
  - split; intros [= ->]; reflexivity.
  - split; discriminate.
Qed.

Lemma entity_present (ct : Category) (cn : string) (registry : Items) :
  present ct cn registry = true -> exists e, entity ct cn registry = Ok e.
Proof.
  unfold present, dict_mem, entity.
  destruct (dict_get cn (category ct registry)) as [e|]; [|discriminate].
  intros _. now exists e.
Qed.

Lemma described_entity (ct : Category) (cn : string) (registry : Items) (e : Entity) :
  entity ct cn registry = Ok e ->
  described ct cn registry
  = match e_description e with Some _ => true | None => false end.
Proof. intros H. apply entity_Ok in H. unfold described. now rewrite H. Qed.

Lemma present_set_entity (ct : Category) (cn : string) (e : Entity) (registry : Items) :
  present ct cn (set_entity ct cn e registry) = true.
Proof.
  unfold present, dict_mem. now rewrite category_set_entity, dict_get_set_eq.
Qed.

Lemma described_set_entity (ct : Category) (cn : string) (e : Entity) (registry : Items) :
  described ct cn (set_entity ct cn e registry)
  = match e_description e with Some _ => true | None => false end.
Proof. apply described_entity, entity_set_entity. Qed.

Ltac bind_ok H :=
  unfold bind in H;
  match type of H with
  | match ?r with Ok _ => _ | Exit _ _ => _ | Raise _ => _ end = Ok _ =>
      let E := fresh "E" in
      destruct r eqn:E; [|discriminate H|discriminate H]
  end.

Lemma extract_return_type_described (ct : Category) (cn r : string)
  (registry registry' : Items) :
  extract_return_type ct cn r registry = Ok registry' ->
  present ct cn registry' = true
  /\ described ct cn registry' = described ct cn registry.
Proof.
  unfold extract_return_type. intros H.
  destruct (array_match r); bind_ok H; injection H as <-;
    rewrite present_set_entity, described_set_entity, (described_entity _ _ _ _ E);
    split; reflexivity.
Qed.

Lemma get_method_return_type_described (ct : Category) (cn : string)
  (d : list string) (registry registry' : Items) :
  get_method_return_type cn ct d registry = Ok registry' ->
  present ct cn registry = true ->
  present ct cn registry' = true
  /\ described ct cn registry' = described ct cn registry.
Proof.
  unfold get_method_return_type. intros H Hp.
  destruct (ret_search _).
  - now apply extract_return_type_described in H.
  - destruct (ret_search2 _).
    + now apply extract_return_type_described in H.
    + injection H as <-. now split.
Qed.

Lemma get_fields_described (ct : Category) (cn : string)
  (x : option (list (list Tag))) (registry registry' : Items) :
  get_fields cn ct x registry = Ok registry' ->
  present ct cn registry' = true
  /\ described ct cn registry' = described ct cn registry.
Proof.
  unfold get_fields. intros H. destruct x as [body|]; [|discriminate].
  bind_ok H. bind_ok H. injection H as <-.
  rewrite present_set_entity, described_set_entity, (described_entity _ _ _ _ E0).
  split; reflexivity.
Qed.

Lemma get_subtypes_described (ct : Category) (cn : string) (x : list Tag)
  (registry registry' : Items) :
  get_subtypes cn ct x registry = Ok registry' ->
  present ct cn registry = true ->
  present ct cn registry' = true
  /\ described ct cn registry' = described ct cn registry
  /\ (cn <> "InputFile" -> described ct cn registry = true).
Proof.
  unfold get_subtypes. intros H Hp.
  destruct (str_eqb_spec cn "InputFile") as [Heq|Hne].
  - injection H as <-. repeat split; [assumption | contradiction].
  - bind_ok H. bind_ok H. bind_ok H.
    destruct (e_description a1) as [d|] eqn:Ed; [|discriminate].
    injection H as <-.
    assert (Hd : described ct cn registry = true).
    { destruct (category_eqb ct TYPES).
      - bind_ok E0. injection E0 as <-.
        rewrite entity_set_entity in E1. injection E1 as <-.
        rewrite (described_entity _ _ _ _ E2). simpl in Ed. now rewrite Ed.
      - injection E0 as <-. rewrite (described_entity _ _ _ _ E1). now rewrite Ed. }
    rewrite present_set_entity, described_set_entity, Hd. simpl.
    repeat split.
Qed.

Lemma get_subtypes_undescribed (ct : Category) (cn : string) (x : list Tag)
  (texts : list string) (registry : Items) :
  cn <> "InputFile" ->
  mapM clean_tg_description x = Ok texts ->
  present ct cn registry = true ->
  described ct cn registry = false ->
  get_subtypes cn ct x registry = Raise (KeyError "description").
Proof.
  intros Hne Hx Hp Hd. unfold get_subtypes.
  apply str_eqb_neq in Hne. rewrite Hne, Hx. unfold bind at 1.
  destruct (entity_present _ _ _ Hp) as [e He].
  rewrite (described_entity _ _ _ _ He) in Hd.
  destruct (category_eqb ct TYPES).
  - rewrite He. unfold bind at 2. unfold bind at 1.
    rewrite entity_set_entity. unfold bind. simpl.
    destruct (e_description e); [discriminate | reflexivity].
  - unfold bind at 1. rewrite He. unfold bind.
    destruct (e_description e); [discriminate | reflexivity].
Qed.

Lemma infer_returns_described (ct : Category) (cn : string)
  (registry registry' : Items) :
  infer_returns ct cn registry = Ok registry' ->
  present ct cn registry = true ->
  present ct cn registry' = true
  /\ described ct cn registry' = described ct cn registry.
Proof.
  unfold infer_returns. intros H Hp. destruct ct.
  - bind_ok H. destruct (truthy_list (e_description a)).
    + now apply get_method_return_type_described in H.
    + injection H as <-. now split.
  - injection H as <-. now split.
Qed.

Lemma route_described (ct : Category) (cn : string) (x : Node)
  (registry registry' : Items) :
  route ct cn x registry = Ok registry' ->
  present ct cn registry = true ->
  present ct cn registry' = true
  /\ described ct cn registry'
     = match x with P _ => true | _ => described ct cn registry end
  /\ (forall lis, x = Ul lis -> cn <> "InputFile" ->
      described ct cn registry = true).
Proof.
  unfold route. intros H Hp.
  destruct x as [| |h|para|tbody|lis|]; cbn [bind] in H.
  all: try (apply infer_returns_described in H; [|assumption];
            destruct H as [H1 H2]; repeat split; [assumption|assumption|];
            intros ? [=]).
  - (* p *)
    bind_ok H. bind_ok E. bind_ok E. injection E as <-.
    apply infer_returns_described in H; [|apply present_set_entity].
    destruct H as [H1 H2]. rewrite described_set_entity in H2. simpl in H2.
    repeat split; [assumption|assumption|]. intros ? [=].
  - (* table *)
    bind_ok H. apply get_fields_described in E. destruct E as [E1 E2].
    apply infer_returns_described in H; [|assumption].
    destruct H as [H1 H2]. rewrite E2 in H2.
    repeat split; [assumption|assumption|]. intros ? [=].
  - (* ul *)
    bind_ok H. apply get_subtypes_described in E; [|assumption].
    destruct E as [E1 [E2 E3]].
    apply infer_returns_described in H; [|assumption].
    destruct H as [H1 H2]. rewrite E2 in H2.
    repeat split; [assumption|assumption|]. intros ? _ Hne. now apply E3.
Qed.

Lemma get_type_and_name_described (x anchor : Tag) (registry registry' : Items)
  (cn : string) (ct : Category) :
  get_type_and_name x anchor registry = Ok (cn, ct, registry') ->
  cn <> EmptyString
  /\ present ct cn registry' = true
  /\ described ct cn registry' = false.
Proof.
  unfold get_type_and_name. destruct (get_text x) as [|c s] eqn:Et; [discriminate|].
  intros [= <- <- <-]. split; [discriminate|].
  rewrite present_set_entity, described_set_entity.
  split; [reflexivity|].
  destruct (tag_get anchor "href") as [[|? ?]|]; reflexivity.
Qed.

Lemma step_open_described (st st' : State) (x : Node) (seen : bool) :
  step st x = Ok st' ->
  open_described st seen ->
  open_described st'
    match x with
    | H3 | Hr | H4 _ => false
    | P _ => true
    | _ => seen
    end.
Proof.
  intros H Hinv. unfold step in H.
  destruct x as [| |h|para|tbody|lis|]; cbn [is_boundary] in H; cbv iota in H.
  - injection H as <-. intros ct [=].
  - injection H as <-. intros ct [=].
  - destruct (find "a" h) as [anchor|]; [|discriminate].
    destruct (match tag_get anchor "name" with
              | Some name => contains "-" name
              | None => false
              end).
    + injection H as <-. intros ct [=].
    + bind_ok H. destruct a as [[cn ct] registry]. bind_ok H. injection H as <-.
      apply get_type_and_name_described in E. destruct E as [Hcn [Hp Hd]].
      apply route_described in E0; [|assumption].
      destruct E0 as [Hp' [Hd' _]].
      intros ct' [= <-] _. simpl. split; [assumption | now rewrite Hd'].
  - destruct (curr_type st) as [ct|] eqn:Ect.
    2: { injection H as <-. intros ct. rewrite Ect. discriminate. }
    destruct (curr_name st) as [|c cn] eqn:Ecn.
    1: { injection H as <-. intros ct' _ Hne. now rewrite Ecn in Hne. }
    bind_ok H. injection H as <-.
    destruct (Hinv ct Ect) as [Hp Hd]; [rewrite Ecn; discriminate|].
    rewrite Ecn in Hp, Hd.
    apply route_described in E; [|assumption]. destruct E as [Hp' [Hd' _]].
    intros ct' [= <-] _. simpl. now split.
  - destruct (curr_type st) as [ct|] eqn:Ect.
    2: { injection H as <-. intros ct. rewrite Ect. discriminate. }
    destruct (curr_name st) as [|c cn] eqn:Ecn.
    1: { injection H as <-. intros ct' _ Hne. now rewrite Ecn in Hne. }
    bind_ok H. injection H as <-.
    destruct (Hinv ct Ect) as [Hp Hd]; [rewrite Ecn; discriminate|].
    rewrite Ecn in Hp, Hd.
    apply route_described in E; [|assumption]. destruct E as [Hp' [Hd' _]].
    intros ct' [= <-] _. simpl. split; [assumption | now rewrite Hd'].
  - destruct (curr_type st) as [ct|] eqn:Ect.
    2: { injection H as <-. intros ct. rewrite Ect. discriminate. }
    destruct (curr_name st) as [|c cn] eqn:Ecn.
    1: { injection H as <-. intros ct' _ Hne. now rewrite Ecn in Hne. }
    bind_ok H. injection H as <-.
    destruct (Hinv ct Ect) as [Hp Hd]; [rewrite Ecn; discriminate|].
    rewrite Ecn in Hp, Hd.
    apply route_described in E; [|assumption]. destruct E as [Hp' [Hd' _]].
    intros ct' [= <-] _. simpl. split; [assumption | now rewrite Hd'].
  - destruct (curr_type st) as [ct|] eqn:Ect.
    2: { injection H as <-. intros ct. rewrite Ect. discriminate. }
    destruct (curr_name st) as [|c cn] eqn:Ecn.
    1: { injection H as <-. intros ct' _ Hne. now rewrite Ecn in Hne. }
    bind_ok H. injection H as <-.
    destruct (Hinv ct Ect) as [Hp Hd]; [rewrite Ecn; discriminate|].
    rewrite Ecn in Hp, Hd.
    apply route_described in E; [|assumption]. destruct E as [Hp' [Hd' _]].
    intros ct' [= <-] _. simpl. split; [assumption | now rewrite Hd'].
Qed.

Lemma walk_open_described (nodes : list Node) (st st' : State) (seen : bool) :
  walk st nodes = Ok st' ->
  open_described st seen ->
  open_described st' (paragraph_since_header seen nodes).
Proof.
  revert st seen; induction nodes as [|x l IH]; intros st seen H Hinv.
  - injection H as <-. exact Hinv.
  - simpl in H. bind_ok H.
    pose proof (step_open_described _ _ _ _ E Hinv) as Hinv'.
    destruct x; simpl; eapply IH; eassumption.
Qed.

Lemma open_described_initial : open_described initial false.
Proof. intros ct [=]. Qed.

Lemma step_list_undescribed (st : State) (ct : Category) (lis : list Tag)
  (texts : list string) :
  curr_type st = Some ct ->
  curr_name st <> EmptyString ->
  curr_name st <> "InputFile" ->
  mapM clean_tg_description lis = Ok texts ->
  open_described st false ->
  step st (Ul lis) = Raise (KeyError "description").
Proof.
  intros Hct Hcn Hname Hlis Hinv.
  destruct (Hinv ct Hct Hcn) as [Hp Hd].
  unfold step; cbn [is_boundary]; cbv iota. rewrite Hct.
  destruct (curr_name st) as [|c cn] eqn:Ecn; [congruence|].
  unfold route. cbn [bind].
  now rewrite (get_subtypes_undescribed ct (String c cn) lis texts (items st)
                 Hname Hlis Hp Hd).
Qed.

(** C10, as amended.  Let the walk have come to a list with an entity
    open whose name is not [InputFile], the items of the list being
    normalized without error.  If no paragraph came since the entity's
    header, appending to the description raises [KeyError] and the run
    ends on it; so a run that completes had a paragraph there first. *)
Theorem C10_list_before_paragraph (pre post : list Node) (lis : list Tag)
  (st : State) (ct : Category) (texts : list string)
  (Hpre : walk initial pre = Ok st)
  (Hct : curr_type st = Some ct)
  (Hcn : curr_name st <> EmptyString)
  (Hname : curr_name st <> "InputFile")
  (Hlis : mapM clean_tg_description lis = Ok texts) :
  (paragraph_since_header false pre = false ->
   main (pre ++ Ul lis :: post)
   = mkRun (Uncaught (KeyError "description")) [] None)
  /\ ((exists registry, retrieve_api_info (pre ++ Ul lis :: post) = Ok registry) ->
      paragraph_since_header false pre = true).
Proof.
  pose proof (walk_open_described pre initial st false Hpre open_described_initial)
    as Hinv.
  assert (Hcrash : paragraph_since_header false pre = false ->
                   walk initial (pre ++ Ul lis :: post)
                   = Raise (KeyError "description")).
  { intros Hno. rewrite Hno in Hinv.
    rewrite walk_app, Hpre. cbn [bind walk].
    now rewrite (step_list_undescribed st ct lis texts Hct Hcn Hname Hlis Hinv). }
  split.
  - intros Hno. unfold main, retrieve_api_info. now rewrite (Hcrash Hno).
  - intros [registry Hok]. unfold retrieve_api_info in Hok.
    destruct (paragraph_since_header false pre); [reflexivity|].
    rewrite (Hcrash eq_refl) in Hok. discriminate Hok.
Qed.

Lemma C10_witness :
  (paragraph_since_header false [h4 "InputMedia" [("name", "inputfile"); ("href", "#inputfile")]]
   = false ->
   main (c10_children "InputMedia")
   = mkRun (Uncaught (KeyError "description")) [] None)
  /\ ((exists registry, retrieve_api_info (c10_children "InputMedia") = Ok registry) ->
      paragraph_since_header false
        [h4 "InputMedia" [("name", "inputfile"); ("href", "#inputfile")]] = true).
Proof.
  apply (C10_list_before_paragraph
           [h4 "InputMedia" [("name", "inputfile"); ("href", "#inputfile")]] []
           [li "By file_id"; li "By URL"] c10_state TYPES ["By file_id"; "By URL"]).
  - reflexivity.
  - reflexivity.
  - discriminate.
  - discriminate.
  - reflexivity.
Defined.

Lemma C4_witness :
  get_method_return_type "sendMessage" METHODS
    ["On success, the sent Message is returned."]
    (mkItems [("sendMessage", new_entity "sendMessage")] [])
  = Ok (mkItems [("sendMessage", set_returns ["Message"] (new_entity "sendMessage"))] []).
Proof.
  apply (C4_return_type_inferrer "sendMessage"
           (mkItems [("sendMessage", new_entity "sendMessage")] [])
           (new_entity "sendMessage")).
  reflexivity.
Defined.

(** * Further properties *)

(** ** Type-String Parser: shape of the result *)

Lemma append_nil_r (s : string) : s ++ EmptyString = s.
Proof. induction s as [|c s IH]; simpl; [reflexivity | now rewrite IH]. Qed.

Lemma append_assoc (a b c : string) : (a ++ b) ++ c = a ++ (b ++ c).
Proof. induction a as [|x a IH]; simpl; [reflexivity | now rewrite IH]. Qed.

Lemma startswith_append (p s : string) : startswith p (p ++ s) = true.
Proof. apply startswith_spec. now exists s. Qed.

Lemma drop_append (p s : string) : drop (len p) (p ++ s) = s.
Proof. induction p as [|c p IH]; simpl; [reflexivity | exact IH]. Qed.

Lemma split_go_nonempty (sep : string) (skip : nat) (cur s : string) :
  split_go sep skip cur s <> [].
Proof.
  revert skip cur; induction s as [|c s IH]; intros skip cur; simpl.
  - discriminate.
  - destruct skip; [|apply IH].
    destruct (startswith sep (String c s)); [discriminate | apply IH].
Qed.

Lemma flat_map_nonempty {A B : Type} (f : A -> list B) (l : list A) :
  l <> [] -> (forall a, f a <> []) -> flat_map f l <> [].
Proof.
  destruct l as [|a l]; [congruence|]. intros _ Hf. simpl.
  specialize (Hf a). destruct (f a); [congruence | discriminate].
Qed.

Lemma map_nonempty {A B : Type} (f : A -> B) (l : list A) :
  l <> [] -> map f l <> [].
Proof. destruct l; [congruence | discriminate]. Qed.

Lemma clean_tg_type_not_nil (t : string) : clean_tg_type t <> [].
Proof.
  unfold clean_tg_type.
  destruct (startswith ARRAY_OF t); apply map_nonempty;
    repeat (apply flat_map_nonempty;
            [|intros ?; apply map_nonempty, split_go_nonempty]);
    apply map_nonempty, split_go_nonempty.
Qed.

(** X1.  The parser never gives an empty sequence: whatever the text of
    the type cell, the empty text included, a field has at least one
    type. *)
Theorem clean_tg_type_nonempty (t : string) : clean_tg_type t <> [].
Proof. apply clean_tg_type_not_nil. Qed.

(** X2.  An array of a union is the union of the arrays: for a text that
    does not itself start with the marker, parsing it behind one marker
    gives the parse of the text with the marker before every result. *)
Theorem clean_tg_type_array (t : string)
  (Hplain : startswith ARRAY_OF t = false) :
  clean_tg_type (ARRAY_OF ++ t) = map (fun x => ARRAY_OF ++ x) (clean_tg_type t).
Proof.
  unfold clean_tg_type.
  rewrite startswith_append, drop_append, Hplain, map_map.
  reflexivity.
Qed.

Lemma clean_tg_type_array_witness :
  clean_tg_type "Array of Int, String or Messages"
  = ["Array of Integer"; "Array of String"; "Array of Message"].
Proof.
  apply (clean_tg_type_array "Int, String or Messages"). reflexivity.
Defined.

(** X3.  The alias table is applied once and for all: a canonical name is
    its own canonical name. *)
Theorem get_proper_type_idempotent (t : string) :
  get_proper_type (get_proper_type t) = get_proper_type t.
Proof.
  destruct (t =? "Messages") eqn:E1;
    [apply str_eqb_eq in E1; subst t; reflexivity|].
  destruct (t =? "Float number") eqn:E2;
    [apply str_eqb_eq in E2; subst t; reflexivity|].
  destruct (t =? "Int") eqn:E3;
    [apply str_eqb_eq in E3; subst t; reflexivity|].
  destruct (t =? "True") eqn:E4;
    [apply str_eqb_eq in E4; subst t; reflexivity|].
  destruct (t =? "Bool") eqn:E5;
    [apply str_eqb_eq in E5; subst t; reflexivity|].
  assert (H : get_proper_type t = t)
    by (unfold get_proper_type; now rewrite E1, E2, E3, E4, E5).
  now rewrite !H.
Qed.

Lemma split_go_no_separator (sep cur s : string) :
  contains sep s = false -> split_go sep 0 cur s = [cur ++ s].
Proof.
  revert cur; induction s as [|c s IH]; intros cur H; simpl.
  - now rewrite append_nil_r.
  - simpl in H. apply orb_false_iff in H. destruct H as [H1 H2].
    change (startswith sep (String c s) = false) in H1.
    rewrite H1, (IH _ H2), append_assoc. reflexivity.
Qed.

Lemma split_no_separator (sep s : string) :
  contains sep s = false -> split sep s = [s].
Proof. intros H. unfold split. now rewrite split_go_no_separator. Qed.

Lemma startswith_app (q a b : string) :
  startswith q a = true -> startswith q (a ++ b) = true.
Proof.
  intros H. apply startswith_spec in H. destruct H as [r ->].
  rewrite append_assoc. apply startswith_append.
Qed.

Lemma contains_app_l (sep a b : string) :
  contains sep a = true -> contains sep (a ++ b) = true.
Proof.
  induction a as [|c a IH]; intros H.
  - cbn [contains] in H. rewrite orb_false_r in H.
    destruct sep; [|discriminate H]. destruct b; reflexivity.
  - cbn [contains] in H. apply orb_true_iff in H.
    change (contains sep (String c (a ++ b)) = true). cbn [contains].
    apply orb_true_iff. destruct H as [H|H].
    + left. exact (startswith_app sep (String c a) b H).
    + right. now apply IH.
Qed.

Lemma contains_app_r (sep a b : string) :
  contains sep b = true -> contains sep (a ++ b) = true.
Proof.
  intros H. induction a as [|c a IH]; [exact H|].
  change (contains sep (String c (a ++ b)) = true). cbn [contains].
  rewrite IH. apply orb_true_r.
Qed.

Lemma lstrip_suffix (s : string) : exists head, s = head ++ lstrip s.
Proof.
  induction s as [|c s [head IH]]; [now exists EmptyString|].
  cbn [lstrip]. destruct (isspace c).
  - exists (String c head). simpl. now rewrite <- IH.
  - now exists EmptyString.
Qed.

Lemma rstrip_prefix (s : string) : exists tail, s = rstrip s ++ tail.
Proof.
  induction s as [|c s [tail IH]]; [now exists EmptyString|].
  cbn [rstrip]. destruct (rstrip s) as [|r0 r].
  - destruct (isspace c); [now exists (String c s) | now exists s].
  - exists tail. simpl. f_equal. exact IH.
Qed.

Lemma contains_strip (sep s : string) :
  contains sep s = false -> contains sep (strip s) = false.
Proof.
  intros H. destruct (contains sep (strip s)) eqn:E; [|reflexivity].
  rewrite <- H. symmetry. unfold strip in E.
  destruct (lstrip_suffix s) as [head Hh].
  destruct (rstrip_prefix (lstrip s)) as [tail Ht].
  rewrite Hh. apply contains_app_r. rewrite Ht. now apply contains_app_l.
Qed.

Lemma lstrip_head (s : string) :
  lstrip s = EmptyString
  \/ exists c r, lstrip s = String c r /\ isspace c = false.
Proof.
  induction s as [|c s IH]; [now left|].
  cbn [lstrip]. destruct (isspace c) eqn:E; [exact IH|].
  right. now exists c, s.
Qed.

Lemma rstrip_idempotent (s : string) : rstrip (rstrip s) = rstrip s.
Proof.
  induction s as [|c s IH]; [reflexivity|].
  cbn [rstrip]. destruct (rstrip s) as [|r0 r] eqn:Er.
  - destruct (isspace c) eqn:E; [reflexivity|]. cbn [rstrip]. now rewrite E.
  - cbn [rstrip] in IH |- *. now rewrite IH.
Qed.

Lemma strip_idempotent (s : string) : strip (strip s) = strip s.
Proof.
  unfold strip. destruct (lstrip_head s) as [->|[c [r [-> Hc]]]]; [reflexivity|].
  assert (H : exists r', rstrip (String c r) = String c r').
  { cbn [rstrip]. destruct (rstrip r).
    - rewrite Hc. now exists EmptyString.
    - eexists; reflexivity. }
  destruct H as [r' Hr]. rewrite Hr. cbn [lstrip]. rewrite Hc, <- Hr.
  apply rstrip_idempotent.
Qed.

Lemma clean_tg_type_one (t : string)
  (Hor : contains " or " t = false)
  (Hand : contains " and " t = false)
  (Hcomma : contains ", " t = false)
  (Hplain : startswith ARRAY_OF t = false) :
  clean_tg_type t = [get_proper_type (strip t)].
Proof.
  unfold clean_tg_type. rewrite Hplain.
  rewrite (split_no_separator _ _ Hor). cbn [map flat_map].
  rewrite (split_no_separator _ _ (contains_strip _ _ Hand)). cbn [map flat_map app].
  rewrite (split_no_separator _ _
             (contains_strip _ _ (contains_strip _ _ Hcomma))).
  cbn [map]. now rewrite !strip_idempotent.
Qed.

(** X4.  A text that holds none of the three separators and no leading
    marker names one type: the parser gives its trimmed text, looked up in
    the alias table, and nothing else. *)
Theorem clean_tg_type_single (t : string)
  (Hor : contains " or " t = false)
  (Hand : contains " and " t = false)
  (Hcomma : contains ", " t = false)
  (Hplain : startswith ARRAY_OF t = false) :
  clean_tg_type t = [get_proper_type (strip t)].
Proof. now apply clean_tg_type_one. Qed.

Lemma clean_tg_type_single_witness :
  clean_tg_type (" Float number" ++ NBSP) = ["Float"].
Proof.
  apply (clean_tg_type_single (" Float number" ++ NBSP)); reflexivity.
Defined.

(** ** Schema Validator: stripping the array markers *)

Lemma length_append (a b : string) :
  len (a ++ b) = len a + len b.
Proof. induction a as [|c a IH]; simpl; [reflexivity | now rewrite IH]. Qed.

Lemma strip_arrays_fuel (f1 f2 : nat) (t : string) :
  len t <= f1 -> len t <= f2 ->
  strip_arrays f1 t = strip_arrays f2 t.
Proof.
  revert f2 t; induction f1 as [|f1 IH]; intros f2 t H1 H2.
  - destruct t; [|simpl in H1; lia]. destruct f2; reflexivity.
  - destruct f2 as [|f2].
    + destruct t; [reflexivity | simpl in H2; lia].
    + cbn [strip_arrays]. destruct (startswith ARRAY_OF t) eqn:E; [|reflexivity].
      pose proof (startswith_length _ _ E) as Hl. simpl in Hl.
      apply IH; rewrite length_drop; simpl; lia.
Qed.

Lemma unwrap_plain (t : string) :
  startswith ARRAY_OF t = false -> unwrap t = t.
Proof.
  intros H. unfold unwrap. destruct (len t); [reflexivity|].
  cbn [strip_arrays]. now rewrite H.
Qed.

Lemma unwrap_marker (t : string) : unwrap (ARRAY_OF ++ t) = unwrap t.
Proof.
  unfold unwrap. rewrite length_append.
  change (len ARRAY_OF + len t)
    with (S (8 + len t)).
  cbn [strip_arrays]. rewrite startswith_append, drop_append.
  apply strip_arrays_fuel; lia.
Qed.

(** X5.  The loop that strips the markers strips them all, however many:
    for a name that does not start with the marker, any number of markers
    before it are taken off and the name is what is looked up. *)
Theorem unwrap_array_of (n : nat) (t : string)
  (Hplain : startswith ARRAY_OF t = false) :
  unwrap (array_of n t) = t.
Proof.
  induction n as [|n IH]; cbn [array_of].
  - now apply unwrap_plain.
  - now rewrite unwrap_marker.
Qed.

Lemma unwrap_array_of_witness :
  unwrap "Array of Array of PhotoSize" = "PhotoSize".
Proof.
  apply (unwrap_array_of 2 "PhotoSize"). reflexivity.
Defined.

(** ** Schema Validator: what it leaves alone *)

Lemma dict_set_keys {V : Type} (k : string) (v : V) (d : dict V) :
  dict_mem k d = true -> map fst (dict_set k v d) = map fst d.
Proof.
  unfold dict_mem. induction d as [|[k' v'] d IH]; simpl; [discriminate|].
  destruct (k' =? k) eqn:E; simpl.
  - apply str_eqb_eq in E. now subst.
  - intros H. now rewrite IH.
Qed.

Lemma same_but_subtype_of_refl (e : Entity) : same_but_subtype_of e e.
Proof.
  repeat split. exists []. now rewrite app_nil_r.
Qed.

Lemma same_but_subtype_of_trans (e1 e2 e3 : Entity) :
  same_but_subtype_of e1 e2 -> same_but_subtype_of e2 e3 ->
  same_but_subtype_of e1 e3.
Proof.
  intros [N1 [H1 [D1 [F1 [S1 [R1 [a1 A1]]]]]]] [N2 [H2 [D2 [F2 [S2 [R2 [a2 A2]]]]]]].
  repeat split; try congruence.
  exists (a1 ++ a2)%list. now rewrite A2, A1, app_assoc.
Qed.

Lemma frame_refl (r : Items) : frame r r.
Proof.
  repeat split. intros k e H. exists e. split; [exact H|].
  apply same_but_subtype_of_refl.
Qed.

Lemma frame_trans (r1 r2 r3 : Items) : frame r1 r2 -> frame r2 r3 -> frame r1 r3.
Proof.
  intros [M1 [K1 L1]] [M2 [K2 L2]]. repeat split; try congruence.
  intros k e H. destruct (L1 k e H) as [e' [H' S']].
  destruct (L2 k e' H') as [e'' [H'' S'']].
  exists e''. split; [exact H''|]. eapply same_but_subtype_of_trans; eassumption.
Qed.

Lemma add_subtype_of_frame (st t : string) (r : Items) :
  frame r (add_subtype_of st t r).
Proof.
  unfold add_subtype_of.
  destruct (dict_get st (types r)) as [e|] eqn:E; [|apply frame_refl].
  split; [reflexivity|]. split.
  - simpl. apply dict_set_keys. unfold dict_mem. now rewrite E.
  - intros k e0 H. simpl. destruct (str_eqb_spec st k) as [->|Hne].
    + rewrite dict_get_set_eq. eexists; split; [reflexivity|].
      rewrite E in H. injection H as <-.
      repeat split. simpl. now exists [t].
    + rewrite dict_get_set_neq by assumption. exists e0. split; [exact H|].
      apply same_but_subtype_of_refl.
Qed.

Lemma verify_type_frame (v : Verdict) (entry : string * Entity) :
  frame (checked v) (checked (verify_type v entry)).
Proof.
  destruct entry as [t values]. unfold verify_type.
  assert (H : forall l w, frame (checked w) (checked (fold_left (link_subtype t) l w))).
  { induction l as [|st l IH]; intros w; simpl; [apply frame_refl|].
    eapply frame_trans; [|apply IH]. unfold link_subtype.
    destruct (dict_mem st _); simpl; [apply add_subtype_of_frame | apply frame_refl]. }
  destruct (negb (truthy_str (e_href values))); [apply frame_refl|].
  destruct (Nat.eqb _ 0).
  - destruct (is_empty _ && _); [apply frame_refl|].
    rewrite fold_check_field_checked. cbn [snd]. apply H.
  - rewrite fold_check_field_checked. apply frame_refl.
Qed.

(** X6.  Validation writes nothing but back-references: the methods are
    as they were, the types are the same keys in the same order, and
    every type keeps its name, link, description, fields, subtypes and
    returns; its parents of before are still there, in order, with the
    new ones after them. *)
Theorem validate_frame (registry : Items) :
  frame registry (checked (validate registry)).
Proof.
  rewrite checked_validate. unfold verify_type_parameters.
  assert (H : forall l v, frame (checked v) (checked (fold_left verify_type l v))).
  { induction l as [|en l IH]; intros v; simpl; [apply frame_refl|].
    eapply frame_trans; [apply verify_type_frame | apply IH]. }
  apply (H (types registry) (mkVerdict false [] registry)).
Qed.

(** ** Schema Validator: where a back-reference comes from *)

Lemma add_subtype_of_linked_inv (st t B A : string) (r : Items) :
  linked B A (add_subtype_of st t r) -> linked B A r \/ (B = st /\ A = t).
Proof.
  unfold add_subtype_of.
  destruct (dict_get st (types r)) as [e|] eqn:E; [|now left].
  intros [eB [HB HA]]. simpl in HB.
  destruct (str_eqb_spec st B) as [->|Hne].
  - rewrite dict_get_set_eq in HB. injection HB as <-. simpl in HA.
    apply in_app_or in HA. destruct HA as [HA|[<-|[]]].
    + left. now exists e.
    + now right.
  - rewrite dict_get_set_neq in HB by assumption. left. now exists eB.
Qed.

Lemma fold_link_subtype_linked_inv (t B A : string) (subtypes : list string)
  (v : Verdict) :
  linked B A (checked (fold_left (link_subtype t) subtypes v)) ->
  linked B A (checked v) \/ (In B subtypes /\ A = t).
Proof.
  revert v; induction subtypes as [|st l IH]; intros v H; simpl in H; [now left|].
  apply IH in H. destruct H as [H|[H1 H2]]; [|right; split; [now right | exact H2]].
  unfold link_subtype in H. destruct (dict_mem st (types (checked v))).
  - simpl in H. apply add_subtype_of_linked_inv in H.
    destruct H as [H|[-> ->]]; [now left | right; split; [now left | reflexivity]].
  - now left.
Qed.

Lemma verify_type_linked_inv (v : Verdict) (t : string) (values : Entity)
  (B A : string) :
  linked B A (checked (verify_type v (t, values))) ->
  linked B A (checked v)
  \/ (A = t /\ truthy_str (e_href values) = true
      /\ get_or_empty (e_fields values) = []
      /\ In B (get_or_empty (e_subtypes values))).
Proof.
  unfold verify_type.
  destruct (truthy_str (e_href values)) eqn:Eh; cbn [negb]; [|now left].
  destruct (get_or_empty (e_fields values)) as [|f fs] eqn:Ef; cbn [List.length Nat.eqb].
  - destruct (is_empty _ && _); [now left|].
    rewrite fold_check_field_checked. cbn [snd]. intros H.
    apply fold_link_subtype_linked_inv in H.
    destruct H as [H|[H1 H2]]; [now left | right; auto].
  - rewrite fold_check_field_checked. now left.
Qed.

Lemma fold_verify_type_linked_inv (entries : dict Entity) (v : Verdict)
  (B A : string) :
  linked B A (checked (fold_left verify_type entries v)) ->
  linked B A (checked v) \/ declares entries A B.
Proof.
  revert v; induction entries as [|[t values] l IH]; intros v H; simpl in H;
    [now left|].
  apply IH in H. destruct H as [H|[eA [H1 H2]]].
  - apply verify_type_linked_inv in H.
    destruct H as [H|[-> [H1 [H2 H3]]]]; [now left|].
    right. exists values. split; [now left | auto].
  - right. exists eA. split; [now right | exact H2].
Qed.

(** X7.  Every back-reference has a cause: if after validation
    [B.subtype_of] contains [A], it did so before, or [A] is a type of
    the registry with a link and without fields whose subtypes name
    [B]. *)
Theorem validate_back_reference_sound (registry : Items) (A B : string)
  (Hlinked : linked B A (checked (validate registry))) :
  linked B A registry \/ declares (types registry) A B.
Proof.
  rewrite checked_validate in Hlinked.
  now apply fold_verify_type_linked_inv in Hlinked.
Qed.

Lemma validate_back_reference_sound_witness :
  linked "B" "A" c6_registry' \/ declares (types c6_registry') "A" "B".
Proof.
  apply (validate_back_reference_sound c6_registry' "A" "B").
  eexists. split; [reflexivity|]. simpl. auto.
Defined.

(** ** Schema Validator: what a pass without defect guarantees *)

Lemma mem_In (x : string) (l : list string) : mem x l = true <-> In x l.
Proof.
  unfold mem. rewrite existsb_exists. split.
  - intros [y [Hy E]]. apply str_eqb_eq in E. now subst.
  - intros H. exists x. split; [exact H | apply str_eqb_refl].
Qed.

Lemma unknown_resolves (t : string) (registry : Items) :
  unknown (unwrap t) registry = false -> resolves t registry.
Proof.
  unfold unknown, resolves. intros H. apply andb_false_iff in H.
  destruct H as [H|H]; apply negb_false_iff in H.
  - now right.
  - left. now apply mem_In.
Qed.

Lemma flat_map_nil {A B : Type} (f : A -> list B) (l : list A) :
  flat_map f l = [] -> forall a, In a l -> f a = [].
Proof.
  induction l as [|x l IH]; simpl; [tauto|].
  intros H a [<-|Ha].
  - now apply app_eq_nil in H.
  - apply IH; [now apply app_eq_nil in H | exact Ha].
Qed.

Lemma is_empty_nil {A : Type} (l : list A) : is_empty l = true -> l = [].
Proof. destruct l; [reflexivity | discriminate]. Qed.

Lemma validate_passes (registry : Items) :
  issue_found (validate registry) = false ->
  flat_map (type_defects registry) (types registry) = []
  /\ flat_map (method_defects registry) (methods registry) = [].
Proof.
  intros H.
  destruct (fold_verify_type_adds registry (types registry)
              (mkVerdict false [] registry) (grows_refl registry)) as [_ I1].
  fold (verify_type_parameters registry) in I1.
  pose proof (fold_verify_type_grows (types registry) (mkVerdict false [] registry))
    as G. fold (verify_type_parameters registry) in G. simpl in G.
  destruct (fold_verify_method_adds (checked (verify_type_parameters registry))
              (methods (checked (verify_type_parameters registry)))
              (mkVerdict false [] (checked (verify_type_parameters registry)))
              eq_refl) as [_ I2].
  fold (verify_method_parameters (checked (verify_type_parameters registry))) in I2.
  rewrite methods_verify_type_parameters in I2. simpl in I1, I2.
  unfold validate in H.
  destruct (issue_found (verify_type_parameters registry)) eqn:E1;
    [congruence|].
  simpl in H. rewrite H in I2.
  split.
  - symmetry in I1. apply negb_false_iff in I1. now apply is_empty_nil.
  - symmetry in I2. apply negb_false_iff, is_empty_nil in I2.
    rewrite <- I2. apply flat_map_ext. intros m. symmetry.
    now apply method_defects_grows.
Qed.

Lemma fold_left_last (l : list string) (t d : string) :
  l <> [] -> fold_left (fun _ ty => unwrap ty) l t = unwrap (last l d).
Proof.
  revert t; induction l as [|x l IH]; intros t Hne; [congruence|].
  destruct l as [|y l]; [reflexivity|].
  change (fold_left (fun _ ty => unwrap ty) (y :: l) (unwrap x)
          = unwrap (last (y :: l) d)).
  apply IH. discriminate.
Qed.

Lemma field_defects_nil (registry : Items) (fields : list Field) (t : string) :
  field_defects registry t fields = [] ->
  forall f, In f fields -> f_types f <> [] ->
    unknown (unwrap (last (f_types f) EmptyString)) registry = false.
Proof.
  revert t; induction fields as [|param l IH]; intros t H f Hin Hne; [destruct Hin|].
  simpl in H. apply app_eq_nil in H. destruct H as [H1 H2].
  destruct Hin as [<-|Hin].
  - rewrite (fold_left_last _ t EmptyString Hne) in H1.
    destruct (unknown _ registry); [discriminate H1 | reflexivity].
  - eapply IH; eassumption.
Qed.

(** X8.  After a validation without defect every type of the registry
    has a link; a type without fields has subtypes or is one of the
    approved names, and each of its subtypes is a key of the types; and
    the last type of every field resolves. *)
Theorem validate_ok_types (registry : Items) (t : string) (values : Entity)
  (Hok : issue_found (validate registry) = false)
  (Hin : In (t, values) (types registry)) :
  truthy_str (e_href values) = true
  /\ (get_or_empty (e_fields values) = [] ->
      (get_or_empty (e_subtypes values) <> [] \/ In t APPROVED_NO_SUBTYPES)
      /\ forall st, In st (get_or_empty (e_subtypes values)) ->
           dict_mem st (types registry) = true)
  /\ (forall f, In f (get_or_empty (e_fields values)) -> f_types f <> [] ->
      resolves (last (f_types f) EmptyString) registry).
Proof.
  destruct (validate_passes registry Hok) as [Ht _].
  pose proof (flat_map_nil _ _ Ht _ Hin) as H. unfold type_defects in H.
  destruct (truthy_str (e_href values)); cbn [negb] in H; [|discriminate H].
  split; [reflexivity|].
  destruct (get_or_empty (e_fields values)) as [|f0 fs] eqn:Ef.
  - split; [|intros f []]. intros _.
    destruct (is_empty (get_or_empty (e_subtypes values))
              && negb (mem t APPROVED_NO_SUBTYPES)) eqn:E; [discriminate H|].
    split.
    + apply andb_false_iff in E. destruct E as [E|E].
      * left. intros Hnil. rewrite Hnil in E. discriminate E.
      * right. apply negb_false_iff in E. now apply mem_In.
    + intros st Hst. unfold subtype_defects in H.
      pose proof (flat_map_nil _ _ H st Hst) as Hs. simpl in Hs.
      destruct (dict_mem st (types registry)); [reflexivity | discriminate Hs].
  - split; [discriminate|]. intros f Hf Hne.
    apply unknown_resolves. eapply field_defects_nil; eassumption.
Qed.

(** X9.  After a validation without defect every method of the registry
    has a link and at least one return type, and every type of every
    parameter and every return type resolves. *)
Theorem validate_ok_methods (registry : Items) (method : string) (values : Entity)
  (Hok : issue_found (validate registry) = false)
  (Hin : In (method, values) (methods registry)) :
  truthy_str (e_href values) = true
  /\ get_or_empty (e_returns values) <> []
  /\ (forall f t, In f (get_or_empty (e_fields values)) -> In t (f_types f) ->
      resolves t registry)
  /\ (forall ret, In ret (get_or_empty (e_returns values)) ->
      resolves ret registry).
Proof.
  destruct (validate_passes registry Hok) as [_ Hm].
  pose proof (flat_map_nil _ _ Hm _ Hin) as H. unfold method_defects in H.
  destruct (truthy_str (e_href values)); cbn [negb] in H; [|discriminate H].
  split; [reflexivity|].
  destruct (e_returns values) as [[|r0 rs]|] eqn:Er; cbn [truthy_list negb] in H;
    try discriminate H.
  split; [discriminate|].
  apply app_eq_nil in H. destruct H as [Hp Hr]. split.
  - intros f t Hf Ht. pose proof (flat_map_nil _ _ Hp f Hf) as H1.
    unfold param_defects in H1. pose proof (flat_map_nil _ _ H1 t Ht) as H2.
    simpl in H2. apply unknown_resolves.
    destruct (unknown (unwrap t) registry); [discriminate H2 | reflexivity].
  - intros ret Hret. unfold return_defects in Hr.
    pose proof (flat_map_nil _ _ Hr ret Hret) as H2. simpl in H2.
    apply unknown_resolves.
    destruct (unknown (unwrap ret) registry); [discriminate H2 | reflexivity].
Qed.

Lemma validate_ok_types_witness :
  truthy_str (e_href (sample_entity "Chat" (types ok_registry))) = true
  /\ (get_or_empty (e_fields (sample_entity "Chat" (types ok_registry))) = [] ->
      (get_or_empty (e_subtypes (sample_entity "Chat" (types ok_registry))) <> []
       \/ In "Chat" APPROVED_NO_SUBTYPES)
      /\ forall st,
           In st (get_or_empty (e_subtypes (sample_entity "Chat" (types ok_registry)))) ->
           dict_mem st (types ok_registry) = true)
  /\ (forall f,
        In f (get_or_empty (e_fields (sample_entity "Chat" (types ok_registry)))) ->
        f_types f <> [] ->
        resolves (last (f_types f) EmptyString) ok_registry).
Proof.
  apply (validate_ok_types ok_registry "Chat"
           (sample_entity "Chat" (types ok_registry))).
  - reflexivity.
  - left; reflexivity.
Defined.

Lemma validate_ok_methods_witness :
  truthy_str (e_href (sample_entity "getChat" (methods ok_registry))) = true
  /\ get_or_empty (e_returns (sample_entity "getChat" (methods ok_registry))) <> []
  /\ (forall f t,
        In f (get_or_empty (e_fields (sample_entity "getChat" (methods ok_registry)))) ->
        In t (f_types f) -> resolves t ok_registry)
  /\ (forall ret,
        In ret (get_or_empty (e_returns (sample_entity "getChat" (methods ok_registry)))) ->
        resolves ret ok_registry).
Proof.
  apply (validate_ok_methods ok_registry "getChat"
           (sample_entity "getChat" (methods ok_registry))).
  - reflexivity.
  - left; reflexivity.
Defined.

(** ** Entity Segmenter: the registry it builds *)

Lemma dict_set_keys_In {V : Type} (k x : string) (v : V) (d : dict V) :
  In x (map fst (dict_set k v d)) -> x = k \/ In x (map fst d).
Proof.
  induction d as [|[k' v'] d IH]; simpl.
  - intros [<-|[]]. now left.
  - destruct (k' =? k) eqn:E; simpl.
    + apply str_eqb_eq in E; subst. intros [<-|H]; auto.
    + intros [<-|H]; [auto|]. destruct (IH H); auto.
Qed.

Lemma dict_set_NoDup {V : Type} (k : string) (v : V) (d : dict V) :
  NoDup (map fst d) -> NoDup (map fst (dict_set k v d)).
Proof.
  induction d as [|[k' v'] d IH]; simpl; intros H.
  - constructor; [intros [] | constructor].
  - inversion H as [|? ? Hnot Hd]; subst.
    destruct (k' =? k) eqn:E; simpl.
    + apply str_eqb_eq in E; subst. now constructor.
    + constructor; [|now apply IH].
      intros Hin. apply dict_set_keys_In in Hin. destruct Hin as [->|Hin].
      * rewrite str_eqb_refl in E. discriminate E.
      * contradiction.
Qed.

Lemma dict_set_Forall {V : Type} (Q : string * V -> Prop) (k : string) (v : V)
  (d : dict V) :
  Forall Q d -> Q (k, v) -> Forall Q (dict_set k v d).
Proof.
  intros Hd Hv. induction Hd as [|[k' v'] d Hx Hd IH]; simpl.
  - now constructor.
  - destruct (k' =? k); constructor; assumption.
Qed.

Lemma set_entity_well_formed (ct : Category) (cn : string) (e : Entity)
  (registry : Items) :
  well_formed registry -> well_formed_entity ct cn e ->
  well_formed (set_entity ct cn e registry).
Proof.
  intros W We ct'. specialize (W ct') as W'.
  destruct ct, ct'; simpl; try exact W';
    (destruct W' as [N F]; split;
     [now apply dict_set_NoDup | now apply dict_set_Forall]).
Qed.

Lemma entity_well_formed (ct : Category) (cn : string) (e : Entity)
  (registry : Items) :
  well_formed registry -> entity ct cn registry = Ok e ->
  well_formed_entity ct cn e.
Proof.
  intros W H. apply entity_Ok, dict_get_In in H.
  destruct (W ct) as [_ F]. rewrite Forall_forall in F. exact (F _ H).
Qed.

Lemma get_type_and_name_well_formed (x anchor : Tag) (registry registry' : Items)
  (cn : string) (ct : Category) :
  get_type_and_name x anchor registry = Ok (cn, ct, registry') ->
  well_formed registry -> well_formed registry'.
Proof.
  unfold get_type_and_name. destruct (get_text x) as [|c s] eqn:Et; [discriminate|].
  intros [= <- <- <-] W. apply set_entity_well_formed; [exact W|].
  assert (Hcap : head_isupper (String c s)
                 = category_eqb (if isupper c then TYPES else METHODS) TYPES)
    by (simpl; destruct (isupper c); reflexivity).
  destruct (tag_get anchor "href") as [[|c0 rest]|];
    (split; [reflexivity|]; split; [discriminate|]; split; [exact Hcap|];
     split; [|repeat split; try (intros ? []); discriminate]).
  - intros ? [=].
  - intros ? [= <-]. exists (String c0 rest). split; [reflexivity | discriminate].
  - intros ? [=].
Qed.

Lemma extract_return_type_well_formed (ct : Category) (cn r : string)
  (registry registry' : Items) :
  ct = METHODS ->
  extract_return_type ct cn r registry = Ok registry' ->
  well_formed registry -> well_formed registry'.
Proof.
  unfold extract_return_type. intros Hct H W.
  destruct (array_match r); bind_ok H; injection H as <-;
    (apply set_entity_well_formed; [exact W|]);
    pose proof (entity_well_formed _ _ _ _ W E) as We;
    destruct We as [W1 [W2 [W3 [W4 [W5 [W6 [W7 W8]]]]]]];
    repeat split; try assumption; intros Ht; congruence.
Qed.

Lemma get_method_return_type_well_formed (ct : Category) (cn : string)
  (d : list string) (registry registry' : Items) :
  ct = METHODS ->
  get_method_return_type cn ct d registry = Ok registry' ->
  well_formed registry -> well_formed registry'.
Proof.
  unfold get_method_return_type. intros Hct H W.
  destruct (ret_search _).
  - eapply extract_return_type_well_formed; eassumption.
  - destruct (ret_search2 _).
    + eapply extract_return_type_well_formed; eassumption.
    + now injection H as <-.
Qed.

Lemma infer_returns_well_formed (ct : Category) (cn : string)
  (registry registry' : Items) :
  infer_returns ct cn registry = Ok registry' ->
  well_formed registry -> well_formed registry'.
Proof.
  unfold infer_returns. intros H W. destruct ct.
  - bind_ok H. destruct (truthy_list (e_description a)).
    + eapply get_method_return_type_well_formed; [reflexivity | eassumption | exact W].
    + now injection H as <-.
  - now injection H as <-.
Qed.

Lemma get_fields_row_typed (cn : string) (ct : Category) (children : list Tag)
  (f : Field) :
  get_fields_row cn ct children = Ok f -> f_types f <> [].
Proof.
  unfold get_fields_row.
  destruct ct.
  - destruct children as [|c0 [|c1 [|c2 [|c3 [|c4 r]]]]]; try discriminate.
    destruct (clean_tg_description c3); unfold bind; try discriminate.
    intros [= <-]. apply clean_tg_type_not_nil.
  - destruct children as [|c0 [|c1 [|c2 [|c3 r]]]]; try discriminate.
    destruct (clean_tg_description c2); unfold bind; try discriminate.
    intros [= <-]. apply clean_tg_type_not_nil.
Qed.

Lemma get_fields_well_formed (ct : Category) (cn : string)
  (x : option (list (list Tag))) (registry registry' : Items) :
  get_fields cn ct x registry = Ok registry' ->
  well_formed registry -> well_formed registry'.
Proof.
  unfold get_fields. intros H W. destruct x as [body|]; [|discriminate].
  bind_ok H. bind_ok H. injection H as <-.
  apply set_entity_well_formed; [exact W|].
  pose proof (entity_well_formed _ _ _ _ W E0) as We.
  destruct We as [W1 [W2 [W3 [W4 [W5 [W6 [W7 W8]]]]]]].
  repeat split; try assumption.
  simpl. intros f Hf. apply mapM_Forall2 in E.
  clear - E Hf. induction E as [|row f' body fs Hrow _ IH]; [destruct Hf|].
  destruct Hf as [<-|Hf]; [now apply get_fields_row_typed in Hrow | now apply IH].
Qed.

Lemma get_subtypes_well_formed (ct : Category) (cn : string) (x : list Tag)
  (registry registry' : Items) :
  get_subtypes cn ct x registry = Ok registry' ->
  well_formed registry -> well_formed registry'.
Proof.
  unfold get_subtypes. intros H W.
  destruct (cn =? "InputFile"); [now injection H as <-|].
  bind_ok H. bind_ok H. bind_ok H.
  destruct (e_description a1) as [d|]; [|discriminate].
  injection H as <-.
  assert (W0 : well_formed a0).
  { destruct (category_eqb ct TYPES) eqn:Ec.
    - bind_ok E0. injection E0 as <-.
      apply set_entity_well_formed; [exact W|].
      pose proof (entity_well_formed _ _ _ _ W E2) as We.
      destruct We as [W1 [W2 [W3 [W4 [W5 [W6 [W7 W8]]]]]]].
      repeat split; try assumption.
      intros ->. discriminate Ec.
    - now injection E0 as <-. }
  apply set_entity_well_formed; [exact W0|].
  pose proof (entity_well_formed _ _ _ _ W0 E1) as We.
  destruct We as [W1 [W2 [W3 [W4 [W5 [W6 [W7 W8]]]]]]].
  repeat split; assumption.
Qed.

Lemma route_well_formed (ct : Category) (cn : string) (x : Node)
  (registry registry' : Items) :
  route ct cn x registry = Ok registry' ->
  well_formed registry -> well_formed registry'.
Proof.
  unfold route. intros H W.
  destruct x as [| |h|para|tbody|lis|]; cbn [bind] in H.
  all: try (eapply infer_returns_well_formed; eassumption).
  - bind_ok H. bind_ok E. bind_ok E. injection E as <-.
    eapply infer_returns_well_formed; [eassumption|].
    apply set_entity_well_formed; [exact W|].
    pose proof (entity_well_formed _ _ _ _ W E0) as We.
    destruct We as [W1 [W2 [W3 [W4 [W5 [W6 [W7 W8]]]]]]].
    repeat split; assumption.
  - bind_ok H. eapply infer_returns_well_formed; [eassumption|].
    eapply get_fields_well_formed; eassumption.
  - bind_ok H. eapply infer_returns_well_formed; [eassumption|].
    eapply get_subtypes_well_formed; eassumption.
Qed.

Lemma step_well_formed (st st' : State) (x : Node) :
  step st x = Ok st' -> well_formed (items st) -> well_formed (items st').
Proof.
  intros H W. unfold step in H.
  assert (Hrest : forall s : State, items s = items st ->
            match curr_type s, curr_name s with
            | None, _ => Ok s
            | Some _, EmptyString => Ok s
            | Some ct, cn => items' <- route ct cn x (items s) ;;
                             Ok (mkState (Some ct) cn items')
            end = Ok st' -> well_formed (items st')).
  { intros s Hs H'. destruct (curr_type s) as [ct|].
    - destruct (curr_name s) as [|c cn].
      + injection H' as <-. now rewrite Hs.
      + bind_ok H'. injection H' as <-. simpl.
        eapply route_well_formed; [eassumption | now rewrite Hs].
    - injection H' as <-. now rewrite Hs. }
  destruct x as [| |h|para|tbody|lis|]; cbn [is_boundary] in H; cbv iota in H.
  - now injection H as <-.
  - now injection H as <-.
  - destruct (find "a" h) as [anchor|]; [|discriminate].
    destruct (match tag_get anchor "name" with
              | Some name => contains "-" name
              | None => false
              end).
    + now injection H as <-.
    + bind_ok H. destruct a as [[cn ct] registry]. bind_ok H. injection H as <-.
      simpl. eapply route_well_formed; [eassumption|].
      eapply get_type_and_name_well_formed; eassumption.
  - now apply (Hrest st).
  - now apply (Hrest st).
  - now apply (Hrest st).
  - now apply (Hrest st).
Qed.

Lemma walk_well_formed (children : list Node) (st st' : State) :
  walk st children = Ok st' -> well_formed (items st) -> well_formed (items st').
Proof.
  revert st; induction children as [|x l IH]; intros st H W.
  - now injection H as <-.
  - simpl in H. bind_ok H. eapply IH; [eassumption|].
    eapply step_well_formed; eassumption.
Qed.

Lemma retrieve_api_info_well_formed (children : list Node) (registry : Items) :
  retrieve_api_info children = Ok registry -> well_formed registry.
Proof.
  unfold retrieve_api_info. intros H. bind_ok H. injection H as <-.
  eapply walk_well_formed; [eassumption|].
  intros ct. destruct ct; (split; [constructor | constructor]).
Qed.

Lemma In_dict_get {V : Type} (k : string) (v : V) (d : dict V) :
  NoDup (map fst d) -> In (k, v) d -> dict_get k d = Some v.
Proof.
  induction d as [|[k' v'] d IH]; simpl; intros N H; [destruct H|].
  inversion N as [|? ? Hnot Hd]; subst.
  destruct H as [[= -> ->]|H].
  - now rewrite str_eqb_refl.
  - destruct (str_eqb_spec k' k) as [->|Hne]; [|now apply IH].
    exfalso. apply Hnot. change k with (fst (k, v)). now apply in_map.
Qed.

Lemma dict_mem_In {V : Type} (k : string) (d : dict V) :
  dict_mem k d = true -> exists v, In (k, v) d.
Proof.
  unfold dict_mem. destruct (dict_get k d) as [v|] eqn:E; [|discriminate].
  intros _. exists v. now apply dict_get_In.
Qed.

Lemma well_formed_In (registry : Items) (ct : Category) (k : string) (e : Entity) :
  well_formed registry -> In (k, e) (category ct registry) ->
  well_formed_entity ct k e.
Proof.
  intros W H. destruct (W ct) as [_ F]. rewrite Forall_forall in F.
  exact (F _ H).
Qed.

(** X10.  In the registry that extraction returns, the names of a
    category are all different, none is empty, every entity carries its
    key as its name, and looking a key up gives its entity. *)
Theorem registry_names (children : list Node) (registry : Items)
  (Hrun : retrieve_api_info children = Ok registry) (ct : Category) :
  NoDup (map fst (category ct registry))
  /\ forall k e, In (k, e) (category ct registry) ->
       e_name e = k /\ k <> EmptyString
       /\ dict_get k (category ct registry) = Some e.
Proof.
  pose proof (retrieve_api_info_well_formed _ _ Hrun) as W.
  destruct (W ct) as [N _]. split; [exact N|].
  intros k e H. destruct (well_formed_In _ _ _ _ W H) as [W1 [W2 _]].
  repeat split; [exact W1 | exact W2 | now apply In_dict_get].
Qed.

Lemma registry_names_witness :
  NoDup (map fst (category TYPES ok_registry))
  /\ forall k e, In (k, e) (category TYPES ok_registry) ->
       e_name e = k /\ k <> EmptyString
       /\ dict_get k (category TYPES ok_registry) = Some e.
Proof.
  apply (registry_names ok_children ok_registry). reflexivity.
Defined.

(** X11.  The category of an entity is read off its name: in the
    registry that extraction returns the keys of the types start with a
    capital letter and the keys of the methods do not, so that no name is
    a type and a method at once. *)
Theorem registry_categories (children : list Node) (registry : Items)
  (Hrun : retrieve_api_info children = Ok registry) (k : string) :
  (dict_mem k (types registry) = true -> head_isupper k = true)
  /\ (dict_mem k (methods registry) = true -> head_isupper k = false)
  /\ ~ (dict_mem k (types registry) = true /\ dict_mem k (methods registry) = true).
Proof.
  pose proof (retrieve_api_info_well_formed _ _ Hrun) as W.
  assert (Ht : dict_mem k (types registry) = true -> head_isupper k = true).
  { intros H. apply dict_mem_In in H. destruct H as [e H].
    now destruct (well_formed_In _ TYPES _ _ W H) as [_ [_ [W3 _]]]. }
  assert (Hm : dict_mem k (methods registry) = true -> head_isupper k = false).
  { intros H. apply dict_mem_In in H. destruct H as [e H].
    now destruct (well_formed_In _ METHODS _ _ W H) as [_ [_ [W3 _]]]. }
  split; [exact Ht|]. split; [exact Hm|].
  intros [H1 H2]. rewrite (Ht H1) in Hm. specialize (Hm H2). discriminate Hm.
Qed.

Lemma registry_categories_witness :
  map fst (types capital_registry) = ["Éclair"]
  /\ map fst (methods capital_registry) = ["élan"]
  /\ (dict_mem "Éclair" (types capital_registry) = true -> head_isupper "Éclair" = true)
  /\ (dict_mem "Éclair" (methods capital_registry) = true
      -> head_isupper "Éclair" = false)
  /\ ~ (dict_mem "Éclair" (types capital_registry) = true
        /\ dict_mem "Éclair" (methods capital_registry) = true).
Proof.
  split; [reflexivity|]. split; [reflexivity|].
  apply (registry_categories capital_children capital_registry). reflexivity.
Defined.

(** X12.  Extraction gives subtypes to types only and returns to methods
    only, and no entity has parents before validation: in the registry
    it returns a type has no returns, a method has no subtypes, and
    neither has [subtype_of]. *)
Theorem registry_members (children : list Node) (registry : Items)
  (Hrun : retrieve_api_info children = Ok registry) (k : string) (e : Entity) :
  (In (k, e) (types registry) -> e_returns e = None /\ e_subtype_of e = None)
  /\ (In (k, e) (methods registry) ->
      e_subtypes e = None /\ e_subtype_of e = None).
Proof.
  pose proof (retrieve_api_info_well_formed _ _ Hrun) as W.
  split; intros H.
  - destruct (well_formed_In _ TYPES _ _ W H) as [_ [_ [_ [_ [W5 [_ [W7 _]]]]]]].
    split; [now apply W7 | exact W5].
  - destruct (well_formed_In _ METHODS _ _ W H) as [_ [_ [_ [_ [W5 [W6 _]]]]]].
    split; [now apply W6 | exact W5].
Qed.

Lemma registry_members_witness :
  (In ("Chat", sample_entity "Chat" (types ok_registry)) (types ok_registry) ->
   e_returns (sample_entity "Chat" (types ok_registry)) = None
   /\ e_subtype_of (sample_entity "Chat" (types ok_registry)) = None)
  /\ (In ("Chat", sample_entity "Chat" (types ok_registry)) (methods ok_registry) ->
      e_subtypes (sample_entity "Chat" (types ok_registry)) = None
      /\ e_subtype_of (sample_entity "Chat" (types ok_registry)) = None).
Proof.
  apply (registry_members ok_children ok_registry). reflexivity.
Defined.

(** X13.  In the registry that extraction returns, a link that is there
    is the address of the page followed by a fragment that is not empty,
    and every field has at least one type. *)
Theorem registry_links_and_fields (children : list Node) (registry : Items)
  (Hrun : retrieve_api_info children = Ok registry)
  (ct : Category) (k : string) (e : Entity)
  (Hin : In (k, e) (category ct registry)) :
  (forall h, e_href e = Some h ->
     exists fragment, h = API_URL ++ fragment /\ fragment <> EmptyString)
  /\ (forall f, In f (get_or_empty (e_fields e)) -> f_types f <> []).
Proof.
  pose proof (retrieve_api_info_well_formed _ _ Hrun) as W.
  destruct (well_formed_In _ _ _ _ W Hin) as [_ [_ [_ [W4 [_ [_ [_ W8]]]]]]].
  split; assumption.
Qed.

Lemma registry_links_and_fields_witness :
  (forall h, e_href (sample_entity "getChat" (methods ok_registry)) = Some h ->
     exists fragment, h = API_URL ++ fragment /\ fragment <> EmptyString)
  /\ (forall f,
        In f (get_or_empty (e_fields (sample_entity "getChat" (methods ok_registry)))) ->
        f_types f <> []).
Proof.
  apply (registry_links_and_fields ok_children ok_registry eq_refl METHODS "getChat").
  left; reflexivity.
Defined.

(** X14.  After extraction and validation [subtype_of] holds declared
    parents only: if [B.subtype_of] contains [A], then [A] is a type of
    the registry with a link and without fields whose subtypes name
    [B]. *)
Theorem run_back_references_declared (children : list Node) (registry : Items)
  (A B : string)
  (Hrun : retrieve_api_info children = Ok registry)
  (Hlinked : linked B A (checked (validate registry))) :
  declares (types registry) A B.
Proof.
  pose proof (retrieve_api_info_well_formed _ _ Hrun) as W.
  rewrite checked_validate in Hlinked.
  apply fold_verify_type_linked_inv in Hlinked.
  destruct Hlinked as [[eB [HB HA]]|H]; [|exact H].
  simpl in HB. apply dict_get_In in HB.
  destruct (well_formed_In _ TYPES _ _ W HB) as [_ [_ [_ [_ [W5 _]]]]].
  rewrite W5 in HA. destruct HA.
Qed.

Lemma run_back_references_declared_witness :
  declares (types c6_registry') "A" "B".
Proof.
  apply (run_back_references_declared c6_children' c6_registry' "A" "B").
  - reflexivity.
  - eexists. split; [reflexivity|]. simpl. auto.
Defined.

(** ** Entity Segmenter: what it passes over *)

Lemma step_closed (st : State) (x : Node) :
  curr_type st = None -> curr_name st = EmptyString -> is_header x = false ->
  step st x = Ok st.
Proof.
  intros Ht Hn Hx. destruct st as [ct cn registry]. simpl in Ht, Hn. subst.
  destruct x; try discriminate Hx; reflexivity.
Qed.

Lemma walk_closed (nodes : list Node) (st : State) :
  curr_type st = None -> curr_name st = EmptyString -> no_header nodes = true ->
  walk st nodes = Ok st.
Proof.
  intros Ht Hn. induction nodes as [|x l IH]; intros H; [reflexivity|].
  simpl in H. apply andb_true_iff in H. destruct H as [Hx Hl].
  apply negb_true_iff in Hx.
  simpl. rewrite (step_closed st x Ht Hn Hx). simpl. now apply IH.
Qed.

(** X15.  What comes before the first header does not count: nodes
    without an [h4] among them, put before a document, change nothing of
    the run, whatever they are; in particular a document without any
    header gives the empty registry and a run that ends well. *)
Theorem main_skips_leading_nodes (pre rest : list Node)
  (Hpre : no_header pre = true) :
  main (pre ++ rest) = main rest
  /\ main pre = mkRun (Exited 0) [] (Some (mkItems [] [])).
Proof.
  assert (H : forall l, walk initial (pre ++ l) = walk initial l).
  { intros l. rewrite walk_app.
    now rewrite (walk_closed pre initial eq_refl eq_refl Hpre). }
  split.
  - unfold main, retrieve_api_info. now rewrite H.
  - unfold main, retrieve_api_info.
    rewrite <- (app_nil_r pre), H. reflexivity.
Qed.

Lemma main_skips_leading_nodes_witness :
  main ([p "Introduction."; TableNode None; Ul [li "one"]; Hr] ++ ok_children)
  = main ok_children
  /\ main [p "Introduction."; TableNode None; Ul [li "one"]; Hr]
     = mkRun (Exited 0) [] (Some (mkItems [] [])).
Proof.
  apply (main_skips_leading_nodes
           [p "Introduction."; TableNode None; Ul [li "one"]; Hr] ok_children).
  reflexivity.
Defined.

(** X16.  A boundary closes the open entity: after an [h3] or an [hr]
    the nodes up to the next header are passed over, whatever they are,
    and the walk goes on from there with the registry as it was. *)
Theorem walk_skips_after_boundary (st : State) (x : Node) (skipped rest : list Node)
  (Hx : is_boundary x = true)
  (Hskipped : no_header skipped = true) :
  walk st (x :: skipped ++ rest) = walk (clear st) rest.
Proof.
  assert (Hstep : step st x = Ok (clear st))
    by (destruct x; try discriminate Hx; reflexivity).
  cbn [walk]. rewrite Hstep. cbn [bind].
  rewrite walk_app. now rewrite (walk_closed skipped (clear st) eq_refl eq_refl Hskipped).
Qed.

Lemma walk_skips_after_boundary_witness :
  walk c3_state (H3 :: [TableNode (Some [[td "one"]]); p "Text."] ++ ok_children)
  = walk (clear c3_state) ok_children.
Proof.
  apply (walk_skips_after_boundary c3_state H3
           [TableNode (Some [[td "one"]]); p "Text."] ok_children);
    reflexivity.
Defined.

(** ** The run: how it can end *)

Lemma Tag_induction (Q : Tag -> Prop) :
  (forall s, Q (NavigableString s)) ->
  (forall name attrs children, Forall Q children -> Q (Element name attrs children)) ->
  forall t, Q t.
Proof.
  intros Hs He. fix IH 1. intros [s|name attrs children].
  - apply Hs.
  - apply He. induction children as [|c l IHl]; constructor.
    + apply IH.
    + exact IHl.
Qed.

Lemma mapM_no_exit {A B : Type} (f : A -> Result B) (l : list A)
  (code : nat) (out : list Printed) :
  Forall (fun a => forall c o, f a <> Exit c o) l -> mapM f l <> Exit code out.
Proof.
  induction 1 as [|a l Ha _ IH]; simpl; [discriminate|].
  destruct (f a) as [b| |] eqn:E; simpl.
  - destruct (mapM f l); simpl; [discriminate | exact IH | discriminate].
  - exfalso. exact (Ha _ _ eq_refl).
  - discriminate.
Qed.

Lemma replace_imgs_no_exit (t : Tag) (code : nat) (out : list Printed) :
  replace_imgs t <> Exit code out.
Proof.
  revert code out. induction t as [s|name attrs children IH] using Tag_induction;
    intros code out; simpl; [discriminate|].
  destruct (mapM replace_imgs children) as [cs| |] eqn:E; simpl.
  - destruct (name =? "img"); [destruct (attr "alt" attrs)|]; discriminate.
  - exfalso. exact (mapM_no_exit _ _ _ _ IH E).
  - discriminate.
Qed.

Lemma replace_anchors_no_exit (t : Tag) (code : nat) (out : list Printed) :
  replace_anchors t <> Exit code out.
Proof.
  revert code out. induction t as [s|name attrs children IH] using Tag_induction;
    intros code out; [discriminate|].
  cbn [replace_anchors].
  destruct (mapM replace_anchors children) as [cs| |] eqn:E; unfold bind.
  - destruct (name =? "a"); [|discriminate].
    destruct (negb _); [discriminate|].
    destruct (attr "href" attrs); discriminate.
  - exfalso. exact (mapM_no_exit _ _ _ _ IH E).
  - discriminate.
Qed.

Lemma mapM_no_exit_all {A B : Type} (f : A -> Result B) (l : list A)
  (code : nat) (out : list Printed) :
  (forall a c o, f a <> Exit c o) -> mapM f l <> Exit code out.
Proof.
  intros H. apply mapM_no_exit. apply Forall_forall. intros a _. apply H.
Qed.

Lemma clean_tg_description_no_exit (t : Tag) (code : nat) (out : list Printed) :
  clean_tg_description t <> Exit code out.
Proof.
  unfold clean_tg_description. destruct t as [s|name attrs children]; [discriminate|].
  destruct (mapM replace_imgs children) as [cs| |] eqn:E; unfold bind.
  - destruct (mapM replace_anchors (map replace_brs cs)) as [cs'| |] eqn:E'.
    + discriminate.
    + exfalso. exact (mapM_no_exit_all _ _ _ _ replace_anchors_no_exit E').
    + discriminate.
  - exfalso. exact (mapM_no_exit_all _ _ _ _ replace_imgs_no_exit E).
  - discriminate.
Qed.

Lemma entity_no_exit (ct : Category) (cn : string) (registry : Items)
  (code : nat) (out : list Printed) :
  entity ct cn registry <> Exit code out.
Proof. unfold entity. destruct (dict_get cn _); discriminate. Qed.

Lemma get_fields_row_exit (cn : string) (ct : Category) (children : list Tag)
  (code : nat) (out : list Printed) :
  get_fields_row cn ct children = Exit code out ->
  code = 1 /\ out = row_diagnostic cn ct children
  /\ List.length children <> expected_columns ct.
Proof.
  unfold get_fields_row, row_diagnostic.
  destruct ct.
  - destruct children as [|c0 [|c1 [|c2 [|c3 [|c4 r]]]]];
      try (intros [= <- <-]; repeat split; simpl; lia).
    destruct (clean_tg_description c3) eqn:E; unfold bind; try discriminate.
    intros _. exfalso. exact (clean_tg_description_no_exit _ _ _ E).
  - destruct children as [|c0 [|c1 [|c2 [|c3 r]]]];
      try (intros [= <- <-]; repeat split; simpl; lia).
    destruct (clean_tg_description c2) eqn:E; unfold bind; try discriminate.
    intros _. exfalso. exact (clean_tg_description_no_exit _ _ _ E).
Qed.

Lemma mapM_exit {A B : Type} (f : A -> Result B) (l : list A)
  (code : nat) (out : list Printed) :
  mapM f l = Exit code out -> exists a, In a l /\ f a = Exit code out.
Proof.
  induction l as [|a l IH]; simpl; [discriminate|].
  destruct (f a) as [b| |] eqn:E; simpl.
  - destruct (mapM f l); simpl; try discriminate.
    intros H. destruct (IH H) as [a' [Hin Ha]]. exists a'. auto.
  - intros [= <- <-]. exists a. auto.
  - discriminate.
Qed.

Lemma bind_exit {A B : Type} (r : Result A) (k : A -> Result B)
  (code : nat) (out : list Printed) :
  bind r k = Exit code out ->
  r = Exit code out \/ exists a, r = Ok a /\ k a = Exit code out.
Proof.
  destruct r as [a| |]; simpl; intros H.
  - right. now exists a.
  - left. injection H as <- <-. reflexivity.
  - discriminate H.
Qed.

Lemma extract_return_type_no_exit (ct : Category) (cn r : string)
  (registry : Items) (code : nat) (out : list Printed) :
  extract_return_type ct cn r registry <> Exit code out.
Proof.
  unfold extract_return_type.
  destruct (array_match r); destruct (entity ct cn registry) eqn:E;
    try discriminate; exfalso; exact (entity_no_exit _ _ _ _ _ E).
Qed.

Lemma infer_returns_no_exit (ct : Category) (cn : string) (registry : Items)
  (code : nat) (out : list Printed) :
  infer_returns ct cn registry <> Exit code out.
Proof.
  unfold infer_returns. destruct ct; [|discriminate].
  destruct (entity METHODS cn registry) as [e| |] eqn:E; unfold bind.
  - destruct (truthy_list (e_description e)); [|discriminate].
    unfold get_method_return_type.
    destruct (ret_search _); [apply extract_return_type_no_exit|].
    destruct (ret_search2 _); [apply extract_return_type_no_exit | discriminate].
  - exfalso. exact (entity_no_exit _ _ _ _ _ E).
  - discriminate.
Qed.

Lemma get_subtypes_no_exit (ct : Category) (cn : string) (x : list Tag)
  (registry : Items) (code : nat) (out : list Printed) :
  get_subtypes cn ct x registry <> Exit code out.
Proof.
  unfold get_subtypes. destruct (cn =? "InputFile"); [discriminate|].
  intros H. apply bind_exit in H. destruct H as [H|[texts [_ H]]].
  - exact (mapM_no_exit_all _ _ _ _ clean_tg_description_no_exit H).
  - apply bind_exit in H. destruct H as [H|[registry1 [_ H]]].
    + destruct (category_eqb ct TYPES); [|discriminate H].
      apply bind_exit in H. destruct H as [H|[e [_ H]]]; [|discriminate H].
      exact (entity_no_exit _ _ _ _ _ H).
    + apply bind_exit in H. destruct H as [H|[e [_ H]]].
      * exact (entity_no_exit _ _ _ _ _ H).
      * destruct (e_description e); discriminate H.
Qed.

Lemma get_fields_exit (ct : Category) (cn : string)
  (tbody : option (list (list Tag))) (registry : Items)
  (code : nat) (out : list Printed) :
  get_fields cn ct tbody registry = Exit code out ->
  row_exit (TableNode tbody) code out.
Proof.
  unfold get_fields. destruct tbody as [body|]; [|discriminate].
  intros H. apply bind_exit in H. destruct H as [H|[fs [_ H]]].
  - apply mapM_exit in H. destruct H as [row [Hin Hrow]].
    apply get_fields_row_exit in Hrow. destruct Hrow as [-> [-> Hlen]].
    split; [reflexivity|]. exists cn, ct, body, row. auto.
  - apply bind_exit in H. destruct H as [H|[e [_ H]]]; [|discriminate H].
    exfalso. exact (entity_no_exit _ _ _ _ _ H).
Qed.

Lemma route_exit (ct : Category) (cn : string) (x : Node) (registry : Items)
  (code : nat) (out : list Printed) :
  route ct cn x registry = Exit code out -> row_exit x code out.
Proof.
  unfold route. intros H.
  apply bind_exit in H. destruct H as [H|[r1 [_ H]]].
  - exfalso. destruct x; try discriminate H.
    apply bind_exit in H. destruct H as [H|[e [_ H]]].
    + exact (entity_no_exit _ _ _ _ _ H).
    + apply bind_exit in H. destruct H as [H|[text [_ H]]]; [|discriminate H].
      exact (clean_tg_description_no_exit _ _ _ H).
  - apply bind_exit in H. destruct H as [H|[r2 [_ H]]].
    + destruct x; try discriminate H. now apply get_fields_exit in H.
    + exfalso. apply bind_exit in H. destruct H as [H|[r3 [_ H]]].
      * destruct x; try discriminate H. exact (get_subtypes_no_exit _ _ _ _ _ _ H).
      * exact (infer_returns_no_exit _ _ _ _ _ H).
Qed.

Lemma step_exit (st : State) (x : Node) (code : nat) (out : list Printed) :
  step st x = Exit code out -> row_exit x code out.
Proof.
  unfold step. intros H.
  assert (Hrest : forall s : State,
            match curr_type s, curr_name s with
            | None, _ => Ok s
            | Some _, EmptyString => Ok s
            | Some ct, cn => items' <- route ct cn x (items s) ;;
                             Ok (mkState (Some ct) cn items')
            end = Exit code out -> row_exit x code out).
  { intros s H'. destruct (curr_type s) as [ct|]; [|discriminate H'].
    destruct (curr_name s) as [|c cn]; [discriminate H'|].
    apply bind_exit in H'. destruct H' as [H'|[r [_ H']]]; [|discriminate H'].
    now apply route_exit in H'. }
  destruct x as [| |h|para|tbody|lis|]; cbn [is_boundary] in H; cbv iota in H;
    try (now apply (Hrest st)); try discriminate H.
  destruct (find "a" h) as [anchor|]; [|discriminate H].
  destruct (match tag_get anchor "name" with
            | Some name => contains "-" name
            | None => false
            end); [discriminate H|].
  apply bind_exit in H. destruct H as [H|[[[cn ct] r] [_ H]]].
  - unfold get_type_and_name in H. destruct (get_text h); discriminate H.
  - apply bind_exit in H. destruct H as [H|[r' [_ H]]]; [|discriminate H].
    now apply route_exit in H.
Qed.

Lemma walk_exit (children : list Node) (st : State) (code : nat)
  (out : list Printed) :
  walk st children = Exit code out ->
  exists x, In x children /\ row_exit x code out.
Proof.
  revert st; induction children as [|x l IH]; intros st H; [discriminate H|].
  simpl in H. apply bind_exit in H. destruct H as [H|[st' [_ H]]].
  - exists x. split; [now left | now apply step_exit in H].
  - destruct (IH _ H) as [x' [Hin Hx]]. exists x'. split; [now right | exact Hx].
Qed.

(** X17.  Extraction exits in one way only: when it ends by [exit], the
    status is 1 and what was printed is the diagnostic of a row of a
    table of the document whose number of cells is not the one of the
    category. *)
Theorem retrieve_api_info_exit (children : list Node) (code : nat)
  (out : list Printed)
  (Hexit : retrieve_api_info children = Exit code out) :
  code = 1
  /\ exists cn ct body row,
       In (TableNode (Some body)) children /\ In row body
       /\ List.length row <> expected_columns ct
       /\ out = row_diagnostic cn ct row.
Proof.
  unfold retrieve_api_info in Hexit.
  apply bind_exit in Hexit. destruct Hexit as [H|[st [_ H]]]; [|discriminate H].
  apply walk_exit in H. destruct H as [x [Hin [Hcode [cn [ct [body [row [-> H]]]]]]]].
  split; [exact Hcode|]. exists cn, ct, body, row. tauto.
Qed.

Lemma retrieve_api_info_exit_witness :
  1 = 1
  /\ exists cn ct body row,
       In (TableNode (Some body))
          (c3_pre ++ [TableNode (Some (c3_before ++ [c3_row])%list)])
       /\ In row body
       /\ List.length row <> expected_columns ct
       /\ row_diagnostic "Chat" TYPES c3_row = row_diagnostic cn ct row.
Proof.
  apply (retrieve_api_info_exit
           (c3_pre ++ [TableNode (Some (c3_before ++ [c3_row])%list)]) 1
           (row_diagnostic "Chat" TYPES c3_row)).
  reflexivity.
Defined.

(** X18.  The registry is written exactly when the run ends with status
    0; it is then the extracted registry as validation left it, no
    defect was found, and what was printed is what validation printed. *)
Theorem main_artifact (children : list Node) :
  (status (main children) = Exited 0
   <-> exists registry, artifact (main children) = Some registry)
  /\ forall registry, artifact (main children) = Some registry ->
       exists extracted,
         retrieve_api_info children = Ok extracted
         /\ issue_found (validate extracted) = false
         /\ registry = checked (validate extracted)
         /\ stdout (main children) = printed (validate extracted).
Proof.
  unfold main.
  destruct (retrieve_api_info children) as [extracted|code out|e] eqn:E.
  - destruct (issue_found (validate extracted)) eqn:Ei; simpl; split.
    + split; [discriminate | intros [r [=]]].
    + intros r [=].
    + split; [intros _; eexists; reflexivity | reflexivity].
    + intros r [= <-]. exists extracted. auto.
  - destruct (walk_exit children initial code out) as [x [_ [-> _]]].
    { unfold retrieve_api_info in E. apply bind_exit in E.
      destruct E as [E|[st [_ E]]]; [exact E | discriminate E]. }
    simpl. split; [split; [discriminate | intros [r [=]]] | intros r [=]].
  - simpl. split; [split; [discriminate | intros [r [=]]] | intros r [=]].
Qed.

(** ** Return-Type Inferrer: reading again, and arrays *)

Lemma dict_set_set {V : Type} (k : string) (v v' : V) (d : dict V) :
  dict_set k v (dict_set k v' d) = dict_set k v d.
Proof.
  induction d as [|[k0 v0] d IH]; simpl.
  - now rewrite str_eqb_refl.
  - destruct (k0 =? k) eqn:E; simpl.
    + now rewrite str_eqb_refl.
    + now rewrite E, IH.
Qed.

Lemma set_entity_set_entity (ct : Category) (cn : string) (e e' : Entity)
  (registry : Items) :
  set_entity ct cn e (set_entity ct cn e' registry) = set_entity ct cn e registry.
Proof.
  unfold set_entity. destruct ct; simpl; now rewrite dict_set_set.
Qed.

Lemma extract_return_type_again (ct : Category) (cn r : string)
  (registry registry' : Items) :
  extract_return_type ct cn r registry = Ok registry' ->
  extract_return_type ct cn r registry' = Ok registry'.
Proof.
  unfold extract_return_type. intros H.
  destruct (array_match r); bind_ok H; injection H as <-;
    rewrite entity_set_entity; unfold bind;
    now rewrite set_entity_set_entity.
Qed.

Lemma get_method_return_type_repeat (cn : string) (ct : Category)
  (description_items : list string) (registry registry' : Items)
  (Hrun : get_method_return_type cn ct description_items registry = Ok registry') :
  get_method_return_type cn ct description_items registry' = Ok registry'.
Proof.
  unfold get_method_return_type in *.
  destruct (ret_search _).
  - eapply extract_return_type_again; eassumption.
  - destruct (ret_search2 _).
    + eapply extract_return_type_again; eassumption.
    + now injection Hrun as <-.
Qed.

(** X19.  Reading the return type again changes nothing: when the
    inferrer has run on a description, running it once more on the same
    description leaves the registry as the first run left it. *)
Theorem get_method_return_type_again (cn : string) (ct : Category)
  (description_items : list string) (registry registry' : Items)
  (Hrun : get_method_return_type cn ct description_items registry = Ok registry') :
  get_method_return_type cn ct description_items registry' = Ok registry'.
Proof. eapply get_method_return_type_repeat; eassumption. Qed.

Lemma get_method_return_type_again_witness :
  get_method_return_type "sendMediaGroup" METHODS
    ["On success, an array of Messages that were sent is returned."]
    (set_entity METHODS "sendMediaGroup"
       (set_returns ["Array of Message"]
          (sample_entity "sendMediaGroup" (methods send_registry)))
       send_registry)
  = Ok (set_entity METHODS "sendMediaGroup"
          (set_returns ["Array of Message"]
             (sample_entity "sendMediaGroup" (methods send_registry)))
          send_registry).
Proof.
  apply (get_method_return_type_again "sendMediaGroup" METHODS
           ["On success, an array of Messages that were sent is returned."]
           send_registry).
  reflexivity.
Defined.

Lemma extract_return_type_description (ct : Category) (cn r : string)
  (registry registry' : Items) (e : Entity) :
  extract_return_type ct cn r registry = Ok registry' ->
  entity ct cn registry = Ok e ->
  exists e', entity ct cn registry' = Ok e'
             /\ e_description e' = e_description e.
Proof.
  unfold extract_return_type. intros H He.
  destruct (array_match r); rewrite He in H; unfold bind in H;
    injection H as <-; rewrite entity_set_entity; eexists; split; reflexivity.
Qed.

Lemma infer_returns_again (ct : Category) (cn : string)
  (registry registry' : Items) :
  infer_returns ct cn registry = Ok registry' ->
  infer_returns ct cn registry' = Ok registry'.
Proof.
  unfold infer_returns. destruct ct; [|now intros [= <-]].
  intros H. bind_ok H.
  destruct (truthy_list (e_description a)) eqn:Et.
  - assert (He : exists e', entity METHODS cn registry' = Ok e'
                            /\ e_description e' = e_description a).
    { unfold get_method_return_type in H.
      destruct (ret_search _).
      - eapply extract_return_type_description; eassumption.
      - destruct (ret_search2 _).
        + eapply extract_return_type_description; eassumption.
        + injection H as <-. now exists a. }
    destruct He as [e' [He' Hd]]. rewrite He'. unfold bind. rewrite Hd, Et.
    eapply get_method_return_type_repeat; eassumption.
  - injection H as <-. rewrite E. unfold bind. now rewrite Et.
Qed.

Lemma route_other_node (ct : Category) (cn : string) (x : Node)
  (registry registry' : Items) :
  route ct cn x registry = Ok registry' ->
  route ct cn OtherNode registry' = Ok registry'.
Proof.
  unfold route. intros H. cbn [bind].
  bind_ok H. bind_ok H. bind_ok H. eapply infer_returns_again; eassumption.
Qed.

(** X20.  A node that is none of the walker's kinds, as the text between
    two elements, is harmless wherever it stands: after any step of the
    walk, such a node leaves the walker's state as it is. *)
Theorem step_other_node (st st' : State) (x : Node)
  (Hstep : step st x = Ok st') :
  step st' OtherNode = Ok st'.
Proof.
  assert (Hopen : forall ct cn registry,
            route ct cn x registry = Ok (items st') ->
            curr_type st' = Some ct -> curr_name st' = cn ->
            step st' OtherNode = Ok st').
  { intros ct cn registry Hr Hct Hcn. unfold step. cbn [is_boundary]. cbv iota.
    rewrite Hct, Hcn. destruct cn as [|c cn]; [reflexivity|].
    rewrite (route_other_node _ _ _ _ _ Hr). unfold bind.
    destruct st' as [ct' cn' registry']. simpl in *. now subst. }
  assert (Hclosed : forall s : State, curr_type s = None ->
            step s OtherNode = Ok s).
  { intros s Hs. unfold step. cbn [is_boundary]. cbv iota. now rewrite Hs. }
  assert (Hrest : forall s : State,
            match curr_type s, curr_name s with
            | None, _ => Ok s
            | Some _, EmptyString => Ok s
            | Some ct, cn => items' <- route ct cn x (items s) ;;
                             Ok (mkState (Some ct) cn items')
            end = Ok st' -> step st' OtherNode = Ok st').
  { intros s H. destruct (curr_type s) as [ct|] eqn:Ect.
    - destruct (curr_name s) as [|c cn] eqn:Ecn.
      + injection H as <-. unfold step. cbn [is_boundary]. cbv iota.
        now rewrite Ect, Ecn.
      + bind_ok H. injection H as <-.
        now apply (Hopen ct (String c cn) (items s)).
    - injection H as <-. now apply Hclosed. }
  unfold step in Hstep.
  destruct x as [| |h|para|tbody|lis|]; cbn [is_boundary] in Hstep;
    cbv iota in Hstep; try (now apply (Hrest st)).
  - injection Hstep as <-. now apply Hclosed.
  - injection Hstep as <-. now apply Hclosed.
  - destruct (find "a" h) as [anchor|]; [|discriminate Hstep].
    destruct (match tag_get anchor "name" with
              | Some name => contains "-" name
              | None => false
              end).
    + injection Hstep as <-. now apply Hclosed.
    + bind_ok Hstep. destruct a as [[cn ct] registry]. bind_ok Hstep.
      injection Hstep as <-. now apply (Hopen ct cn registry).
Qed.

Lemma step_other_node_witness :
  step c3_state OtherNode = Ok c3_state.
Proof.
  apply (step_other_node
           (mkState (Some TYPES) "Chat"
              (mkItems [] [("Chat", set_href (API_URL ++ "#chat") (new_entity "Chat"))]))
           c3_state (p "A chat.")).
  reflexivity.
Defined.

(** The blank characters, one by one. *)
Lemma isspace_cases (c : char) :
  isspace c = true ->
  In c [0x9; 0xA; 0xB; 0xC; 0xD; 0x1C; 0x1D; 0x1E; 0x1F; 0x20; 0x85; 0xA0;
        0x1680; 0x2000; 0x2001; 0x2002; 0x2003; 0x2004; 0x2005; 0x2006;
        0x2007; 0x2008; 0x2009; 0x200A; 0x2028; 0x2029; 0x202F; 0x205F;
        0x3000]%N.
Proof.
  unfold isspace, in_ranges, WHITESPACE. cbn [existsb fst snd].
  rewrite !orb_true_iff, !andb_true_iff, !N.leb_le. cbn [In]. lia.
Qed.

Lemma isword_not_space (c : char) : isword c = true -> isspace c = false.
Proof.
  intros H. destruct (isspace c) eqn:E; [|reflexivity].
  apply isspace_cases in E. cbn [In] in E.
  repeat (destruct E as [<- | E]; [vm_compute in H; discriminate H|]).
  destruct E.
Qed.

Lemma span_word_all_word (s : string) : all_word (span_word s) = true.
Proof.
  induction s as [|c s IH]; [reflexivity|].
  cbn [span_word]. destruct (isword c) eqn:E; [|reflexivity].
  cbn [all_word]. now rewrite E.
Qed.

Lemma array_match_all_word (s g : string) :
  array_match s = Some g -> all_word g = true.
Proof.
  induction s as [|c s IH]; cbn [array_match].
  - discriminate.
  - destruct (imatch "array of " (String c s)); [|exact IH].
    intros [= <-]. apply span_word_all_word.
Qed.

Lemma startswith_all_word (q s : string) :
  startswith q s = true -> all_word s = true -> all_word q = true.
Proof.
  revert s; induction q as [|a q IH]; intros s H W; [reflexivity|].
  destruct s as [|b s]; [discriminate H|].
  cbn [startswith] in H. apply andb_true_iff in H. destruct H as [Hab H].
  apply N.eqb_eq in Hab. subst b.
  cbn [all_word] in W |- *. apply andb_true_iff in W. destruct W as [Wa W].
  now rewrite Wa, (IH s H W).
Qed.

Lemma contains_all_word (q s : string) :
  all_word q = false -> all_word s = true -> contains q s = false.
Proof.
  intros Hq. induction s as [|c s IH]; intros W.
  - cbn [contains]. rewrite orb_false_r.
    destruct (startswith q EmptyString) eqn:E; [|reflexivity].
    rewrite (startswith_all_word _ _ E W) in Hq. discriminate Hq.
  - cbn [contains]. apply orb_false_iff. split.
    + destruct (startswith q (String c s)) eqn:E; [|reflexivity].
      rewrite (startswith_all_word _ _ E W) in Hq. discriminate Hq.
    + apply IH. cbn [all_word] in W. apply andb_true_iff in W. tauto.
Qed.

Lemma strip_all_word (s : string) : all_word s = true -> strip s = s.
Proof.
  intros W. unfold strip.
  assert (Hl : lstrip s = s).
  { destruct s as [|c s]; [reflexivity|]. cbn [all_word] in W.
    apply andb_true_iff in W. destruct W as [Wc _].
    cbn [lstrip]. now rewrite (isword_not_space _ Wc). }
  rewrite Hl. clear Hl. induction s as [|c s IH]; [reflexivity|].
  cbn [all_word] in W. apply andb_true_iff in W. destruct W as [Wc W].
  cbn [rstrip]. rewrite (IH W). destruct s; [|reflexivity].
  now rewrite (isword_not_space _ Wc).
Qed.

(** X21.  A return clause that names an array gives one return type, one
    array deep: when the search for "array of" succeeds, its group is a
    single word, and the returns are set to that word's canonical name
    behind one marker, however many times "array of" was repeated. *)
Theorem extract_return_type_array (ct : Category) (cn ret_str g : string)
  (registry : Items) (e : Entity)
  (Hmatch : array_match ret_str = Some g)
  (He : entity ct cn registry = Ok e) :
  all_word g = true
  /\ extract_return_type ct cn ret_str registry
     = Ok (set_entity ct cn (set_returns [ARRAY_OF ++ get_proper_type g] e) registry).
Proof.
  pose proof (array_match_all_word _ _ Hmatch) as W. split; [exact W|].
  unfold extract_return_type. rewrite Hmatch, He. unfold bind.
  rewrite (clean_tg_type_one g) by
    (first [apply contains_all_word; [reflexivity | exact W]
           | destruct (startswith ARRAY_OF g) eqn:E; [|reflexivity];
             pose proof (startswith_all_word _ _ E W) as Hc; discriminate Hc]).
  now rewrite (strip_all_word _ W).
Qed.

Lemma extract_return_type_array_witness :
  all_word "Überber" = true
  /\ extract_return_type METHODS "sendMediaGroup"
       "an Array of Array of Überber objects" send_registry
     = Ok (set_entity METHODS "sendMediaGroup"
             (set_returns [ARRAY_OF ++ get_proper_type "Überber"]
                (sample_entity "sendMediaGroup" (methods send_registry)))
             send_registry).
Proof.
  apply (extract_return_type_array METHODS "sendMediaGroup"
           "an Array of Array of Überber objects" "Überber" send_registry);
    reflexivity.
Defined.

(** ** Subtype/Enumeration Extractor: a list under a described entity *)

(** X22.  For an entity that has a description and is not [InputFile],
    a list whose items are normalized without error is recorded in full:
    every item is appended to the description behind "- ", in order, and
    for a type the items become its subtypes, while a method gets none;
    nothing else of the entity and no other entity changes. *)
Theorem get_subtypes_appends (cn : string) (ct : Category) (x : list Tag)
  (texts d : list string) (registry : Items) (e : Entity)
  (Hname : cn <> "InputFile")
  (Hitems : mapM clean_tg_description x = Ok texts)
  (He : entity ct cn registry = Ok e)
  (Hd : e_description e = Some d) :
  get_subtypes cn ct x registry
  = Ok (set_entity ct cn
          (set_description (d ++ map (fun s => "- " ++ s) texts)
             (if category_eqb ct TYPES then set_subtypes texts e else e))
          registry).
Proof.
  unfold get_subtypes. apply str_eqb_neq in Hname. rewrite Hname, Hitems.
  unfold bind at 1. destruct (category_eqb ct TYPES).
  - rewrite He. unfold bind at 2. unfold bind at 1.
    rewrite entity_set_entity. unfold bind. simpl e_description. rewrite Hd.
    now rewrite set_entity_set_entity.
  - unfold bind at 1. rewrite He. unfold bind. now rewrite Hd.
Qed.

Lemma get_subtypes_appends_witness :
  get_subtypes "Chat" TYPES [li "private"; li "group"] (items c3_state)
  = Ok (set_entity TYPES "Chat"
          (set_description (["A chat."] ++ map (fun s => "- " ++ s) ["private"; "group"])
             (if category_eqb TYPES TYPES
              then set_subtypes ["private"; "group"]
                     (sample_entity "Chat" (types (items c3_state)))
              else sample_entity "Chat" (types (items c3_state))))
          (items c3_state)).
Proof.
  apply (get_subtypes_appends "Chat" TYPES [li "private"; li "group"]
           ["private"; "group"] ["A chat."] (items c3_state)).
  - discriminate.
  - reflexivity.
  - reflexivity.
  - reflexivity.
Defined.

(** ** Text Normalizer: when it fails *)

Lemma mapM_replace_imgs (l : list Tag) :
  Forall (fun t =>
            (images_have_alt t = true ->
             exists t', replace_imgs t = Ok t'
                        /\ (anchors_have_href t = true -> anchors_have_href t' = true))
            /\ (images_have_alt t = false -> replace_imgs t = Raise ValueError)) l ->
  (forallb images_have_alt l = true ->
   exists l', mapM replace_imgs l = Ok l'
              /\ (forallb anchors_have_href l = true ->
                  forallb anchors_have_href l' = true))
  /\ (forallb images_have_alt l = false -> mapM replace_imgs l = Raise ValueError).
Proof.
  induction 1 as [|t l [Hok Hbad] _ [IHok IHbad]]; simpl.
  - split; [intros _; exists []; split; [reflexivity | auto] | discriminate].
  - split.
    + intros H. apply andb_true_iff in H. destruct H as [H1 H2].
      destruct (Hok H1) as [t' [Ht' Ha]]. destruct (IHok H2) as [l' [Hl' Hla]].
      rewrite Ht', Hl'. simpl. eexists; split; [reflexivity|].
      simpl. intros H. apply andb_true_iff in H. destruct H as [H3 H4].
      now rewrite (Ha H3), (Hla H4).
    + intros H. destruct (images_have_alt t) eqn:E.
      * destruct (Hok eq_refl) as [t' [Ht' _]]. rewrite Ht'. simpl in H |- *.
        now rewrite (IHbad H).
      * now rewrite (Hbad eq_refl).
Qed.

Lemma replace_imgs_spec (t : Tag) :
  (images_have_alt t = true ->
   exists t', replace_imgs t = Ok t'
              /\ (anchors_have_href t = true -> anchors_have_href t' = true))
  /\ (images_have_alt t = false -> replace_imgs t = Raise ValueError).
Proof.
  induction t as [s|name attrs children IH] using Tag_induction.
  - split; [intros _; eexists; split; [reflexivity | auto] | discriminate].
  - apply mapM_replace_imgs in IH. destruct IH as [IHok IHbad].
    cbn [replace_imgs images_have_alt]. split.
    + intros H. apply andb_true_iff in H. destruct H as [H1 H2].
      destruct (IHok H2) as [l' [Hl' Hla]]. rewrite Hl'. unfold bind.
      destruct (name =? "img").
      * destruct (attr "alt" attrs); [|discriminate H1].
        eexists; split; [reflexivity | reflexivity].
      * eexists; split; [reflexivity|].
        cbn [anchors_have_href]. intros H. apply andb_true_iff in H.
        destruct H as [H3 H4]. now rewrite H3, (Hla H4).
    + intros H. destruct (forallb images_have_alt children) eqn:E.
      * destruct (IHok eq_refl) as [l' [Hl' _]]. rewrite Hl'. unfold bind.
        rewrite andb_true_r in H.
        destruct (name =? "img"); [|discriminate H].
        destruct (attr "alt" attrs); [discriminate H | reflexivity].
      * now rewrite (IHbad eq_refl).
Qed.

Lemma replace_brs_anchors (t : Tag) :
  anchors_have_href t = true -> anchors_have_href (replace_brs t) = true.
Proof.
  induction t as [s|name attrs children IH] using Tag_induction; [auto|].
  cbn [replace_brs anchors_have_href]. intros H.
  destruct (name =? "br"); [reflexivity|].
  apply andb_true_iff in H. destruct H as [H1 H2].
  cbn [anchors_have_href]. rewrite H1. simpl.
  clear H1. induction IH as [|c l Hc _ IHl]; [reflexivity|].
  simpl in H2 |- *. apply andb_true_iff in H2. destruct H2 as [H3 H4].
  now rewrite (Hc H3), (IHl H4).
Qed.

Lemma mapM_replace_anchors (l : list Tag) :
  Forall (fun t => anchors_have_href t = true -> exists t', replace_anchors t = Ok t') l ->
  forallb anchors_have_href l = true -> exists l', mapM replace_anchors l = Ok l'.
Proof.
  induction 1 as [|t l Ht _ IH]; simpl; intros H; [now exists []|].
  apply andb_true_iff in H. destruct H as [H1 H2].
  destruct (Ht H1) as [t' ->]. destruct (IH H2) as [l' ->].
  simpl. eexists; reflexivity.
Qed.

Lemma replace_anchors_ok (t : Tag) :
  anchors_have_href t = true -> exists t', replace_anchors t = Ok t'.
Proof.
  induction t as [s|name attrs children IH] using Tag_induction.
  - intros _. eexists; reflexivity.
  - cbn [replace_anchors anchors_have_href]. intros H.
    apply andb_true_iff in H. destruct H as [H1 H2].
    destruct (mapM_replace_anchors _ IH H2) as [l' ->]. unfold bind.
    destruct (name =? "a"); [|eexists; reflexivity].
    destruct (negb _); [eexists; reflexivity|].
    destruct (attr "href" attrs); [eexists; reflexivity | discriminate H1].
Qed.

Lemma forallb_map_replace_brs (l : list Tag) :
  forallb anchors_have_href l = true ->
  forallb anchors_have_href (map replace_brs l) = true.
Proof.
  induction l as [|c l IH]; simpl; [auto|]. intros H.
  apply andb_true_iff in H. destruct H as [H1 H2].
  now rewrite (replace_brs_anchors _ H1), (IH H2).
Qed.

(** X23.  The normalizer succeeds on every element in which each image
    has an alternative text and each anchor has a link. *)
Theorem clean_tg_description_succeeds (name : string)
  (attrs : list (string * string)) (children : list Tag)
  (Himages : forallb images_have_alt children = true)
  (Hanchors : forallb anchors_have_href children = true) :
  exists text, clean_tg_description (Element name attrs children) = Ok text.
Proof.
  unfold clean_tg_description.
  assert (Hall : Forall (fun t =>
            (images_have_alt t = true ->
             exists t', replace_imgs t = Ok t'
                        /\ (anchors_have_href t = true -> anchors_have_href t' = true))
            /\ (images_have_alt t = false -> replace_imgs t = Raise ValueError))
            children)
    by (apply Forall_forall; intros t _; apply replace_imgs_spec).
  destruct (mapM_replace_imgs _ Hall) as [Hok _].
  destruct (Hok Himages) as [l' [-> Ha]]. unfold bind at 1.
  assert (Hall' : Forall (fun t => anchors_have_href t = true ->
                                  exists t', replace_anchors t = Ok t')
                         (map replace_brs l'))
    by (apply Forall_forall; intros t _; apply replace_anchors_ok).
  destruct (mapM_replace_anchors _ Hall' (forallb_map_replace_brs _ (Ha Hanchors)))
    as [l'' ->].
  unfold bind. eexists; reflexivity.
Qed.

Lemma clean_tg_description_succeeds_witness :
  exists text, clean_tg_description rich_paragraph = Ok text.
Proof.
  apply (clean_tg_description_succeeds "p" []); reflexivity.
Defined.

(** X24.  An image without alternative text, anywhere below the element,
    makes the normalizer raise [ValueError]; the images are replaced
    before the anchors are looked at, so that is the error even when an
    anchor has no link. *)
Theorem clean_tg_description_image_without_alt (name : string)
  (attrs : list (string * string)) (children : list Tag)
  (Himages : forallb images_have_alt children = false) :
  clean_tg_description (Element name attrs children) = Raise ValueError.
Proof.
  unfold clean_tg_description.
  assert (Hall : Forall (fun t =>
            (images_have_alt t = true ->
             exists t', replace_imgs t = Ok t'
                        /\ (anchors_have_href t = true -> anchors_have_href t' = true))
            /\ (images_have_alt t = false -> replace_imgs t = Raise ValueError))
            children)
    by (apply Forall_forall; intros t _; apply replace_imgs_spec).
  destruct (mapM_replace_imgs _ Hall) as [_ Hbad].
  now rewrite (Hbad Himages).
Qed.

Lemma clean_tg_description_image_without_alt_witness :
  clean_tg_description poor_paragraph = Raise ValueError.
Proof.
  apply (clean_tg_description_image_without_alt "p" []). reflexivity.
Defined.

(** ** Text Normalizer: the text it gives *)

Lemma collapse_ws_tidy (s : string) (b : bool) : tidy b (collapse_ws b s) = true.
Proof.
  revert b; induction s as [|c s IH]; intros b; [reflexivity|].
  cbn [collapse_ws]. destruct (isspace c) eqn:E.
  - destruct b; [apply IH|]. cbn [tidy]. now rewrite IH.
  - cbn [tidy]. rewrite E. apply IH.
Qed.

Lemma tidy_app_no_space (n x : string) (b : bool) :
  no_space n = true -> n <> EmptyString -> tidy b (n ++ x) = tidy false x.
Proof.
  revert b; induction n as [|c n IH]; intros b Hn Hne; [congruence|].
  cbn [no_space] in Hn. apply andb_true_iff in Hn. destruct Hn as [Hc Hn].
  apply negb_true_iff in Hc. simpl. rewrite Hc.
  destruct n as [|c' n']; [reflexivity|]. apply IH; [exact Hn | discriminate].
Qed.

Lemma startswith_no_space_prefix (q s : string) :
  startswith q s = true -> no_space q = true ->
  no_space_prefix (len q) s = true.
Proof.
  revert s; induction q as [|a q IH]; intros s H Hq; [reflexivity|].
  destruct s as [|b s]; [discriminate H|].
  cbn [startswith] in H. apply andb_true_iff in H. destruct H as [Hab H].
  apply N.eqb_eq in Hab. subst b.
  cbn [no_space] in Hq. apply andb_true_iff in Hq. destruct Hq as [Ha Hq].
  simpl. now rewrite Ha, (IH s H Hq).
Qed.

Lemma replace_go_tidy (old new : string) :
  no_space old = true -> old <> EmptyString ->
  no_space new = true -> new <> EmptyString ->
  forall s k b,
    no_space_prefix k s = true -> tidy b s = true ->
    tidy (match k with O => b | S _ => false end) (replace_go old new k s) = true.
Proof.
  intros Hold Holdne Hnew Hnewne.
  induction s as [|c s IH]; intros k b Hk Ht; [reflexivity|].
  destruct k as [|k].
  - cbn [replace_go]. destruct (startswith old (String c s)) eqn:E.
    + rewrite (tidy_app_no_space _ _ _ Hnew Hnewne).
      pose proof (startswith_no_space_prefix _ _ E Hold) as Hp.
      destruct old as [|o old']; [congruence|].
      simpl in Hp. apply andb_true_iff in Hp. destruct Hp as [Hc Hp].
      apply negb_true_iff in Hc. cbn [tidy] in Ht. rewrite Hc in Ht.
      replace (len (String o old') - 1) with (len old')
        by (simpl; lia).
      specialize (IH (len old') false Hp Ht).
      destruct (len old'); exact IH.
    + cbn [tidy] in Ht |- *. destruct (isspace c).
      * apply andb_true_iff in Ht. destruct Ht as [Ht1 Ht2]. rewrite Ht1.
        exact (IH 0 true eq_refl Ht2).
      * exact (IH 0 false eq_refl Ht).
  - simpl in Hk. apply andb_true_iff in Hk. destruct Hk as [Hc Hk].
    apply negb_true_iff in Hc. cbn [tidy] in Ht. rewrite Hc in Ht.
    cbn [replace_go]. specialize (IH k false Hk Ht). destruct k; exact IH.
Qed.

Lemma replace_tidy (old new s : string) (b : bool) :
  no_space old = true -> old <> EmptyString ->
  no_space new = true -> new <> EmptyString ->
  tidy b s = true -> tidy b (replace old new s) = true.
Proof.
  intros H1 H2 H3 H4 Ht.
  exact (replace_go_tidy old new H1 H2 H3 H4 s 0 b eq_refl Ht).
Qed.

Lemma normalize_text_tidy (text : string) : tidy false (normalize_text text) = true.
Proof.
  unfold normalize_text.
  repeat (apply replace_tidy; [reflexivity | discriminate | reflexivity | discriminate |]).
  apply collapse_ws_tidy.
Qed.

Lemma clean_tg_description_text (t : Tag) (text : string) :
  clean_tg_description t = Ok text -> exists raw, text = normalize_text raw.
Proof.
  unfold clean_tg_description. destruct t as [s|name attrs children]; [discriminate|].
  intros H. bind_ok H. bind_ok H. injection H as <-.
  eexists. reflexivity.
Qed.

(** X25.  In the text the normalizer gives, every blank character is a
    plain space and no two spaces stand together: tabs, line feeds and
    runs of blanks do not come through. *)
Theorem clean_tg_description_tidy (t : Tag) (text : string)
  (Hrun : clean_tg_description t = Ok text) :
  tidy false text = true.
Proof.
  apply clean_tg_description_text in Hrun. destruct Hrun as [raw ->].
  apply normalize_text_tidy.
Qed.

Lemma clean_tg_description_tidy_witness :
  clean_tg_description blank_paragraph = Ok "a b c d"
  /\ tidy false "a b c d" = true.
Proof.
  split; [reflexivity|].
  apply (clean_tg_description_tidy blank_paragraph). reflexivity.
Defined.

Lemma mapM_same {A : Type} (f : A -> Result A) (keep : A -> bool) (l : list A) :
  Forall (fun a => keep a = true -> f a = Ok a) l ->
  forallb keep l = true -> mapM f l = Ok l.
Proof.
  induction 1 as [|a l Ha _ IH]; simpl; intros H; [reflexivity|].
  apply andb_true_iff in H. destruct H as [H1 H2].
  now rewrite (Ha H1), (IH H2).
Qed.

Lemma replace_imgs_plain (t : Tag) : plain t = true -> replace_imgs t = Ok t.
Proof.
  induction t as [s|name attrs children IH] using Tag_induction; [reflexivity|].
  cbn [plain replace_imgs]. intros H.
  apply andb_true_iff in H. destruct H as [H Hc].
  apply andb_true_iff in H. destruct H as [H Ha].
  apply andb_true_iff in H. destruct H as [Hi Hb].
  rewrite (mapM_same _ _ _ IH Hc). unfold bind.
  apply negb_true_iff in Hi. now rewrite Hi.
Qed.

Lemma replace_brs_plain (t : Tag) : plain t = true -> replace_brs t = t.
Proof.
  induction t as [s|name attrs children IH] using Tag_induction; [reflexivity|].
  cbn [plain replace_brs]. intros H.
  apply andb_true_iff in H. destruct H as [H Hc].
  apply andb_true_iff in H. destruct H as [H Ha].
  apply andb_true_iff in H. destruct H as [Hi Hb].
  apply negb_true_iff in Hb. rewrite Hb. f_equal.
  clear - IH Hc. induction IH as [|c l Hx _ IHl]; [reflexivity|].
  simpl in Hc |- *. apply andb_true_iff in Hc. destruct Hc as [H1 H2].
  now rewrite (Hx H1), (IHl H2).
Qed.

Lemma replace_anchors_plain (t : Tag) : plain t = true -> replace_anchors t = Ok t.
Proof.
  induction t as [s|name attrs children IH] using Tag_induction; [reflexivity|].
  cbn [plain replace_anchors]. intros H.
  apply andb_true_iff in H. destruct H as [H Hc].
  apply andb_true_iff in H. destruct H as [H Ha].
  rewrite (mapM_same _ _ _ IH Hc). unfold bind.
  apply negb_true_iff in Ha. now rewrite Ha.
Qed.

Lemma map_replace_brs_plain (l : list Tag) :
  forallb plain l = true -> map replace_brs l = l.
Proof.
  induction l as [|c l IH]; simpl; [reflexivity|]. intros H.
  apply andb_true_iff in H. destruct H as [H1 H2].
  now rewrite (replace_brs_plain _ H1), (IH H2).
Qed.

(** X26.  Markup other than images, line breaks and anchors is
    transparent: on an element without any of them the normalizer gives
    the element's text with its blanks collapsed and its ellipses, dashes
    and quotes replaced, and never fails. *)
Theorem clean_tg_description_plain (name : string)
  (attrs : list (string * string)) (children : list Tag)
  (Hplain : forallb plain children = true) :
  clean_tg_description (Element name attrs children)
  = Ok (normalize_text (get_text (Element name attrs children))).
Proof.
  unfold clean_tg_description.
  rewrite (mapM_same replace_imgs plain children) by
    (first [apply Forall_forall; intros t _; apply replace_imgs_plain | exact Hplain]).
  unfold bind at 1. rewrite (map_replace_brs_plain _ Hplain).
  rewrite (mapM_same replace_anchors plain children) by
    (first [apply Forall_forall; intros t _; apply replace_anchors_plain | exact Hplain]).
  reflexivity.
Qed.

Lemma clean_tg_description_plain_witness :
  clean_tg_description
    (Element "td" [] [NavigableString ("Optional." ++ NBSP ++ " Use ");
                      Element "em" [] [NavigableString "true"];
                      NavigableString (NBSP ++ "– or not…")])
  = Ok "Optional. Use true - or not...".
Proof.
  apply (clean_tg_description_plain "td" []). reflexivity.
Defined.

(** ** Entity Segmenter: headers and paragraphs *)

(** X27.  A header opens a fresh record under its text: whatever was
    collected before under that name is gone (a later header wins), the
    record has its name and at most a link, its place among the keys is
    kept if the name was there, and no other entity of either category
    changes. *)
Theorem get_type_and_name_fresh (x anchor : Tag) (registry registry' : Items)
  (cn : string) (ct : Category)
  (Hrun : get_type_and_name x anchor registry = Ok (cn, ct, registry')) :
  cn = get_text x
  /\ (exists e, entity ct cn registry' = Ok e
                /\ e_name e = cn /\ e_description e = None /\ e_fields e = None
                /\ e_subtypes e = None /\ e_subtype_of e = None
                /\ e_returns e = None)
  /\ (forall k, k <> cn ->
      dict_get k (category ct registry') = dict_get k (category ct registry))
  /\ (dict_mem cn (category ct registry) = true ->
      map fst (category ct registry') = map fst (category ct registry))
  /\ (forall ct', ct' <> ct -> category ct' registry' = category ct' registry).
Proof.
  unfold get_type_and_name in Hrun.
  destruct (get_text x) as [|c s] eqn:Et; [discriminate Hrun|].
  injection Hrun as <- <- <-.
  split; [reflexivity|]. split.
  - rewrite entity_set_entity. eexists. split; [reflexivity|].
    destruct (tag_get anchor "href") as [[|? ?]|]; repeat split.
  - split; [|split].
    + intros k Hk. rewrite category_set_entity.
      apply dict_get_set_neq. congruence.
    + intros Hmem. rewrite category_set_entity. now apply dict_set_keys.
    + intros ct' Hne. destruct (isupper c), ct'; try reflexivity; congruence.
Qed.

Lemma get_type_and_name_fresh_witness :
  "Chat" = get_text (Element "h4" [] [NavigableString "Chat"])
  /\ (exists e, entity TYPES "Chat"
                  (set_entity TYPES "Chat" (new_entity "Chat") (items c3_state)) = Ok e
                /\ e_name e = "Chat" /\ e_description e = None /\ e_fields e = None
                /\ e_subtypes e = None /\ e_subtype_of e = None
                /\ e_returns e = None)
  /\ (forall k, k <> "Chat" ->
      dict_get k (category TYPES
                    (set_entity TYPES "Chat" (new_entity "Chat") (items c3_state)))
      = dict_get k (category TYPES (items c3_state)))
  /\ (dict_mem "Chat" (category TYPES (items c3_state)) = true ->
      map fst (category TYPES
                 (set_entity TYPES "Chat" (new_entity "Chat") (items c3_state)))
      = map fst (category TYPES (items c3_state)))
  /\ (forall ct', ct' <> TYPES ->
      category ct' (set_entity TYPES "Chat" (new_entity "Chat") (items c3_state))
      = category ct' (items c3_state)).
Proof.
  apply (get_type_and_name_fresh (Element "h4" [] [NavigableString "Chat"])
           (Element "a" [] []) (items c3_state)).
  reflexivity.
Defined.

Lemma step_paragraph_type (st : State) (cn : string) (e : Entity) (para : Tag)
  (text : string) :
  curr_type st = Some TYPES -> curr_name st = cn -> cn <> EmptyString ->
  entity TYPES cn (items st) = Ok e ->
  clean_tg_description para = Ok text ->
  step st (P para)
  = Ok (mkState (Some TYPES) cn
          (set_entity TYPES cn
             (set_description (get_or_empty (e_description e) ++ [text]) e)
             (items st))).
Proof.
  intros Hct Hcn Hne He Ht. unfold step. cbn [is_boundary]. cbv iota.
  rewrite Hct, Hcn. destruct cn as [|c cn]; [congruence|].
  unfold route. rewrite He, Ht. reflexivity.
Qed.

(** X28.  Paragraphs are kept in the order of the document: a run of
    paragraphs under an open type, each normalized without error, leaves
    the type open with their texts appended to its description, one line
    for each, after what was there. *)
Theorem walk_paragraphs (paras : list Tag) (texts : list string) (st : State)
  (e : Entity)
  (Hct : curr_type st = Some TYPES)
  (Hcn : curr_name st <> EmptyString)
  (He : entity TYPES (curr_name st) (items st) = Ok e)
  (Htexts : mapM clean_tg_description paras = Ok texts) :
  exists st' e',
    walk st (map P paras) = Ok st'
    /\ curr_type st' = Some TYPES /\ curr_name st' = curr_name st
    /\ entity TYPES (curr_name st) (items st') = Ok e'
    /\ get_or_empty (e_description e')
       = (get_or_empty (e_description e) ++ texts)%list.
Proof.
  revert texts st e Hct Hcn He Htexts.
  induction paras as [|para l IH]; intros texts st e Hct Hcn He Htexts.
  - injection Htexts as <-. exists st, e. rewrite app_nil_r. auto.
  - simpl in Htexts. bind_ok Htexts. bind_ok Htexts. injection Htexts as <-.
    cbn [map walk].
    rewrite (step_paragraph_type st (curr_name st) e para a Hct eq_refl Hcn He E).
    cbn [bind].
    set (st1 := mkState (Some TYPES) (curr_name st) _).
    destruct (IH a0 st1 _ eq_refl Hcn (entity_set_entity _ _ _ _) eq_refl)
      as [st' [e' [Hw [H1 [H2 [H3 H4]]]]]].
    exists st', e'. repeat split; try assumption.
    rewrite H4. simpl. now rewrite <- app_assoc.
Qed.

Lemma walk_paragraphs_witness :
  exists st' e',
    walk c3_state (map P [Element "p" [] [NavigableString "One."];
                          Element "p" [] [NavigableString "Two."]]) = Ok st'
    /\ curr_type st' = Some TYPES /\ curr_name st' = curr_name c3_state
    /\ entity TYPES (curr_name c3_state) (items st') = Ok e'
    /\ get_or_empty (e_description e')
       = (get_or_empty (e_description (sample_entity "Chat" (types (items c3_state))))
          ++ ["One."; "Two."])%list.
Proof.
  apply (walk_paragraphs [Element "p" [] [NavigableString "One."];
                          Element "p" [] [NavigableString "Two."]]
           ["One."; "Two."] c3_state).
  - reflexivity.
  - discriminate.
  - reflexivity.
  - reflexivity.
Defined.
